(** * go-phish-api: the admission pipeline of [internal/validate] and the
      start-up checks of [internal/server], embedded in Rocq.

    The Go code is translated function by function.

    - Calls into the Go standard library and into third-party packages
      ([net], [net/url], [regexp], [encoding/json], [fmt]) go through the
      interface [GoLib]; the properties hold for every instance of it.
    - The reputation service and the DNS are oracles stored in the [World],
      next to the clock and the two caches of the pipeline.  Every effect
      the code performs (HTTP request, DNS lookup, sleep, cache read or
      write, log line) is appended to the world's [trace].
    - [int] and [time.Duration] are 64-bit: products and increments wrap
      around as in Go.  The clock is a count of nanoseconds within the range
      of [UnixNano].
    - The retry loop runs on fuel; a computation is [None] only when the
      fuel is used up.
    - One request is followed from start to end: the mutexes are no-ops and
      nothing else touches the world while a call runs. *)

From Stdlib Require Import ZArith Ascii String List Bool Lia.
From stdpp Require Import base option list gmap strings.

Open Scope string_scope.
Open Scope list_scope.
Open Scope Z_scope.

(** ** Machine integers and durations *)

Module Int64.

Definition MaxInt64 : Z := 2 ^ 63 - 1.
Definition MinInt64 : Z := - 2 ^ 63.

(** Two's-complement wrap-around of Go's [int64] (and of [int] on the 64-bit
    targets the Dockerfile builds for). *)
Definition wrap (z : Z) : Z := (z + 2 ^ 63) mod 2 ^ 64 - 2 ^ 63.

Definition mul (a b : Z) : Z := wrap (a * b).
Definition succ (a : Z) : Z := wrap (a + 1).

Definition in_range (z : Z) : Prop := MinInt64 <= z <= MaxInt64.

End Int64.

(** [time.Duration] is an [int64] count of nanoseconds. *)
Definition Duration := Z.

Module time.

Definition Millisecond : Duration := 1000000.
Definition Second : Duration := 1000000000.
Definition Minute : Duration := 60 * Second.
Definition Hour : Duration := 60 * Minute.

End time.

(** ** Errors and Go result pairs *)

(** A Go [error] value is represented by its message; [nil] is [None]. *)
Definition error := string.

Definition errors_New (msg : string) : error := msg.

(** ** JSON payloads of the reputation service (whitelister.go) *)

Record IpWhiteListResponse := {
  ip_Status : string;
  ip_IP : string;
  ip_Result : bool
}.

Record DomainWhiteListResponse := {
  dom_Status : string;
  dom_Domain : string;
  dom_Result : bool
}.

(** ** The library interface *)

Class GoLib := {
  (* package net *)
  IP : Type;
  net_ParseIP : string -> option IP;
  IP_IsLoopback : IP -> bool;
  IP_IsLinkLocalUnicast : IP -> bool;
  IP_IsLinkLocalMulticast : IP -> bool;
  IPNet : Type;
  net_ParseCIDR : string -> option IPNet;
  IPNet_Contains : IPNet -> IP -> bool;
  (* package regexp *)
  Regexp : Type;
  regexp_Compile : string -> option Regexp;
  Regexp_MatchString : Regexp -> string -> bool;
  (* package net/url *)
  URL : Type;
  url_Parse : string -> URL + error;
  URL_Scheme : URL -> string;
  URL_Hostname : URL -> string;
  (* fmt.Sprintf with a configured format and one operand *)
  fmt_Sprintf1 : string -> string -> string;
  (* encoding/json into the two response structs; None is a decoding error *)
  json_Unmarshal_Domain : string -> option DomainWhiteListResponse;
  json_Unmarshal_Ip : string -> option IpWhiteListResponse
}.

(** ** github.com/patrickmn/go-cache, as used by the repository

    An item carries its absolute expiry in nanoseconds; [0] means that the
    item never expires.  [Get] treats an item whose expiry lies strictly in
    the past as absent; [Set] with [DefaultExpiration] uses the duration the
    cache was created with. *)

Record Item := { Object : bool; Expiration : Z }.

Record Cache := { defaultExpiration : Duration; items : gmap string Item }.

Module cache.

Definition NoExpiration : Duration := -1.
Definition DefaultExpiration : Duration := 0.

(** The janitor started for [cleanupInterval] only removes items that [Get]
    already treats as absent. *)
Definition New (defaultExp cleanupInterval : Duration) : Cache :=
  {| defaultExpiration := if defaultExp =? 0 then NoExpiration else defaultExp;
     items := ∅ |}.

Definition Expired (now : Z) (it : Item) : bool :=
  (0 <? Expiration it) && (Expiration it <? now).

Definition Get (c : Cache) (now : Z) (k : string) : option bool :=
  match items c !! k with
  | None => None
  | Some it => if Expired now it then None else Some (Object it)
  end.

Definition Set' (c : Cache) (now : Z) (k : string) (x : bool) (d : Duration) : Cache :=
  let d := if d =? DefaultExpiration then defaultExpiration c else d in
  let e := if 0 <? d then now + d else 0 in
  {| defaultExpiration := defaultExpiration c;
     items := <[k := {| Object := x; Expiration := e |}]> (items c) |}.

Definition SetDefault (c : Cache) (now : Z) (k : string) (x : bool) : Cache :=
  Set' c now k x DefaultExpiration.

End cache.

(** ** Effects *)

(** The two cache objects of the pipeline. *)
Inductive CacheRef :=
| WhitelisterMemcache   (* Whitelister.memcache *)
| ValidatorDomainCache. (* Validator.DomainCache *)

(** Why one try of the reputation loop failed (the [msg] variable). *)
Inductive TryFailure :=
| CantExecuteRequest (try : Z) (err : error)
| CantReadBody (try : Z) (status : Z) (err : error)
| BadStatus (try : Z) (status : Z)
| CantParseJson (try : Z) (status : Z) (body : string).

(** Log lines, one constructor per [log.Printf]/[log.Print] site. *)
Inductive LogLine :=
(* whitelister.go *)
| Log_wl_sleep (fnc : string) (try : Z) (d : Duration)
| Log_wl_try_failed (fnc : string) (key : string) (f : TryFailure)
| Log_wl_no_result (fnc : string) (maxTries : Z) (msg : option TryFailure)
(* ipchecker.go *)
| Log_lookup_error (domain : string) (err : error)
| Log_lookup_empty (domain : string)
| Log_lookup_ok (domain ip : string)
(* validate.go *)
| Log_url_blacklisted (url : string)
| Log_parse_domain_fail (url : string) (err : error)
| Log_domain_check_fail (domain url : string) (err : error)
| Log_has_no_a_record (domain : string)       (* DomainHasARecord *)
| Log_ip_literal_not_parsed (domain : string) (* DomainRequiresProcessing, netIP == nil *)
| Log_local_ip (domain : string)
| Log_ip_whitelisted (domain : string)
| Log_domain_whitelisted (domain : string)
| Log_no_a_record (domain : string).           (* DomainRequiresProcessing, name arm *)

Inductive Event :=
| EvHttpGet (url : string)
| EvLookupHost (domain : string)
| EvSleep (d : Duration)
| EvCacheGet (c : CacheRef) (key : string)
| EvCacheSet (c : CacheRef) (key : string) (val : bool)
| EvLog (l : LogLine).

(** What [http.Get] followed by [io.ReadAll] can produce. *)
Record Response := {
  StatusCode : Z;
  Body : string + error   (* inr: io.ReadAll fails *)
}.

(** The outside world as the pipeline meets it: the n-th network interaction
    of the process gets the answer the oracle holds for index n. *)
Record Network := {
  http_reply : nat -> string -> Response + error;
  dns_reply : nat -> string -> list string + error;
  latency : nat -> Duration
}.

Record World := {
  net : Network;
  net_calls : nat;            (* network interactions so far *)
  clock : Z;                  (* time.Now().UnixNano() *)
  wl_memcache : Cache;
  v_DomainCache : Cache;
  trace : list Event          (* oldest first *)
}.

Definition emit (e : Event) (w : World) : World :=
  {| net := net w; net_calls := net_calls w; clock := clock w;
     wl_memcache := wl_memcache w; v_DomainCache := v_DomainCache w;
     trace := trace w ++ [e] |}.

Definition elapse (d : Duration) (w : World) : World :=
  {| net := net w; net_calls := net_calls w; clock := clock w + Z.max 0 d;
     wl_memcache := wl_memcache w; v_DomainCache := v_DomainCache w;
     trace := trace w |}.

Definition answered (w : World) : World :=
  {| net := net w; net_calls := S (net_calls w); clock := clock w;
     wl_memcache := wl_memcache w; v_DomainCache := v_DomainCache w;
     trace := trace w |}.

Definition cache_of (c : CacheRef) (w : World) : Cache :=
  match c with
  | WhitelisterMemcache => wl_memcache w
  | ValidatorDomainCache => v_DomainCache w
  end.

Definition with_cache (c : CacheRef) (x : Cache) (w : World) : World :=
  match c with
  | WhitelisterMemcache =>
      {| net := net w; net_calls := net_calls w; clock := clock w;
         wl_memcache := x; v_DomainCache := v_DomainCache w; trace := trace w |}
  | ValidatorDomainCache =>
      {| net := net w; net_calls := net_calls w; clock := clock w;
         wl_memcache := wl_memcache w; v_DomainCache := x; trace := trace w |}
  end.

(** The monad of the embedding: state passing over [World]; [None] only when
    the fuel of a loop is used up. *)
Definition M (A : Type) : Type := World -> option (A * World).

Definition ret {A} (a : A) : M A := fun w => Some (a, w).

Definition bind {A B} (m : M A) (k : A -> M B) : M B :=
  fun w => match m w with
           | None => None
           | Some (a, w') => k a w'
           end.

Definition out_of_fuel {A} : M A := fun _ => None.

Declare Scope go_scope.
Delimit Scope go_scope with go.
Notation "x <- c1 ;; c2" := (bind c1 (fun x => c2))
  (at level 100, c1 at next level, right associativity) : go_scope.
Notation "c1 ;; c2" := (bind c1 (fun _ => c2))
  (at level 100, right associativity) : go_scope.
Open Scope go_scope.

(** *** Primitive effects *)

Definition log_Print (l : LogLine) : M unit :=
  fun w => Some (tt, emit (EvLog l) w).

(** [time.Sleep d], reached only with [d > 0]. *)
Definition time_Sleep (d : Duration) : M unit :=
  fun w => Some (tt, elapse d (emit (EvSleep d) w)).

(** [http.Get url] and, when it succeeds, [io.ReadAll resp.Body]. *)
Definition http_Get (url : string) : M (Response + error) :=
  fun w => Some (http_reply (net w) (net_calls w) url,
                 elapse (latency (net w) (net_calls w))
                        (answered (emit (EvHttpGet url) w))).

Definition net_LookupHost (domain : string) : M (list string + error) :=
  fun w => Some (dns_reply (net w) (net_calls w) domain,
                 elapse (latency (net w) (net_calls w))
                        (answered (emit (EvLookupHost domain) w))).

Definition cache_Get (c : CacheRef) (k : string) : M (option bool) :=
  fun w => Some (cache.Get (cache_of c w) (clock w) k, emit (EvCacheGet c k) w).

Definition cache_Set (c : CacheRef) (k : string) (x : bool) (d : Duration) : M unit :=
  fun w => Some (tt, with_cache c (cache.Set' (cache_of c w) (clock w) k x d)
                                (emit (EvCacheSet c k x) w)).

(** ** utils.go *)

(** Bodies are byte strings; [String.length] counts bytes. *)
Definition TrimBytes (body : string) : string :=
  if (String.length body <? 500)%nat then body
  else String.append (String.substring 0 200 body)
         (String.append "...(CUT)..."
            (String.substring (String.length body - 200) 200 body)).

(** ** Configuration and component records *)

Record WhitelisterApi := {
  CheckIpApiUrl : string;
  CheckDomainApiUrl : string;
  MaxTries : Z;           (* int *)
  SleepTime : Duration
}.

Record ValidatorConfig := {
  UrlBlackListRegexps : list string;
  LocalIPNetsCfg : list string;         (* field LocalIPNets *)
  WhitelisterApiCfg : WhitelisterApi    (* field WhitelisterApi *)
}.

(** The [memcache] of the Go struct lives in the [World]; the mutex is a
    no-op in this sequential embedding. *)
Record Whitelister := {
  checkDomainApiUrl : string;
  checkIpApiUrl : string;
  maxTries : Z;
  sleepTime : Duration
}.

(** How a constructor called from [main] ends. *)
Inductive Startup (A : Type) :=
| Started (a : A)
| Refused (err : error)     (* (nil, err): main's fatalOnErr stops the process *)
| Aborted (what : string).  (* a panic or log.Fatalf inside the constructor *)

Arguments Started {A} a.
Arguments Refused {A} err.
Arguments Aborted {A} what.

Section Pipeline.

Context {L : GoLib}.

(** ** ipchecker.go *)

Record IpChecker := { LocalIPNets : list IPNet }.

(** The parsing loop of [NewIpChecker]; [inr localNet] is the item on which
    [log.Fatalf] ends the process. *)
Fixpoint parse_local_nets (localNets : list string) (nets : list IPNet)
  : list IPNet + string :=
  match localNets with
  | [] => inl nets
  | localNet :: rest =>
      match net_ParseCIDR localNet with
      | None => inr localNet
      | Some n => parse_local_nets rest (nets ++ [n])
      end
  end.

Definition NewIpChecker (localNets : list string) : IpChecker + string :=
  match parse_local_nets localNets [] with
  | inl nets => inl {| LocalIPNets := nets |}
  | inr bad => inr bad
  end.

Fixpoint contains_ip (nets : list IPNet) (ip : IP) : bool :=
  match nets with
  | [] => false
  | n :: rest => if IPNet_Contains n ip then true else contains_ip rest ip
  end.

Definition IsLocalIP (checker : IpChecker) (ip : IP) : bool :=
  if IP_IsLoopback ip || IP_IsLinkLocalUnicast ip || IP_IsLinkLocalMulticast ip
  then true
  else contains_ip (LocalIPNets checker) ip.

Definition GetNetIP (checker : IpChecker) (domain : string) : option IP :=
  net_ParseIP domain.

Definition DomainIsIP (checker : IpChecker) (domain : string) : bool :=
  match GetNetIP checker domain with
  | Some _ => true
  | None => false
  end.

Definition GetDomainIP (checker : IpChecker) (domain : string)
  : M (string * option error) :=
  if DomainIsIP checker domain then ret (domain, None)
  else
    r <- net_LookupHost domain ;;
    match r with
    | inr err =>
        log_Print (Log_lookup_error domain err) ;;
        ret ("", Some err)
    | inl [] =>
        log_Print (Log_lookup_empty domain) ;;
        ret ("", Some (errors_New "empty list of a-records received"))
    | inl (ip :: _) =>
        log_Print (Log_lookup_ok domain ip) ;;
        ret (ip, None)
    end.

(** ** blacklister.go *)

Record UrlBlacklister := { Regexps : list Regexp }.

(** The compile loop of [NewBlacklister]; [inr exp] is the pattern on which
    [regexp.MustCompile] panics. *)
Fixpoint compile_all (rawRegexps : list string) (compiled : list Regexp)
  : list Regexp + string :=
  match rawRegexps with
  | [] => inl compiled
  | exp :: rest =>
      match regexp_Compile exp with
      | None => inr exp
      | Some re => compile_all rest (compiled ++ [re])
      end
  end.

Definition NewBlacklister (rawRegexps : list string) : UrlBlacklister + string :=
  match compile_all rawRegexps [] with
  | inl compiled => inl {| Regexps := compiled |}
  | inr bad => inr bad
  end.

Fixpoint match_any (res : list Regexp) (url : string) : bool :=
  match res with
  | [] => false
  | re :: rest => if Regexp_MatchString re url then true else match_any rest url
  end.

Definition UrlIsBlack (checker : UrlBlacklister) (url : string) : bool :=
  match_any (Regexps checker) url.

(** ** whitelister.go *)

Definition NewWhitelister (cfg : WhitelisterApi) : Whitelister * Cache :=
  ({| checkDomainApiUrl := CheckDomainApiUrl cfg;
      checkIpApiUrl := CheckIpApiUrl cfg;
      maxTries := MaxTries cfg;
      sleepTime := SleepTime cfg |},
   cache.New time.Hour time.Minute).

(** The body of the [for try := 1; try <= maxTries; try++] loop.
    [DomainIsWhite] and [IpIsWhite] spell the same body out twice; they
    differ in the tag [fnc], in the struct the reply is decoded into
    ([decode] gives its [Result]) and in the wording of the messages.
    [inr f] is an iteration left by [continue] with [msg] set to [f];
    [inl isWhite] is the iteration that returns [(isWhite, nil)].  The
    deferred [resp.Body.Close()] has no part in the result. *)
Definition one_try (checker : Whitelister) (fnc : string)
    (decode : string -> option bool) (url key : string) (try : Z)
  : M (bool + TryFailure) :=
  (if 1 <? try then
     let sleepDuration := Int64.mul (sleepTime checker) try in
     if 0 <? sleepDuration then
       log_Print (Log_wl_sleep fnc try sleepDuration) ;;
       time_Sleep sleepDuration
     else ret tt
   else ret tt) ;;
  resp <- http_Get url ;;
  match resp with
  | inr err =>
      let f := CantExecuteRequest try err in
      log_Print (Log_wl_try_failed fnc key f) ;;
      ret (inr f)
  | inl resp =>
      match Body resp with
      | inr err =>
          let f := CantReadBody try (StatusCode resp) err in
          log_Print (Log_wl_try_failed fnc key f) ;;
          ret (inr f)
      | inl body =>
          if negb (StatusCode resp =? 200) then
            let f := BadStatus try (StatusCode resp) in
            log_Print (Log_wl_try_failed fnc key f) ;;
            ret (inr f)
          else
            match decode body with
            | None =>
                let f := CantParseJson try (StatusCode resp) (TrimBytes body) in
                log_Print (Log_wl_try_failed fnc key f) ;;
                ret (inr f)
            | Some isWhite =>
                cache_Set WhitelisterMemcache key isWhite cache.DefaultExpiration ;;
                ret (inl isWhite)
            end
      end
  end.

(** The loop itself, from the value [try] of its counter on.  It yields
    [Some isWhite] where the Go code returns from inside the loop and [None]
    where the loop ends, together with the last value of [msg].  The counter
    is an [int]: [try++] wraps around. *)
Fixpoint tries (checker : Whitelister) (fnc : string)
    (decode : string -> option bool) (url key : string)
    (fuel : nat) (try : Z) (msg : option TryFailure)
  : M (option bool * option TryFailure) :=
  if try <=? maxTries checker then
    match fuel with
    | O => out_of_fuel
    | S fuel =>
        r <- one_try checker fnc decode url key try ;;
        match r with
        | inl isWhite => ret (Some isWhite, msg)
        | inr f => tries checker fnc decode url key fuel (Int64.succ try) (Some f)
        end
    end
  else ret (None, msg).

Definition decode_domain (body : string) : option bool :=
  match json_Unmarshal_Domain body with
  | Some response => Some (dom_Result response)
  | None => None
  end.

Definition decode_ip (body : string) : option bool :=
  match json_Unmarshal_Ip body with
  | Some response => Some (ip_Result response)
  | None => None
  end.

Definition DomainIsWhite (checker : Whitelister) (fuel : nat) (domain : string)
  : M (bool * option error) :=
  let fnc := "wl check domain" in
  let url := fmt_Sprintf1 (checkDomainApiUrl checker) domain in
  match net_ParseIP domain with
  | Some _ => ret (false, None)
  | None =>
      cached <- cache_Get WhitelisterMemcache domain ;;
      match cached with
      | Some isWhite => ret (isWhite, None)
      | None =>
          r <- tries checker fnc decode_domain url domain fuel 1 None ;;
          match r with
          | (Some isWhite, _) => ret (isWhite, None)
          | (None, msg) =>
              log_Print (Log_wl_no_result fnc (maxTries checker) msg) ;;
              ret (false, None)
          end
      end
  end.

Definition IpIsWhite (checker : Whitelister) (fuel : nat) (ip : string)
  : M (bool * option error) :=
  let fnc := "wl check ip" in
  let url := fmt_Sprintf1 (checkIpApiUrl checker) ip in
  cached <- cache_Get WhitelisterMemcache ip ;;
  match cached with
  | Some isWhite => ret (isWhite, None)
  | None =>
      r <- tries checker fnc decode_ip url ip fuel 1 None ;;
      match r with
      | (Some isWhite, _) => ret (isWhite, None)
      | (None, msg) =>
          log_Print (Log_wl_no_result fnc (maxTries checker) msg) ;;
          ret (false, None)
      end
  end.

(** ** validate.go *)

(** [DomainCache] lives in the [World]; the mutex is a no-op here. *)
Record Validator := {
  v_UrlBlacklister : UrlBlacklister;
  v_IpChecker : IpChecker;
  v_Whitelister : Whitelister
}.

Definition getDomainCache (v : Validator) (domain : string) : M (option bool) :=
  cache_Get ValidatorDomainCache domain.

(** [SetDefault k x] is [Set k x DefaultExpiration]. *)
Definition setDomainCache (v : Validator) (domain : string) (val : bool) : M unit :=
  cache_Set ValidatorDomainCache domain val cache.DefaultExpiration.

Definition getFullDomain (v : Validator) (scheme domain : string) : string :=
  String.append scheme (String.append "://" domain).

Definition ParseDomain (v : Validator) (urlString : string)
  : string * string * option error :=
  if String.eqb urlString "" then
    ("", "", Some (errors_New "received empty url to be parsed"))
  else
    match url_Parse urlString with
    | inr err => ("", "", Some err)
    | inl parsedData =>
        let domain := URL_Hostname parsedData in
        if String.eqb domain "" then
          ("", "", Some (errors_New "parsed empty domain from url"))
        else if DomainIsIP (v_IpChecker v) domain then
          (getFullDomain v (URL_Scheme parsedData) domain, domain, None)
        else
          (getFullDomain v (URL_Scheme parsedData) domain, domain, None)
    end.

Definition DomainIsWhiteListed (v : Validator) (fuel : nat) (domain : string)
  : M (bool * option error) :=
  if DomainIsIP (v_IpChecker v) domain then
    r <- IpIsWhite (v_Whitelister v) fuel domain ;;
    match r with
    | (_, Some err) => ret (false, Some err)
    | (isWhite, None) => ret (isWhite, None)
    end
  else
    r <- DomainIsWhite (v_Whitelister v) fuel domain ;;
    match r with
    | (_, Some err) => ret (false, Some err)
    | (isWhite, None) => ret (isWhite, None)
    end.

Definition DomainHasARecord (v : Validator) (domain : string) : M bool :=
  r <- GetDomainIP (v_IpChecker v) domain ;;
  match r with
  | (_, Some _) => log_Print (Log_has_no_a_record domain) ;; ret false
  | (_, None) => ret true
  end.

(** The IP-literal arm of [DomainRequiresProcessing] after the [netIP == nil]
    test. *)
Definition ip_literal_requires_processing (v : Validator) (fuel : nat)
    (domain : string) (netIP : IP) : M (bool * option error) :=
  if IsLocalIP (v_IpChecker v) netIP then
    log_Print (Log_local_ip domain) ;;
    ret (false, None)
  else
    r <- IpIsWhite (v_Whitelister v) fuel domain ;;
    match r with
    | (_, Some err) => ret (false, Some err)
    | (isWhite, None) =>
        (if isWhite then log_Print (Log_ip_whitelisted domain) else ret tt) ;;
        ret (negb isWhite, None)
    end.

Definition DomainRequiresProcessing (v : Validator) (fuel : nat) (domain : string)
  : M (bool * option error) :=
  if DomainIsIP (v_IpChecker v) domain then
    match GetNetIP (v_IpChecker v) domain with
    | None =>
        log_Print (Log_ip_literal_not_parsed domain) ;;
        ret (false, None)
    | Some netIP => ip_literal_requires_processing v fuel domain netIP
    end
  else
    r <- DomainIsWhite (v_Whitelister v) fuel domain ;;
    match r with
    | (_, Some err) => ret (false, Some err)
    | (isWhite, None) =>
        if isWhite then
          log_Print (Log_domain_whitelisted domain) ;;
          ret (negb isWhite, None)
        else
          a <- GetDomainIP (v_IpChecker v) domain ;;
          match a with
          | (_, Some _) =>
              log_Print (Log_no_a_record domain) ;;
              ret (false, None)
          | (_, None) => ret (true, None)
          end
    end.

Definition UrlRequiresProcessing (v : Validator) (fuel : nat) (url : string)
  : M (bool * option error) :=
  if UrlIsBlack (v_UrlBlacklister v) url then
    log_Print (Log_url_blacklisted url) ;;
    ret (false, None)
  else
    match ParseDomain v url with
    | (_, _, Some err) =>
        log_Print (Log_parse_domain_fail url err) ;;
        ret (false, Some err)
    | (_, domain, None) =>
        cached <- getDomainCache v domain ;;
        match cached with
        | Some domainNeedsProcessing => ret (domainNeedsProcessing, None)
        | None =>
            r <- DomainRequiresProcessing v fuel domain ;;
            match r with
            | (_, Some err) =>
                log_Print (Log_domain_check_fail domain url err) ;;
                ret (false, Some err)
            | (result, None) =>
                setDomainCache v domain result ;;
                ret (result, None)
            end
        end
    end.

Definition IsValidUrl (urlstr : string) : bool :=
  match url_Parse urlstr with
  | inr _ => false
  | inl u =>
      if negb (String.eqb (URL_Scheme u) "http")
         && negb (String.eqb (URL_Scheme u) "https")
      then false
      else true
  end.

(** The [range] loops of [IsValid]: an empty item clears [valid]. *)
Definition no_empty_item (valid : bool) (l : list string) : bool :=
  fold_left (fun valid rx => if String.eqb rx "" then false else valid) l valid.

(** [ValidatorConfig.IsValid]; the receiver is never nil (NewValidator calls
    it on its own parameter), and the log lines of the checks are left out. *)
Definition ValidatorConfig_IsValid (cfg : ValidatorConfig) : bool :=
  let valid := true in
  (* bl regexps *)
  let blRegexps := UrlBlackListRegexps cfg in
  let valid := if (length blRegexps =? 0)%nat then false else valid in
  let valid := no_empty_item valid blRegexps in
  (* ip checker - local ip nets *)
  let localIpNets := LocalIPNetsCfg cfg in
  let valid := if (length localIpNets =? 0)%nat then false else valid in
  let valid := no_empty_item valid localIpNets in
  (* wl api *)
  let wlCfg := WhitelisterApiCfg cfg in
  let valid := if negb (IsValidUrl (CheckDomainApiUrl wlCfg)) then false else valid in
  let valid := if negb (IsValidUrl (CheckIpApiUrl wlCfg)) then false else valid in
  let valid := if MaxTries wlCfg <=? 0 then false else valid in
  let valid := if SleepTime wlCfg <? time.Millisecond then false else valid in
  valid.

(** [NewValidator] installs the two fresh caches in the world. *)
Definition NewValidator (cfg : ValidatorConfig) (w : World)
  : Startup (Validator * World) :=
  if negb (ValidatorConfig_IsValid cfg) then
    Refused (errors_New "validator cfg is invalid")
  else
    match NewBlacklister (UrlBlackListRegexps cfg) with
    | inr bad => Aborted bad
    | inl bl =>
        match NewIpChecker (LocalIPNetsCfg cfg) with
        | inr bad => Aborted bad
        | inl ip =>
            let (wl, memcache) := NewWhitelister (WhitelisterApiCfg cfg) in
            let validator :=
              {| v_UrlBlacklister := bl; v_IpChecker := ip; v_Whitelister := wl |} in
            Started (validator,
                     with_cache ValidatorDomainCache
                       (cache.New (30 * time.Minute) (3 * time.Minute))
                       (with_cache WhitelisterMemcache memcache w))
        end
    end.

(** ** server.go: the start-up check of the HTTP front door *)

Record HttpConfig := {
  Listen : string;
  AuthTokens : gmap string string
}.

Fixpoint strings_Join (elems : list string) (sep : string) : string :=
  match elems with
  | [] => ""
  | [e] => e
  | e :: rest => String.append e (String.append sep (strings_Join rest sep))
  end.

(** [HttpConfig.IsValid] with what it logs: the verdict and the line written
    by [log.Printf] when [errs] is not empty. *)
Definition HttpConfig_IsValid_logged (c : HttpConfig) : bool * option string :=
  let valid := true in
  let errs : list string := [] in
  let cfgName := "http" in
  let '(valid, errs) :=
    if String.eqb (Listen c) "" then
      (false, errs ++ [String.append cfgName " empty val: 'listen'"])
    else (valid, errs) in
  let errs :=
    if (size (AuthTokens c) =? 0)%nat then
      errs ++ [String.append cfgName " empty val: 'auth_tokens'"]
    else errs in
  (valid,
   if (0 <? length errs)%nat then
     Some (String.append "config is invalid; errors: " (strings_Join errs ", "))
   else None).

Definition HttpConfig_IsValid (c : HttpConfig) : bool :=
  fst (HttpConfig_IsValid_logged c).

(** The fields of [Server] that [NewServer] fills from its arguments; the gin
    router and the handles of the sinks are outside the embedding. *)
Record Server := {
  Srv_Addr : string;
  srv_AuthTokens : gmap string string;
  srv_Validator : Validator
}.

Definition NewServer (cfg : HttpConfig) (validator : Validator) : Startup Server :=
  if negb (HttpConfig_IsValid cfg) then
    Refused (errors_New "http config is invalid")
  else
    Started {| Srv_Addr := String.append ":" (Listen cfg);
               srv_AuthTokens := AuthTokens cfg;
               srv_Validator := validator |}.

End Pipeline.

(** ** rabbitmq.go: the dispatch sink *)

(** The [Dst] block of [RabbitConfig]. *)
Record RabbitConfig := {
  Dsn : string;
  Exchange : string;
  Exchanges : gmap string string
}.

(** The [range] loop of [RabbitConfig.IsValid] over the entries of the map,
    in the order in which the runtime hands them out: the first entry with
    an empty key or value clears [valid] and ends the loop. *)
Fixpoint exchanges_checked (entries : list (string * string)) (valid : bool) : bool :=
  match entries with
  | [] => valid
  | (key, val) :: rest =>
      if String.eqb key "" || String.eqb val "" then false
      else exchanges_checked rest valid
  end.

(** [RabbitConfig.IsValid]; the log lines of the checks are left out. *)
Definition RabbitConfig_IsValid (cfg : RabbitConfig) : bool :=
  let valid := true in
  let valid := if String.eqb (Dsn cfg) "" then false else valid in
  let valid := if String.eqb (Exchange cfg) "" then false else valid in
  let valid := if (size (Exchanges cfg) =? 0)%nat then false else valid in
  exchanges_checked (map_to_list (Exchanges cfg)) valid.

(** What [RabbitChannel.Publish] hands to the AMQP channel. *)
Record Publishing := {
  pub_exchange : string;
  pub_routingKey : string;
  pub_mandatory : bool;
  pub_immediate : bool;
  pub_ContentType : string;
  pub_persistent : bool;     (* DeliveryMode: amqp.Persistent *)
  pub_Body : string
}.

(** The broker as the code meets it: dialling, opening a channel and
    publishing either succeed or give an error. *)
Record Broker := {
  amqp_Dial : string -> option error;
  amqp_Channel : string -> option error;
  amqp_Publish : Publishing -> option error
}.

(** An open connection with its channel. *)
Record RabbitChannel := { rc_dsn : string }.

Record RabbitHandler := {
  ProdCh : RabbitChannel;
  MainExchange : string;
  ExtraExchanges : gmap string string
}.

(** [newChannel]; [inr] is the message of the [log.Fatalf] that ends the
    process. *)
Definition newChannel (b : Broker) (dsn : string) : RabbitChannel + string :=
  match amqp_Dial b dsn with
  | Some err => inr (String.append "failed to connect to rabbitmq, err: " err)
  | None =>
      match amqp_Channel b dsn with
      | Some err => inr (String.append "failed to open a rabbit channel, err: " err)
      | None => inl {| rc_dsn := dsn |}
      end
  end.

Definition NewRabbitHandler (b : Broker) (cfg : RabbitConfig) : Startup RabbitHandler :=
  if negb (RabbitConfig_IsValid cfg) then
    Refused (errors_New "rabbit cfg is invalid")
  else
    match newChannel b (Dsn cfg) with
    | inr fatal => Aborted fatal
    | inl prodCh =>
        Started {| ProdCh := prodCh;
                   MainExchange := Exchange cfg;
                   ExtraExchanges := Exchanges cfg |}
    end.

Definition RabbitChannel_Publish (b : Broker) (rc : RabbitChannel)
    (exchange routingKey message : string) : Publishing * option error :=
  let p := {| pub_exchange := exchange;
              pub_routingKey := routingKey;
              pub_mandatory := false;
              pub_immediate := false;
              pub_ContentType := "application/json";
              pub_persistent := true;
              pub_Body := message |} in
  (p, amqp_Publish b p).

(** [RabbitHandler.Publish]: what was handed to the channel, and the message
    of [log.Fatalf] when the channel refused it. *)
Definition RabbitHandler_Publish (b : Broker) (h : RabbitHandler)
    (taskSource routingKey message : string) : Publishing * option string :=
  let exchange := MainExchange h in
  let exchange :=
    match ExtraExchanges h !! taskSource with
    | Some exch => exch
    | None => exchange
    end in
  match RabbitChannel_Publish b (ProdCh h) exchange routingKey message with
  | (p, Some err) =>
      (p, Some (String.append "failed to publish a message to rabbit, err: " err))
  | (p, None) => (p, None)
  end.

(** ** elastic.go: the configuration of the audit sink *)

Record ElasticConfig := {
  es_Index : string;
  es_Hosts : list string;
  es_UserName : string;
  es_Password : string;
  es_MaxRetries : Z;
  es_SleepTime : Duration;
  es_FlushInterval : Duration;
  es_Who : string
}.

(** The record handed to [Elastic.Log] by the add-url handler; [When], [Who]
    and [Duration] are filled in by [Log] itself. *)
Record LogTask := {
  lt_StartTime : Z;
  lt_Action : string;
  lt_Referrer : string;
  lt_Success : bool;
  lt_URL : string;
  lt_Domain : string;
  lt_Source : string;
  lt_Store : bool
}.

(** ** server.go: tasks, authentication and the add-url handler *)

Record AddUrlTask := {
  task_Source : string;
  task_Store : bool;
  task_URL : string
}.

(** [strings] and [encoding/json] as the front door uses them. *)
Class GoText := {
  strings_ToLower : string -> string;
  strings_TrimSpace : string -> string;
  json_Marshal : AddUrlTask -> string + error
}.

Definition authHeader : string := "Authorization".

Definition ok_statuses : list Z := [200; 201; 204; 301; 302; 304].

Fixpoint status_among (statuses : list Z) (status : Z) : bool :=
  match statuses with
  | [] => false
  | val :: rest => if val =? status then true else status_among rest status
  end.

Definition isOkStatus (status : Z) : bool := status_among ok_statuses status.

(** A response body: a string, or a [gin.H] with one member. *)
Inductive Message :=
| MsgText (s : string)
| MsgObject (key val : string).

(** What [writeResponse] does with the connection: [c.JSON] sends the
    message as it is, [c.AbortWithStatusJSON] sends it under the key error
    and aborts the chain; the counter of the status is incremented. *)
Record Written := {
  w_status : Z;
  w_aborted : bool;
  w_message : Message;
  w_counted : Z
}.

Definition writeResponse (status : Z) (message : Message) : Written :=
  if isOkStatus status then
    {| w_status := status; w_aborted := false; w_message := message; w_counted := status |}
  else
    {| w_status := status; w_aborted := true; w_message := message; w_counted := status |}.

Definition bool_text (b : bool) : string := if b then "true" else "false".

Definition AddUrlTask_String (t : AddUrlTask) : string :=
  String.append "src: "
    (String.append (task_Source t)
       (String.append ", store: "
          (String.append (bool_text (task_Store t))
             (String.append ", url: " (task_URL t))))).

(** How a request to the add-url handler ends: with a response, possibly
    after a publication and with an audit record handed to the logger, or
    with the process stopped by [log.Fatal]. *)
Inductive Handled :=
| Served (r : Written) (published : option Publishing) (audit : option LogTask)
    (logged : list string)
| Crashed (r : option Written) (handed : option Publishing) (fatal : string).

Definition time_Now : M Z := fun w => Some (clock w, w).

Section Boundary.

Context {L : GoLib} {T : GoText}.

(** [ElasticConfig.IsValid]; the log lines of the checks are left out. *)
Definition ElasticConfig_IsValid (cfg : ElasticConfig) : bool :=
  let valid := true in
  let valid := if String.eqb (es_Index cfg) "" then false else valid in
  let valid := if (length (es_Hosts cfg) =? 0)%nat then false else valid in
  let valid :=
    fold_left (fun valid host => if negb (IsValidUrl host) then false else valid)
      (es_Hosts cfg) valid in
  let valid := if es_MaxRetries cfg <=? 1 then false else valid in
  let valid := if es_SleepTime cfg <? time.Millisecond then false else valid in
  let valid := if es_FlushInterval cfg <? time.Millisecond then false else valid in
  let valid := if String.eqb (es_Who cfg) "" then false else valid in
  valid.

(** [AddUrlTask.Validate]: the verdict and the error built from [errs],
    which is never nil. *)
Definition AddUrlTask_Validate (t : AddUrlTask) : bool * error :=
  let errs : list string := [] in
  let valid := true in
  let '(valid, errs) :=
    if String.eqb (task_Source t) "" then (false, errs ++ ["source is empty"])
    else (valid, errs) in
  let '(valid, errs) :=
    if String.eqb (task_URL t) "" then (false, errs ++ ["url is empty"])
    else
      match url_Parse (task_URL t) with
      | inr err =>
          (false, errs ++ [String.append "invalid url (can't parse): " err])
      | inl parsed =>
          let scheme := URL_Scheme parsed in
          if negb (String.eqb scheme "http") && negb (String.eqb scheme "https") then
            (false, errs ++ [String.append "invalid scheme in url: " scheme])
          else (valid, errs)
      end in
  (valid, errors_New (strings_Join errs ", ")).

(** The loop of [parseRequestReferrer] over the entries of [AuthTokens]. *)
Fixpoint referrer_among (entries : list (string * string)) (requestAuthHeader : string)
  : string :=
  match entries with
  | [] => ""
  | (k, v) :: rest =>
      if String.eqb v requestAuthHeader then k
      else referrer_among rest requestAuthHeader
  end.

(** [c.GetHeader(authHeader)] is the argument [requestAuthHeader]. *)
Definition parseRequestReferrer (s : Server) (requestAuthHeader : string) : string :=
  referrer_among (map_to_list (srv_AuthTokens s)) requestAuthHeader.

(** The loop of [isValidAuthToken] over the entries of [AuthTokens]. *)
Fixpoint token_among (entries : list (string * string)) (token : string) : bool :=
  match entries with
  | [] => false
  | (_, val) :: rest =>
      if String.eqb (strings_ToLower (strings_TrimSpace val)) token then true
      else token_among rest token
  end.

Definition isValidAuthToken (s : Server) (token : string) : bool :=
  let token := strings_ToLower (strings_TrimSpace token) in
  token_among (map_to_list (srv_AuthTokens s)) token.

Definition validateRequestAuthentication (s : Server) (requestAuthHeader : string)
  : bool * string :=
  if String.eqb requestAuthHeader "" then
    (false, String.append "auth token '"
              (String.append authHeader "' is missing or empty"))
  else if negb (isValidAuthToken s requestAuthHeader) then
    (false, String.append "auth token '" (String.append authHeader "' is invalid"))
  else (true, "").

(** [middlewareHandler]: [None] is [c.Next()]. *)
Definition middlewareHandler (s : Server) (requestAuthHeader : string) : option Written :=
  match validateRequestAuthentication s requestAuthHeader with
  | (false, reason) => Some (writeResponse 401 (MsgText reason))
  | (true, _) => None
  end.

Definition getDomain (s : Server) (url : string) : string :=
  match ParseDomain (srv_Validator s) url with
  | (_, _, Some _) => ""
  | (_, domain, None) => domain
  end.

(** [addUrl].  [bound] is what [c.BindJSON] made of the request body,
    [requestAuthHeader] the Authorization header; the handler of the sink is
    the field [RabbitHandler] of the server. *)
Definition addUrl (s : Server) (h : RabbitHandler) (b : Broker) (fuel : nat)
    (requestAuthHeader : string) (bound : AddUrlTask + error) : M Handled :=
  let errPrfx := "invalid add url task" in
  let action := "add url" in
  let received := String.append "received a new task: " action in
  match bound with
  | inr err =>
      let errMsg :=
        String.append errPrfx (String.append ": can't parse json: " err) in
      ret (Served (writeResponse 400 (MsgText errMsg)) None None [received])
  | inl task =>
      match AddUrlTask_Validate task with
      | (false, err) =>
          let errMsg := String.append errPrfx (String.append ": " err) in
          ret (Served (writeResponse 400 (MsgText errMsg)) None None [received])
      | (true, _) =>
          r <- UrlRequiresProcessing (srv_Validator s) fuel (task_URL task) ;;
          match r with
          | (_, Some err) =>
              let errMsg := String.append "failed to check url: " err in
              ret (Served (writeResponse 500 (MsgText errMsg)) None None [received])
          | (false, None) =>
              let msg :=
                String.append
                  "url does not need to be added into the phishing system: "
                  (task_URL task) in
              ret (Served (writeResponse 200 (MsgText msg)) None None [received])
          | (true, None) =>
              match json_Marshal task with
              | inr err =>
                  let errMsg :=
                    String.append
                      "failed to marshal an 'add url' task to json, err: " err in
                  ret (Crashed (Some (writeResponse 500 (MsgText errMsg))) None errMsg)
              | inl bytes =>
                  match RabbitHandler_Publish b h (task_Source task) "" bytes with
                  | (p, Some fatal) => ret (Crashed None (Some p) fatal)
                  | (p, None) =>
                      let pushed :=
                        String.append "pushed task ("
                          (String.append action
                             (String.append ") to dst rabbit: "
                                (AddUrlTask_String task))) in
                      now <- time_Now ;;
                      let log :=
                        {| lt_StartTime := now;
                           lt_Action := action;
                           lt_Referrer := parseRequestReferrer s requestAuthHeader;
                           lt_Success := true;
                           lt_URL := task_URL task;
                           lt_Domain := getDomain s (task_URL task);
                           lt_Source := task_Source task;
                           lt_Store := task_Store task |} in
                      ret (Served (writeResponse 200 (MsgObject "result" "ok"))
                             (Some p) (Some log) [received; pushed])
                  end
              end
          end
      end
  end.

(** A request to POST /v1/url/add as [NewServer] wires it: the middleware
    of the group first; gin goes on with the handler unless the middleware
    aborted the chain.  The result is what the middleware wrote, if anything,
    and how the handler ended, if it ran. *)
Definition serve_add (s : Server) (h : RabbitHandler) (b : Broker) (fuel : nat)
    (requestAuthHeader : string) (bound : AddUrlTask + error)
  : M (option Written * option Handled) :=
  match middlewareHandler s requestAuthHeader with
  | Some refused =>
      if w_aborted refused then ret (Some refused, None)
      else
        r <- addUrl s h b fuel requestAuthHeader bound ;;
        ret (Some refused, Some r)
  | None =>
      r <- addUrl s h b fuel requestAuthHeader bound ;;
      ret (None, Some r)
  end.

End Boundary.

(** The worlds a validator can be in: the one it was started in, and from
    there any number of calls of [UrlRequiresProcessing], with time passing
    in between. *)
Inductive reachable {L : GoLib} (v : Validator) (w0 : World) : World -> Prop :=
| reach_start : reachable v w0 w0
| reach_call (fuel : nat) (url : string) (w w' : World) (r : bool * option error) :
    reachable v w0 w ->
    UrlRequiresProcessing v fuel url w = Some (r, w') ->
    reachable v w0 w'
| reach_wait (d : Duration) (w : World) :
    reachable v w0 w -> reachable v w0 (elapse d w).

(** ** A small stand-in for the libraries

    Enough of [net], [net/url], [regexp], [fmt] and [encoding/json] to run
    the pipeline on concrete inputs: dotted-quad IPv4 literals and CIDR
    blocks, URLs of the shape scheme://host[:port][/path], patterns without
    metacharacters (for which Go's unanchored [MatchString] is a substring
    search), one [%s] or [%v] verb per format, and the two reply bodies
    [ok_body true] and [ok_body false].  The theorems below never depend on
    it: they hold for every instance of [GoLib]. *)

Module Fixture.

Fixpoint fields (sep : ascii) (s : string) : list string :=
  match s with
  | EmptyString => [EmptyString]
  | String c rest =>
      if Ascii.eqb c sep then EmptyString :: fields sep rest
      else match fields sep rest with
           | [] => [String c EmptyString]
           | f :: fs => String c f :: fs
           end
  end.

Definition digit (c : ascii) : option Z :=
  let n := Z.of_nat (Ascii.nat_of_ascii c) in
  if (48 <=? n) && (n <=? 57) then Some (n - 48) else None.

Fixpoint decimal (s : string) (acc : Z) : option Z :=
  match s with
  | EmptyString => Some acc
  | String c rest =>
      match digit c with
      | Some d => decimal rest (10 * acc + d)
      | None => None
      end
  end.

Definition number (bound : Z) (s : string) : option Z :=
  if String.eqb s "" then None
  else match decimal s 0 with
       | Some n => if n <=? bound then Some n else None
       | None => None
       end.

(** An IPv4 address as its four bytes. *)
Definition ParseIP (s : string) : option (list Z) :=
  match map (number 255) (fields "." s) with
  | [Some a; Some b; Some c; Some d] => Some [a; b; c; d]
  | _ => None
  end.

Definition byte_at (ip : list Z) (i : nat) : Z := nth i ip 0.

Definition IsLoopback (ip : list Z) : bool := byte_at ip 0 =? 127.

Definition IsLinkLocalUnicast (ip : list Z) : bool :=
  (byte_at ip 0 =? 169) && (byte_at ip 1 =? 254).

Definition IsLinkLocalMulticast (ip : list Z) : bool :=
  (byte_at ip 0 =? 224) && (byte_at ip 1 =? 0) && (byte_at ip 2 =? 0).

Definition to_uint32 (ip : list Z) : Z :=
  ((byte_at ip 0 * 256 + byte_at ip 1) * 256 + byte_at ip 2) * 256 + byte_at ip 3.

(** A network: its address and the length of its prefix. *)
Definition ParseCIDR (s : string) : option (list Z * Z) :=
  match fields "/" s with
  | [addr; bits] =>
      match ParseIP addr, number 32 bits with
      | Some ip, Some n => Some (ip, n)
      | _, _ => None
      end
  | _ => None
  end.

Definition Contains (n : list Z * Z) (ip : list Z) : bool :=
  Z.shiftr (to_uint32 (fst n)) (32 - snd n) =? Z.shiftr (to_uint32 ip) (32 - snd n).

Definition has_substring (pat s : string) : bool :=
  match String.index 0 pat s with
  | Some _ => true
  | None => false
  end.

Definition drop_from (sep : ascii) (s : string) : string :=
  match fields sep s with
  | f :: _ => f
  | [] => s
  end.

Definition Parse (s : string) : (string * string) + error :=
  if has_substring " " s then inr "invalid character in host name"
  else match String.index 0 "://" s with
       | None => inl ("", "")
       | Some i =>
           let rest := String.substring (i + 3) (String.length s - (i + 3)) s in
           inl (String.substring 0 i s, drop_from ":" (drop_from "/" rest))
       end.

Definition Sprintf1 (format operand : string) : string :=
  let verb :=
    match String.index 0 "%s" format with
    | Some i => Some i
    | None => String.index 0 "%v" format
    end in
  match verb with
  | None => format
  | Some i =>
      String.append (String.substring 0 i format)
        (String.append operand
           (String.substring (i + 2) (String.length format - (i + 2)) format))
  end.

Definition quoted (s : string) : string :=
  String (Ascii.ascii_of_nat 34) (String.append s (String (Ascii.ascii_of_nat 34) "")).

(** The JSON object with the one member result. *)
Definition ok_body (result : bool) : string :=
  String.append "{"
    (String.append (quoted "result") (if result then ":true}" else ":false}")).

Definition Unmarshal_result (body : string) : option bool :=
  if String.eqb body (ok_body true) then Some true
  else if String.eqb body (ok_body false) then Some false
  else None.

Definition lib : GoLib := {|
  IP := list Z;
  net_ParseIP := ParseIP;
  IP_IsLoopback := IsLoopback;
  IP_IsLinkLocalUnicast := IsLinkLocalUnicast;
  IP_IsLinkLocalMulticast := IsLinkLocalMulticast;
  IPNet := list Z * Z;
  net_ParseCIDR := ParseCIDR;
  IPNet_Contains := Contains;
  Regexp := string;
  regexp_Compile := fun exp => Some exp;
  Regexp_MatchString := has_substring;
  URL := string * string;
  url_Parse := Parse;
  URL_Scheme := fst;
  URL_Hostname := snd;
  fmt_Sprintf1 := Sprintf1;
  json_Unmarshal_Domain := fun body =>
    match Unmarshal_result body with
    | Some r => Some {| dom_Status := "ok"; dom_Domain := ""; dom_Result := r |}
    | None => None
    end;
  json_Unmarshal_Ip := fun body =>
    match Unmarshal_result body with
    | Some r => Some {| ip_Status := "ok"; ip_IP := ""; ip_Result := r |}
    | None => None
    end
|}.

(** A reputation service that is down, and one that answers every request
    with [result]; a resolver that knows no name, and one that resolves
    every name to 93.184.216.34. *)
Definition service_down : nat -> string -> Response + error :=
  fun _ _ => inr "connection refused".

Definition service_says (result : bool) : nat -> string -> Response + error :=
  fun _ _ => inl {| StatusCode := 200; Body := inl (ok_body result) |}.

Definition no_such_host : nat -> string -> list string + error :=
  fun _ _ => inr "no such host".

Definition resolves : nat -> string -> list string + error :=
  fun _ _ => inl ["93.184.216.34"].

Definition world (http : nat -> string -> Response + error)
    (dns : nat -> string -> list string + error) : World :=
  {| net := {| http_reply := http; dns_reply := dns; latency := fun _ => 1000 |};
     net_calls := 0;
     clock := 1700000000000000000;
     wl_memcache := cache.New time.Hour time.Minute;
     v_DomainCache := cache.New (30 * time.Minute) (3 * time.Minute);
     trace := [] |}.

Definition api (tries : Z) (sleep : Duration) : WhitelisterApi :=
  {| CheckIpApiUrl := "http://wl.local/ip/%v";
     CheckDomainApiUrl := "http://wl.local/domain/%v";
     MaxTries := tries;
     SleepTime := sleep |}.

Definition config : ValidatorConfig :=
  {| UrlBlackListRegexps := ["evil"];
     LocalIPNetsCfg := ["10.0.0.0/8"];
     WhitelisterApiCfg := api 3 time.Second |}.

Definition whitelister (tries : Z) (sleep : Duration) : Whitelister :=
  fst (NewWhitelister (api tries sleep)).

Definition validator : Validator (L := lib) :=
  {| v_UrlBlacklister := {| Regexps := ["evil"] : list (@Regexp lib) |};
     v_IpChecker := {| LocalIPNets := [([10; 0; 0; 0], 8)] : list (@IPNet lib) |};
     v_Whitelister := whitelister 3 time.Second |}.

End Fixture.

(** ** A stand-in for the front door's libraries and for the broker

    ASCII letters for [strings.ToLower], blanks, tabs and line ends for
    [strings.TrimSpace], a fixed rendering for [json.Marshal], and a broker
    that accepts everything. *)

Module Desk.

Definition lower (c : ascii) : ascii :=
  let n := Ascii.nat_of_ascii c in
  if ((65 <=? n) && (n <=? 90))%nat then Ascii.ascii_of_nat (n + 32) else c.

Fixpoint ToLower (s : string) : string :=
  match s with
  | EmptyString => EmptyString
  | String c rest => String (lower c) (ToLower rest)
  end.

Definition is_space (c : ascii) : bool :=
  let n := Ascii.nat_of_ascii c in
  ((n =? 32) || (n =? 9) || (n =? 10) || (n =? 13))%nat.

Fixpoint trim_left (s : string) : string :=
  match s with
  | EmptyString => EmptyString
  | String c rest => if is_space c then trim_left rest else s
  end.

Fixpoint reverse (s acc : string) : string :=
  match s with
  | EmptyString => acc
  | String c rest => reverse rest (String c acc)
  end.

Definition TrimSpace (s : string) : string :=
  reverse (trim_left (reverse (trim_left s) "")) "".

Definition Marshal (t : AddUrlTask) : string + error :=
  inl (String.append "{source:"
         (String.append (task_Source t)
            (String.append ",url:" (String.append (task_URL t) "}")))).

Definition text : GoText := {|
  strings_ToLower := ToLower;
  strings_TrimSpace := TrimSpace;
  json_Marshal := Marshal
|}.

Definition broker : Broker := {|
  amqp_Dial := fun _ => None;
  amqp_Channel := fun _ => None;
  amqp_Publish := fun _ => None
|}.

Definition rabbit_config : RabbitConfig := {|
  Dsn := "amqp://guest@mq/";
  Exchange := "phish";
  Exchanges := {[ "mail" := "phish-mail" ]}
|}.

Definition handler : RabbitHandler := {|
  ProdCh := {| rc_dsn := "amqp://guest@mq/" |};
  MainExchange := "phish";
  ExtraExchanges := {[ "mail" := "phish-mail" ]}
|}.

Definition server : Server (L := Fixture.lib) := {|
  Srv_Addr := ":8080";
  srv_AuthTokens := {[ "ops" := "Secret" ]};
  srv_Validator := Fixture.validator
|}.


(** A reputation service that drops the first request and answers every
    later one with [result]. *)
Definition flaky (result : bool) : nat -> string -> Response + error :=
  fun n _ =>
    if (n =? 0)%nat then inr "connection refused"
    else inl {| StatusCode := 200; Body := inl (Fixture.ok_body result) |}.

Definition elastic_config : ElasticConfig := {|
  es_Index := "phish";
  es_Hosts := ["http://es.local:9200"];
  es_UserName := "";
  es_Password := "";
  es_MaxRetries := 3;
  es_SleepTime := time.Second;
  es_FlushInterval := time.Second;
  es_Who := "api"
|}.

(** A front door without auth tokens. *)
Definition open_config : HttpConfig := {| Listen := "8080"; AuthTokens := ∅ |}.

Definition open_server : Server (L := Fixture.lib) := {|
  Srv_Addr := ":8080";
  srv_AuthTokens := ∅;
  srv_Validator := Fixture.validator
|}.

Definition task (source url : string) : AddUrlTask :=
  {| task_Source := source; task_Store := true; task_URL := url |}.

End Desk.

(** ** Vocabulary of the properties *)

(** One try of the reputation loop is lost on a network error, an unreadable
    body, a status other than 200, or a body that does not decode. *)
Definition try_fails (decode : string -> option bool) (r : Response + error) : bool :=
  match r with
  | inr _ => true
  | inl resp =>
      match Body resp with
      | inr _ => true
      | inl body =>
          if negb (StatusCode resp =? 200) then true
          else match decode body with
               | None => true
               | Some _ => false
               end
      end
  end.

(** The next [n] requests for [url] are all lost. *)
Definition all_tries_fail (decode : string -> option bool) (url : string)
    (n : nat) (w : World) : Prop :=
  ∀ i : nat, (i < n)%nat →
    try_fails decode (http_reply (net w) (net_calls w + i) url) = true.

(** Requests and sleeps, in the order in which they happen. *)
Definition is_retry_event (e : Event) : bool :=
  match e with
  | EvHttpGet _ | EvSleep _ => true
  | _ => false
  end.

Definition retry_events (evs : list Event) : list Event := List.filter is_retry_event evs.

Definition is_request (e : Event) : bool :=
  match e with
  | EvHttpGet _ => true
  | _ => false
  end.

Definition requests (evs : list Event) : nat := length (List.filter is_request evs).

Fixpoint sleeps (evs : list Event) : list Duration :=
  match evs with
  | [] => []
  | EvSleep d :: rest => d :: sleeps rest
  | _ :: rest => sleeps rest
  end.

Fixpoint increasing (l : list Z) : Prop :=
  match l with
  | a :: (b :: _) as rest => a < b ∧ increasing rest
  | _ => True
  end.

(** The sleep the code really takes before try [try]: none before the first
    try, none when the 64-bit product is not positive. *)
Definition pause (checker : Whitelister) (try : Z) : list Event :=
  if 1 <? try then
    if 0 <? Int64.mul (sleepTime checker) try
    then [EvSleep (Int64.mul (sleepTime checker) try)]
    else []
  else [].

(** Linear backoff as the specification words it: tries [try], [try + 1], ...
    ([n] of them), each try after the first preceded by a sleep of
    [base_sleep * try], the product taken in the integers. *)
Fixpoint backoff_schedule (url : string) (base_sleep : Duration) (try : Z) (n : nat)
  : list Event :=
  match n with
  | O => []
  | S n' =>
      (if 1 <? try then [EvSleep (base_sleep * try)] else [])
      ++ EvHttpGet url :: backoff_schedule url base_sleep (try + 1) n'
  end.

(** What the code does on the way to giving up: tries [try], [try + 1], ...
    ([n] of them), each preceded by its [pause]. *)
Fixpoint retry_schedule (checker : Whitelister) (url : string) (try : Z) (n : nat)
  : list Event :=
  match n with
  | O => []
  | S n' => pause checker try ++ EvHttpGet url :: retry_schedule checker url (try + 1) n'
  end.

(** A lookup [run] against the endpoint [url] gives up: it makes exactly
    [max_tries] requests, pausing as the code does, and answers
    [(false, nil)]. *)
Definition gives_up (checker : Whitelister) (url : string)
    (run : M (bool * option error)) (w : World) : Prop :=
  ∃ (w' : World) (new : list Event),
    run w = Some ((false, None), w')
    ∧ trace w' = trace w ++ new
    ∧ retry_events new = retry_schedule checker url 1 (Z.to_nat (maxTries checker))
    ∧ Z.of_nat (requests new) = maxTries checker.

(** The retry bound, read off the specification: a lookup [run] against the
    endpoint [url] makes exactly [max_tries] requests, sleeps
    [base_sleep * n] before request [n > 1], a strictly increasing sequence,
    and answers [(false, nil)]. *)
Definition exhausts_retries (checker : Whitelister) (url : string)
    (run : M (bool * option error)) (w : World) : Prop :=
  ∃ (w' : World) (new : list Event),
    run w = Some ((false, None), w')
    ∧ trace w' = trace w ++ new
    ∧ retry_events new
      = backoff_schedule url (sleepTime checker) 1 (Z.to_nat (maxTries checker))
    ∧ Z.of_nat (requests new) = maxTries checker
    ∧ increasing (sleeps new).

(** No DNS lookup. *)
Definition no_lookup (e : Event) : Prop :=
  match e with
  | EvLookupHost _ => False
  | _ => True
  end.

(** The file whose code writes a log line. *)
Inductive SourceFile := whitelister_go | ipchecker_go | validate_go.

Definition written_by (l : LogLine) : SourceFile :=
  match l with
  | Log_wl_sleep _ _ _ | Log_wl_try_failed _ _ _ | Log_wl_no_result _ _ _ =>
      whitelister_go
  | Log_lookup_error _ _ | Log_lookup_empty _ | Log_lookup_ok _ _ => ipchecker_go
  | _ => validate_go
  end.

(** What a reputation lookup for [key] may do: requests, sleeps, log lines,
    and reads and writes of its own cache under [key]; never a DNS lookup. *)
Definition reputation_event (key : string) (e : Event) : Prop :=
  match e with
  | EvLookupHost _ => False
  | EvCacheGet c k | EvCacheSet c k _ => c = WhitelisterMemcache ∧ k = key
  | EvLog l => written_by l = whitelister_go
  | _ => True
  end.

(** The resolver's next answer for [domain] holds at least one address. *)
Definition has_a_record (domain : string) (w : World) : bool :=
  match dns_reply (net w) (net_calls w) domain with
  | inl (_ :: _) => true
  | _ => false
  end.

(** Any event but the line logged by the branch [netIP == nil] of
    DomainRequiresProcessing. *)
Definition not_the_nil_branch (e : Event) : Prop :=
  ∀ d, e ≠ EvLog (Log_ip_literal_not_parsed d).

(** Every run of [m] only appends events that satisfy [P]. *)
Definition appends {A} (P : Event → Prop) (m : M A) : Prop :=
  ∀ w a w', m w = Some (a, w') →
    ∃ new, trace w' = trace w ++ new ∧ Forall P new.

(** The world after [setDomainCache domain b]. *)
Definition decided (domain : string) (b : bool) (w : World) : World :=
  with_cache ValidatorDomainCache
    (cache.SetDefault (v_DomainCache w) (clock w) domain b)
    (emit (EvCacheSet ValidatorDomainCache domain b) w).

(** [w2] is a later world in which the decision cache still holds for [key]
    what it held in [w1]: time may have passed and other requests may have
    been served in between. *)
Definition keeps_decision (key : string) (w1 w2 : World) : Prop :=
  items (v_DomainCache w2) !! key = items (v_DomainCache w1) !! key.

(** ** Vocabulary of the further properties *)

(** Every run of [m] relates the world before to the world after by [R]. *)
Definition frame {A} (R : World → World → Prop) (m : M A) : Prop :=
  ∀ w a w', m w = Some (a, w') → R w w'.

(** From [w] to [w'] the oracles and the expiry settings of both caches stay
    as they are, the clock and the count of network interactions do not go
    back, and no cache entry changes except, possibly, under [key]. *)
Definition touches_only (key : string) (w w' : World) : Prop :=
  net w' = net w
  ∧ clock w <= clock w'
  ∧ (net_calls w ≤ net_calls w')%nat
  ∧ defaultExpiration (wl_memcache w') = defaultExpiration (wl_memcache w)
  ∧ defaultExpiration (v_DomainCache w') = defaultExpiration (v_DomainCache w)
  ∧ (∀ k, k ≠ key → items (wl_memcache w') !! k = items (wl_memcache w) !! k)
  ∧ (∀ k, k ≠ key → items (v_DomainCache w') !! k = items (v_DomainCache w) !! k).

(** As [touches_only], and the decision cache is the same object. *)
Definition touches_reputation_only (key : string) (w w' : World) : Prop :=
  touches_only key w w' ∧ v_DomainCache w' = v_DomainCache w.

(** The reply is a success: readable body, status 200, a body that decodes
    to [b]. *)
Definition try_succeeds (decode : string -> option bool) (r : Response + error)
    (b : bool) : Prop :=
  ∃ resp body,
    r = inl resp ∧ Body resp = inl body ∧ StatusCode resp = 200
    ∧ decode body = Some b.

(** No network interaction and no cache access. *)
Definition only_logs (e : Event) : Prop :=
  match e with
  | EvLog _ => True
  | _ => False
  end.

(** No request to the reputation service and no DNS lookup. *)
Definition off_the_network (e : Event) : Prop :=
  match e with
  | EvHttpGet _ | EvLookupHost _ => False
  | _ => True
  end.

(** [entries] lists the bindings of [m], in some order. *)
Definition lists_bindings (entries : list (string * string)) (m : gmap string string)
  : Prop :=
  ∀ k v, In (k, v) entries ↔ m !! k = Some v.

(** Every run of [m] from a world that satisfies [I] ends in one that does. *)
Definition preserves {A} (I : World → Prop) (m : M A) : Prop :=
  ∀ w a w', I w → m w = Some (a, w') → I w'.

(** Every entry of the cache expires, and does so no later than the default
    expiry of the cache after [now]. *)
Definition expires_within (c : Cache) (now : Z) : Prop :=
  ∀ k it, items c !! k = Some it →
    0 < Expiration it <= now + defaultExpiration c.

(** The caches as [NewValidator] sets them up and as the pipeline keeps
    them: decisions live at most 30 minutes, reputations at most one hour.
    The clock reads a time after the epoch. *)
Definition caches_in_order (w : World) : Prop :=
  0 <= clock w
  ∧ defaultExpiration (v_DomainCache w) = 30 * time.Minute
  ∧ defaultExpiration (wl_memcache w) = time.Hour
  ∧ expires_within (v_DomainCache w) (clock w)
  ∧ expires_within (wl_memcache w) (clock w).

(** [caches_in_order] carried from the world before to the world after. *)
Definition keeps_caches_in_order (w w' : World) : Prop :=
  caches_in_order w → caches_in_order w'.

(** [R] is a preorder on worlds that every step of a reputation lookup for
    [key] respects. *)
Definition lookup_steps_respect (R : World → World → Prop) (key : string) : Prop :=
  (∀ w, R w w)
  ∧ (∀ w1 w2 w3, R w1 w2 → R w2 w3 → R w1 w3)
  ∧ (∀ l, frame R (log_Print l))
  ∧ (∀ d, frame R (time_Sleep d))
  ∧ (∀ url, frame R (http_Get url))
  ∧ (∀ domain, frame R (net_LookupHost domain))
  ∧ (∀ c k, frame R (cache_Get c k))
  ∧ (∀ x, frame R (cache_Set WhitelisterMemcache key x cache.DefaultExpiration)).

(** What the add-url handler handed to the broker, accepted or not. *)
Definition handed_to_broker (out : Handled) : option Publishing :=
  match out with
  | Served _ published _ _ => published
  | Crashed _ handed _ => handed
  end.

(** The response the add-url handler wrote, if it wrote one. *)
Definition response_of (out : Handled) : option Written :=
  match out with
  | Served r _ _ _ => Some r
  | Crashed r _ _ => r
  end.

(** * Properties *)

(** ** Arithmetic of [int64] *)

Lemma wrap_in_range (z : Z) : Int64.in_range z → Int64.wrap z = z.
Proof.
  unfold Int64.in_range, Int64.wrap, Int64.MinInt64, Int64.MaxInt64.
  intros Hz.
  rewrite Z.mod_small; lia.
Qed.

Lemma succ_in_range (z : Z) :
  Int64.MinInt64 <= z → z < Int64.MaxInt64 → Int64.succ z = z + 1.
Proof.
  intros Hlo Hhi. unfold Int64.succ. apply wrap_in_range.
  unfold Int64.in_range. lia.
Qed.

Lemma mul_in_range (a b : Z) : Int64.in_range (a * b) → Int64.mul a b = a * b.
Proof. apply wrap_in_range. Qed.

(** ** The monad *)

Lemma bind_Some {A B} (m : M A) (k : A → M B) w b w2 :
  bind m k w = Some (b, w2) ↔ ∃ a w1, m w = Some (a, w1) ∧ k a w1 = Some (b, w2).
Proof.
  unfold bind. split.
  - destruct (m w) as [[a w1]|] eqn:E; [eauto | discriminate].
  - intros (a & w1 & -> & Hk). exact Hk.
Qed.

Lemma bind_run {A B} (m : M A) (k : A → M B) w a w1 :
  m w = Some (a, w1) → bind m k w = k a w1.
Proof. unfold bind. now intros ->. Qed.

(** ** Events appended by a computation *)

Lemma appends_ret {A} (P : Event → Prop) (a : A) : appends P (ret a).
Proof.
  intros w a' w' [= <- <-]. exists []. split; [now rewrite app_nil_r | constructor].
Qed.

Lemma appends_bind {A B} (P : Event → Prop) (m : M A) (k : A → M B) :
  appends P m → (∀ a, appends P (k a)) → appends P (bind m k).
Proof.
  intros Hm Hk w b w2 (a & w1 & Ha & Hb)%bind_Some.
  destruct (Hm _ _ _ Ha) as (n1 & E1 & F1).
  destruct (Hk a _ _ _ Hb) as (n2 & E2 & F2).
  exists (n1 ++ n2). split.
  - now rewrite E2, E1, app_assoc.
  - now apply Forall_app.
Qed.

Lemma appends_emit {A} (P : Event → Prop) (e : Event) (f : World → A) (g : World → World) :
  P e → (∀ w, trace (g w) = trace w) →
  appends P (fun w => Some (f w, g (emit e w))).
Proof.
  intros He Hg w a w' [= <- <-]. exists [e]. split.
  - now rewrite Hg.
  - now repeat constructor.
Qed.

Lemma appends_log (P : Event → Prop) (l : LogLine) :
  P (EvLog l) → appends P (log_Print l).
Proof. intros H. now apply (appends_emit P (EvLog l) (fun _ => tt) (fun w => w)). Qed.

Lemma appends_sleep (P : Event → Prop) (d : Duration) :
  P (EvSleep d) → appends P (time_Sleep d).
Proof. intros H. now apply (appends_emit P (EvSleep d) (fun _ => tt) (elapse d)). Qed.

Lemma appends_http_Get (P : Event → Prop) (url : string) :
  P (EvHttpGet url) → appends P (http_Get url).
Proof.
  intros H w a w' [= <- <-]. exists [EvHttpGet url]. split; [reflexivity | now repeat constructor].
Qed.

Lemma appends_LookupHost (P : Event → Prop) (domain : string) :
  P (EvLookupHost domain) → appends P (net_LookupHost domain).
Proof.
  intros H w a w' [= <- <-]. exists [EvLookupHost domain].
  split; [reflexivity | now repeat constructor].
Qed.

Lemma appends_cache_Get (P : Event → Prop) (c : CacheRef) (k : string) :
  P (EvCacheGet c k) → appends P (cache_Get c k).
Proof.
  intros H w a w' [= <- <-]. exists [EvCacheGet c k].
  split; [reflexivity | now repeat constructor].
Qed.

Lemma appends_cache_Set (P : Event → Prop) (c : CacheRef) (k : string) (x : bool) (d : Duration) :
  P (EvCacheSet c k x) → appends P (cache_Set c k x d).
Proof.
  intros H w a w' [= <- <-]. exists [EvCacheSet c k x].
  split; [now destruct c | now repeat constructor].
Qed.

Lemma appends_out_of_fuel {A} (P : Event → Prop) : appends P (@out_of_fuel A).
Proof. intros w a w' [=]. Qed.

Section Properties.

Context {L : GoLib}.

(** ** The resolver and the blacklist *)

Lemma contains_ip_true (nets : list IPNet) (ip : IP) :
  contains_ip nets ip = true ↔ ∃ n, In n nets ∧ IPNet_Contains n ip = true.
Proof.
  induction nets as [|n rest IH]; simpl.
  - split; [discriminate | intros (n & [] & _)].
  - destruct (IPNet_Contains n ip) eqn:E.
    + split; [eauto | reflexivity].
    + rewrite IH. split.
      * intros (m & Hin & Hm). eauto.
      * intros (m & [-> | Hin] & Hm); [congruence | eauto].
Qed.

Lemma IsLocalIP_true (checker : IpChecker) (ip : IP) :
  IsLocalIP checker ip = true ↔
    IP_IsLoopback ip = true ∨ IP_IsLinkLocalUnicast ip = true
    ∨ IP_IsLinkLocalMulticast ip = true
    ∨ ∃ n, In n (LocalIPNets checker) ∧ IPNet_Contains n ip = true.
Proof.
  unfold IsLocalIP. rewrite <- contains_ip_true.
  destruct (IP_IsLoopback ip), (IP_IsLinkLocalUnicast ip),
    (IP_IsLinkLocalMulticast ip); simpl; intuition congruence.
Qed.

Lemma match_any_true (res : list Regexp) (url : string) :
  match_any res url = true ↔ ∃ re, In re res ∧ Regexp_MatchString re url = true.
Proof.
  induction res as [|re rest IH]; simpl.
  - split; [discriminate | intros (re & [] & _)].
  - destruct (Regexp_MatchString re url) eqn:E.
    + split; [eauto | reflexivity].
    + rewrite IH. split.
      * intros (m & Hin & Hm). eauto.
      * intros (m & [-> | Hin] & Hm); [congruence | eauto].
Qed.

Lemma DomainIsIP_true (checker : IpChecker) (domain : string) :
  DomainIsIP checker domain = true ↔ ∃ ip, net_ParseIP domain = Some ip.
Proof.
  unfold DomainIsIP, GetNetIP. destruct (net_ParseIP domain); split; eauto.
  - discriminate.
  - intros [ip [=]].
Qed.

(** ** The retry loop of the reputation client *)

Section Loop.

Variables (checker : Whitelister) (fnc : string) (decode : string → option bool).
Variables (url key : string).

Lemma one_try_returns (try : Z) (w : World) :
  ∃ r w', one_try checker fnc decode url key try w = Some (r, w').
Proof.
  unfold one_try, bind, http_Get, log_Print, time_Sleep, cache_Set, ret.
  destruct (1 <? try); [destruct (0 <? _)|];
    (destruct (http_reply _ _ _) as [resp|err]; [|eauto];
     destruct (Body resp) as [body|err]; [|eauto];
     destruct (negb _); [eauto|];
     destruct (decode body); eauto).
Qed.

Lemma one_try_appends (P : Event → Prop) (try : Z) :
  (∀ l, written_by l = whitelister_go → P (EvLog l)) →
  (∀ d, P (EvSleep d)) → P (EvHttpGet url) →
  (∀ x, P (EvCacheSet WhitelisterMemcache key x)) →
  appends P (one_try checker fnc decode url key try).
Proof.
  intros Hlog Hsleep Hget Hset. unfold one_try.
  apply appends_bind.
  - destruct (1 <? try); [destruct (0 <? _)|]; try apply appends_ret.
    apply appends_bind; [apply appends_log, Hlog; reflexivity | intros _; now apply appends_sleep].
  - intros _. apply appends_bind; [now apply appends_http_Get|].
    intros [resp|err].
    + destruct (Body resp) as [body|err'].
      * destruct (negb _).
        -- apply appends_bind; [apply appends_log, Hlog; reflexivity | intros; apply appends_ret].
        -- destruct (decode body).
           ++ apply appends_bind; [now apply appends_cache_Set | intros; apply appends_ret].
           ++ apply appends_bind; [apply appends_log, Hlog; reflexivity | intros; apply appends_ret].
      * apply appends_bind; [apply appends_log, Hlog; reflexivity | intros; apply appends_ret].
    + apply appends_bind; [apply appends_log, Hlog; reflexivity | intros; apply appends_ret].
Qed.

(** A lost try: the pause, one request, one log line; the caches stay as
    they are. *)
Lemma one_try_lost (try : Z) (w : World) :
  try_fails decode (http_reply (net w) (net_calls w) url) = true →
  ∃ f w' new,
    one_try checker fnc decode url key try w = Some (inr f, w')
    ∧ trace w' = trace w ++ new
    ∧ retry_events new = pause checker try ++ [EvHttpGet url]
    ∧ net w' = net w
    ∧ net_calls w' = S (net_calls w)
    ∧ wl_memcache w' = wl_memcache w
    ∧ v_DomainCache w' = v_DomainCache w.
Proof.
  unfold try_fails, one_try, pause, bind, http_Get, log_Print, time_Sleep, ret.
  intros Hfail.
  destruct (1 <? try); [destruct (0 <? _)|]; cbn [net net_calls emit elapse answered];
    (destruct (http_reply _ _ _) as [resp|err];
     [destruct (Body resp) as [body|err];
      [destruct (negb _); [|destruct (decode body); [discriminate|]]|]|]);
    eexists _, _, _; (split; [reflexivity|]); cbn;
    rewrite <- ?app_assoc; repeat split; reflexivity.
Qed.

Lemma tries_unfold (fuel : nat) (try : Z) (msg : option TryFailure) :
  tries checker fnc decode url key fuel try msg =
  if try <=? maxTries checker then
    match fuel with
    | O => out_of_fuel
    | S fuel =>
        r <- one_try checker fnc decode url key try ;;
        match r with
        | inl isWhite => ret (Some isWhite, msg)
        | inr f => tries checker fnc decode url key fuel (Int64.succ try) (Some f)
        end
    end
  else ret (None, msg).
Proof. destruct fuel; reflexivity. Qed.

Lemma tries_appends (P : Event → Prop) :
  (∀ l, written_by l = whitelister_go → P (EvLog l)) →
  (∀ d, P (EvSleep d)) → P (EvHttpGet url) →
  (∀ x, P (EvCacheSet WhitelisterMemcache key x)) →
  ∀ fuel try msg, appends P (tries checker fnc decode url key fuel try msg).
Proof.
  intros Hlog Hsleep Hget Hset.
  induction fuel as [|fuel IH]; intros try msg; rewrite tries_unfold;
    destruct (try <=? maxTries checker); try apply appends_ret.
  - apply appends_out_of_fuel.
  - apply appends_bind; [now apply one_try_appends|].
    intros [isWhite|f]; [apply appends_ret | apply IH].
Qed.

(** With a counter that cannot wrap, [maxTries + 1 - try] units of fuel see
    the loop through. *)
Lemma tries_returns (fuel : nat) :
  maxTries checker < Int64.MaxInt64 →
  ∀ try msg w,
    Int64.MinInt64 <= try →
    (Z.to_nat (maxTries checker + 1 - try) ≤ fuel)%nat →
    ∃ r w', tries checker fnc decode url key fuel try msg w = Some (r, w').
Proof.
  intros Hmax.
  induction fuel as [|fuel IH]; intros try msg w Hlo Hfuel; rewrite tries_unfold;
    destruct (Z.leb_spec try (maxTries checker)) as [Hle|Hgt];
    try (unfold ret; eauto; fail).
  - lia.
  - destruct (one_try_returns try w) as ([isWhite|f] & w1 & E);
      rewrite (bind_run _ _ _ _ _ E).
    + unfold ret; eauto.
    + rewrite succ_in_range by lia. apply IH; lia.
Qed.

(** The loop when every remaining try is lost. *)
Lemma tries_exhausted (n : nat) :
  maxTries checker < Int64.MaxInt64 →
  ∀ fuel try msg w,
    1 <= try →
    try + Z.of_nat n = maxTries checker + 1 →
    (n ≤ fuel)%nat →
    all_tries_fail decode url n w →
    ∃ msg' w' new,
      tries checker fnc decode url key fuel try msg w = Some ((None, msg'), w')
      ∧ trace w' = trace w ++ new
      ∧ retry_events new = retry_schedule checker url try n
      ∧ wl_memcache w' = wl_memcache w
      ∧ v_DomainCache w' = v_DomainCache w.
Proof.
  intros Hmax.
  induction n as [|n IH]; intros fuel try msg w Hlo Hn Hfuel Hfail; rewrite tries_unfold.
  - destruct (Z.leb_spec try (maxTries checker)); [lia|].
    exists msg, w, []. rewrite app_nil_r. repeat split; reflexivity.
  - destruct (Z.leb_spec try (maxTries checker)); [|lia].
    destruct fuel as [|fuel]; [lia|].
    destruct (one_try_lost try w) as (f & w1 & new1 & E & Htr & Hev & Hnet & Hcalls & Hm & Hd).
    { specialize (Hfail 0%nat). rewrite Nat.add_0_r in Hfail. apply Hfail. lia. }
    rewrite (bind_run _ _ _ _ _ E), succ_in_range by (unfold Int64.MinInt64; lia).
    destruct (IH fuel (try + 1) (Some f) w1) as (msg' & w' & new & E' & Htr' & Hev' & Hm' & Hd');
      [lia | lia | lia | |].
    { intros i Hi. rewrite Hnet, Hcalls.
      replace (S (net_calls w) + i)%nat with (net_calls w + S i)%nat by lia.
      apply Hfail. lia. }
    exists msg', w', (new1 ++ new). split; [exact E'|].
    split; [now rewrite Htr', Htr, app_assoc|].
    split; [|split; congruence].
    unfold retry_events in *. rewrite List.filter_app, Hev, Hev'. cbn [retry_schedule].
    now rewrite <- app_assoc.
Qed.

End Loop.

(** ** Backoff inside the range of [int64] *)

Lemma pause_exact (checker : Whitelister) (try : Z) :
  0 < sleepTime checker → 1 <= try →
  sleepTime checker * try <= Int64.MaxInt64 →
  pause checker try = if 1 <? try then [EvSleep (sleepTime checker * try)] else [].
Proof.
  intros Hs Ht Hfit. unfold pause.
  destruct (1 <? try); [|reflexivity].
  rewrite mul_in_range by (unfold Int64.in_range, Int64.MinInt64; nia).
  destruct (Z.ltb_spec 0 (sleepTime checker * try)); [reflexivity | nia].
Qed.

Lemma schedule_exact (checker : Whitelister) (url : string) (n : nat) :
  0 < sleepTime checker →
  sleepTime checker * maxTries checker <= Int64.MaxInt64 →
  ∀ try, 1 <= try → try + Z.of_nat n = maxTries checker + 1 →
    retry_schedule checker url try n = backoff_schedule url (sleepTime checker) try n.
Proof.
  intros Hs Hfit.
  induction n as [|n IH]; intros try Ht Hn; [reflexivity|].
  cbn [retry_schedule backoff_schedule].
  rewrite pause_exact by nia. now rewrite IH by lia.
Qed.

Lemma requests_retry_events (l : list Event) : requests (retry_events l) = requests l.
Proof.
  unfold requests, retry_events.
  induction l as [|e l IH]; [reflexivity|].
  destruct e; cbn; congruence.
Qed.

Lemma sleeps_retry_events (l : list Event) : sleeps (retry_events l) = sleeps l.
Proof.
  unfold retry_events.
  induction l as [|e l IH]; [reflexivity|].
  destruct e; cbn; congruence.
Qed.

Lemma requests_app (l1 l2 : list Event) : requests (l1 ++ l2) = (requests l1 + requests l2)%nat.
Proof. unfold requests. now rewrite List.filter_app, length_app. Qed.

Lemma requests_schedule (url : string) (s : Duration) (n : nat) :
  ∀ try, requests (backoff_schedule url s try n) = n.
Proof.
  induction n as [|n IH]; intros try; [reflexivity|].
  cbn [backoff_schedule]. rewrite requests_app.
  change (requests (EvHttpGet url :: ?l)) with (S (requests l)).
  rewrite IH. now destruct (1 <? try).
Qed.

Lemma requests_retry_schedule (checker : Whitelister) (url : string) (n : nat) :
  ∀ try, requests (retry_schedule checker url try n) = n.
Proof.
  induction n as [|n IH]; intros try; [reflexivity|].
  cbn [retry_schedule]. rewrite requests_app.
  change (requests (EvHttpGet url :: ?l)) with (S (requests l)).
  rewrite IH. unfold pause. destruct (1 <? try); [destruct (0 <? _)|]; reflexivity.
Qed.

Lemma sleeps_schedule (url : string) (s : Duration) (n : nat) :
  ∀ try, 1 < try →
    sleeps (backoff_schedule url s try n)
    = map (fun i => s * (try + Z.of_nat i)) (seq 0 n).
Proof.
  induction n as [|n IH]; intros try Ht; [reflexivity|].
  cbn [backoff_schedule seq map].
  destruct (Z.ltb_spec 1 try); [|lia].
  cbn [app sleeps]. rewrite IH by lia. rewrite Z.add_0_r. f_equal.
  rewrite <- seq_shift, map_map. apply map_ext. intros i. f_equal. lia.
Qed.

Lemma increasing_affine (s t : Z) (n : nat) :
  0 < s → ∀ k, increasing (map (fun i => s * (t + Z.of_nat i)) (seq k n)).
Proof.
  intros Hs. induction n as [|n IH]; intros k; [exact I|].
  specialize (IH (S k)). destruct n as [|n]; [exact I|].
  cbn [seq map increasing] in *. split; [nia | exact IH].
Qed.

Lemma increasing_schedule (url : string) (s : Duration) (n : nat) (try : Z) :
  0 < s → 1 <= try → increasing (sleeps (backoff_schedule url s try n)).
Proof.
  intros Hs Ht.
  destruct (Z.eq_dec try 1) as [->|Hne].
  - destruct n as [|n]; [exact I|].
    cbn [backoff_schedule]. change (1 <? 1) with false. cbn [app sleeps].
    rewrite sleeps_schedule by lia. now apply increasing_affine.
  - rewrite sleeps_schedule by lia. now apply increasing_affine.
Qed.

(** ** DomainIsWhite and IpIsWhite *)

Lemma after_tries_nil_error (fnc : string) (mt : Z)
    (r : option bool * option TryFailure) w res w' :
  match r with
  | (Some isWhite, _) => ret (isWhite, None)
  | (None, msg) => log_Print (Log_wl_no_result fnc mt msg) ;; ret (false, None)
  end w = Some (res, w') → snd res = (None : option error).
Proof.
  destruct r as [[isWhite|] msg]; unfold bind, log_Print, ret; now intros [= <- _].
Qed.

Lemma DomainIsWhite_nil_error (checker : Whitelister) fuel domain w r w' :
  DomainIsWhite checker fuel domain w = Some (r, w') → snd r = None.
Proof.
  unfold DomainIsWhite. destruct (net_ParseIP domain).
  - now intros [= <- _].
  - intros (cached & w1 & _ & H)%bind_Some. destruct cached.
    + now injection H as <- _.
    + apply bind_Some in H as (r1 & w2 & _ & H). eapply after_tries_nil_error, H.
Qed.

Lemma IpIsWhite_nil_error (checker : Whitelister) fuel ip w r w' :
  IpIsWhite checker fuel ip w = Some (r, w') → snd r = None.
Proof.
  unfold IpIsWhite.
  intros (cached & w1 & _ & H)%bind_Some. destruct cached.
  - now injection H as <- _.
  - apply bind_Some in H as (r1 & w2 & _ & H). eapply after_tries_nil_error, H.
Qed.

Lemma after_tries_returns (fnc : string) (mt : Z)
    (r : option bool * option TryFailure) w :
  ∃ res w',
    match r with
    | (Some isWhite, _) => ret (isWhite, None : option error)
    | (None, msg) => log_Print (Log_wl_no_result fnc mt msg) ;; ret (false, None)
    end w = Some (res, w').
Proof. destruct r as [[isWhite|] msg]; unfold bind, log_Print, ret; eauto. Qed.

Lemma DomainIsWhite_returns (checker : Whitelister) fuel domain w :
  maxTries checker < Int64.MaxInt64 →
  (Z.to_nat (maxTries checker) ≤ fuel)%nat →
  ∃ r w', DomainIsWhite checker fuel domain w = Some (r, w').
Proof.
  intros Hmax Hfuel. unfold DomainIsWhite. destruct (net_ParseIP domain).
  - unfold ret; eauto.
  - unfold bind at 1, cache_Get. destruct (cache.Get _ _ _).
    + unfold ret; eauto.
    + edestruct (tries_returns checker "wl check domain" decode_domain) as (r & w1 & E);
        [exact Hmax | | | rewrite (bind_run _ _ _ _ _ E); apply after_tries_returns].
      * unfold Int64.MinInt64; lia.
      * replace (maxTries checker + 1 - 1) with (maxTries checker) by lia. exact Hfuel.
Qed.

Lemma IpIsWhite_returns (checker : Whitelister) fuel ip w :
  maxTries checker < Int64.MaxInt64 →
  (Z.to_nat (maxTries checker) ≤ fuel)%nat →
  ∃ r w', IpIsWhite checker fuel ip w = Some (r, w').
Proof.
  intros Hmax Hfuel. unfold IpIsWhite.
  unfold bind at 1, cache_Get. destruct (cache.Get _ _ _).
  - unfold ret; eauto.
  - edestruct (tries_returns checker "wl check ip" decode_ip) as (r & w1 & E);
      [exact Hmax | | | rewrite (bind_run _ _ _ _ _ E); apply after_tries_returns].
    + unfold Int64.MinInt64; lia.
    + replace (maxTries checker + 1 - 1) with (maxTries checker) by lia. exact Hfuel.
Qed.

Lemma after_tries_appends (P : Event → Prop) (fnc : string) (mt : Z)
    (r : option bool * option TryFailure) :
  (∀ l, written_by l = whitelister_go → P (EvLog l)) →
  appends P
    match r with
    | (Some isWhite, _) => ret (isWhite, None : option error)
    | (None, msg) => log_Print (Log_wl_no_result fnc mt msg) ;; ret (false, None)
    end.
Proof.
  intros Hlog. destruct r as [[isWhite|] msg]; [apply appends_ret|].
  apply appends_bind; [apply appends_log, Hlog; reflexivity | intros; apply appends_ret].
Qed.

Lemma DomainIsWhite_appends (checker : Whitelister) fuel domain :
  appends (reputation_event domain) (DomainIsWhite checker fuel domain).
Proof.
  unfold DomainIsWhite. destruct (net_ParseIP domain); [apply appends_ret|].
  apply appends_bind; [now apply appends_cache_Get|].
  intros [isWhite|]; [apply appends_ret|].
  apply appends_bind.
  - apply tries_appends; now cbn.
  - intros r. now apply after_tries_appends.
Qed.

Lemma IpIsWhite_appends (checker : Whitelister) fuel ip :
  appends (reputation_event ip) (IpIsWhite checker fuel ip).
Proof.
  unfold IpIsWhite.
  apply appends_bind; [now apply appends_cache_Get|].
  intros [isWhite|]; [apply appends_ret|].
  apply appends_bind.
  - apply tries_appends; now cbn.
  - intros r. now apply after_tries_appends.
Qed.

(** After a miss in the reputation cache, with every try lost. *)
Lemma lookup_gives_up (checker : Whitelister) (fnc : string)
    (decode : string → option bool) (url key : string) (fuel : nat) (w : World) :
  0 <= maxTries checker < Int64.MaxInt64 →
  (Z.to_nat (maxTries checker) ≤ fuel)%nat →
  all_tries_fail decode url (Z.to_nat (maxTries checker)) w →
  ∃ w' new,
    (r <- tries checker fnc decode url key fuel 1 None ;;
     match r with
     | (Some isWhite, _) => ret (isWhite, None)
     | (None, msg) =>
         log_Print (Log_wl_no_result fnc (maxTries checker) msg) ;;
         ret (false, None : option error)
     end) w = Some ((false, None), w')
    ∧ trace w' = trace w ++ new
    ∧ retry_events new = retry_schedule checker url 1 (Z.to_nat (maxTries checker)).
Proof.
  intros Hm Hfuel Hfail.
  destruct (tries_exhausted checker fnc decode url key (Z.to_nat (maxTries checker)))
    with (fuel := fuel) (try := 1) (msg := @None TryFailure) (w := w)
    as (msg' & w1 & new & E & Htr & Hev & _); try lia; try assumption.
  rewrite (bind_run _ _ _ _ _ E). unfold bind, log_Print, ret.
  eexists _, (new ++ [_]). split; [reflexivity|]. split.
  - cbn. now rewrite Htr, app_assoc.
  - unfold retry_events in *. rewrite List.filter_app, Hev. cbn. now rewrite app_nil_r.
Qed.

(** A run that starts with the cache read and goes on as above. *)
Lemma gives_up_after_miss (checker : Whitelister) (url key : string)
    (run : M (bool * option error)) (w w' : World) (new : list Event) :
  0 <= maxTries checker →
  run w = Some ((false, None), w') →
  trace w' = trace (emit (EvCacheGet WhitelisterMemcache key) w) ++ new →
  retry_events new = retry_schedule checker url 1 (Z.to_nat (maxTries checker)) →
  gives_up checker url run w
  ∧ (0 < sleepTime checker →
     sleepTime checker * maxTries checker <= Int64.MaxInt64 →
     exhausts_retries checker url run w).
Proof.
  intros Hm Hrun Htr Hev.
  assert (Htr' : trace w' = trace w ++ EvCacheGet WhitelisterMemcache key :: new).
  { rewrite Htr. cbn. now rewrite <- app_assoc. }
  assert (Hev' : retry_events (EvCacheGet WhitelisterMemcache key :: new)
                 = retry_schedule checker url 1 (Z.to_nat (maxTries checker)))
    by exact Hev.
  assert (Hreq : Z.of_nat (requests (EvCacheGet WhitelisterMemcache key :: new))
                 = maxTries checker).
  { rewrite <- requests_retry_events, Hev', requests_retry_schedule. lia. }
  split.
  - exists w', (EvCacheGet WhitelisterMemcache key :: new). now repeat split.
  - intros Hs Hfit. rewrite schedule_exact in Hev' by lia.
    exists w', (EvCacheGet WhitelisterMemcache key :: new). repeat split; try assumption.
    rewrite <- sleeps_retry_events, Hev'. apply increasing_schedule; lia.
Qed.

(** C1 (as amended): a host key that misses the reputation cache (and, on
    the domain path, is not an IP literal), a retry count max_tries from 0
    up to, but not including, the largest int, and each of the max_tries
    tries lost to a network error, an unreadable body, a status other than
    200 or a body that does not decode.  Then DomainIsWhite and IpIsWhite
    make exactly max_tries requests and return (false, nil); before request
    n > 1 they sleep the 64-bit product base_sleep * n when it is positive
    and do not sleep otherwise.  When base_sleep > 0 and
    base_sleep * max_tries fits a 64-bit duration, these sleeps are
    base_sleep * n for every n > 1, a strictly increasing sequence. *)
Theorem reputation_lookup_retry_bound (checker : Whitelister) (fuel : nat)
    (host : string) (w : World) :
  0 <= maxTries checker < Int64.MaxInt64 →
  (Z.to_nat (maxTries checker) ≤ fuel)%nat →
  cache.Get (wl_memcache w) (clock w) host = None →
  (net_ParseIP host = None →
   all_tries_fail decode_domain (fmt_Sprintf1 (checkDomainApiUrl checker) host)
     (Z.to_nat (maxTries checker)) w →
   gives_up checker (fmt_Sprintf1 (checkDomainApiUrl checker) host)
     (DomainIsWhite checker fuel host) w
   ∧ (0 < sleepTime checker →
      sleepTime checker * maxTries checker <= Int64.MaxInt64 →
      exhausts_retries checker (fmt_Sprintf1 (checkDomainApiUrl checker) host)
        (DomainIsWhite checker fuel host) w))
  ∧ (all_tries_fail decode_ip (fmt_Sprintf1 (checkIpApiUrl checker) host)
       (Z.to_nat (maxTries checker)) w →
     gives_up checker (fmt_Sprintf1 (checkIpApiUrl checker) host)
       (IpIsWhite checker fuel host) w
     ∧ (0 < sleepTime checker →
        sleepTime checker * maxTries checker <= Int64.MaxInt64 →
        exhausts_retries checker (fmt_Sprintf1 (checkIpApiUrl checker) host)
          (IpIsWhite checker fuel host) w)).
Proof.
  intros Hm Hfuel Hmiss. split.
  - intros Hname Hfail.
    destruct (lookup_gives_up checker "wl check domain" decode_domain
                (fmt_Sprintf1 (checkDomainApiUrl checker) host) host fuel
                (emit (EvCacheGet WhitelisterMemcache host) w))
      as (w' & new & E & Htr & Hev); try assumption.
    apply gives_up_after_miss with (key := host) (w' := w') (new := new);
      try assumption; try lia.
    unfold DomainIsWhite. rewrite Hname. unfold bind at 1, cache_Get.
    cbn [cache_of]. rewrite Hmiss. exact E.
  - intros Hfail.
    destruct (lookup_gives_up checker "wl check ip" decode_ip
                (fmt_Sprintf1 (checkIpApiUrl checker) host) host fuel
                (emit (EvCacheGet WhitelisterMemcache host) w))
      as (w' & new & E & Htr & Hev); try assumption.
    apply gives_up_after_miss with (key := host) (w' := w') (new := new);
      try assumption; try lia.
    unfold IpIsWhite. unfold bind at 1, cache_Get.
    cbn [cache_of]. rewrite Hmiss. exact E.
Qed.

(** C6: a host that parses as an IP literal is answered (false, nil) by
    DomainIsWhite at once: the world is left exactly as it was, so no request
    is made and the reputation cache is neither read nor written. *)
Theorem DomainIsWhite_ip_literal (checker : Whitelister) (fuel : nat)
    (domain : string) (ip : IP) (w : World) :
  net_ParseIP domain = Some ip →
  DomainIsWhite checker fuel domain w = Some ((false, None), w).
Proof. intros Hip. unfold DomainIsWhite. now rewrite Hip. Qed.

(** ** The orchestrator *)

Lemma appends_weaken {A} (P Q : Event → Prop) (m : M A) :
  (∀ e, P e → Q e) → appends P m → appends Q m.
Proof.
  intros HPQ Hm w a w' Hrun. destruct (Hm _ _ _ Hrun) as (new & Htr & Hall).
  exists new. split; [exact Htr|]. eapply Forall_impl; eauto.
Qed.

Lemma GetDomainIP_name (checker : IpChecker) (domain : string) (w : World) :
  DomainIsIP checker domain = false →
  ∃ ip err w',
    GetDomainIP checker domain w = Some ((ip, err), w')
    ∧ (err = None ↔ has_a_record domain w = true).
Proof.
  intros Hname. unfold GetDomainIP, has_a_record. rewrite Hname.
  unfold bind, net_LookupHost, log_Print, ret.
  destruct (dns_reply _ _ _) as [[|ip ips]|err]; eexists _, _, _;
    (split; [reflexivity|]); split; congruence.
Qed.

Lemma GetDomainIP_appends (P : Event → Prop) (checker : IpChecker) (domain : string) :
  (∀ l, written_by l = ipchecker_go → P (EvLog l)) → P (EvLookupHost domain) →
  appends P (GetDomainIP checker domain).
Proof.
  intros Hlog Hdns. unfold GetDomainIP.
  destruct (DomainIsIP checker domain); [apply appends_ret|].
  apply appends_bind; [now apply appends_LookupHost|].
  intros [[|ip ips]|err];
    (apply appends_bind; [apply appends_log, Hlog; reflexivity | intros; apply appends_ret]).
Qed.

Lemma ip_literal_nil_error (v : Validator) fuel domain netIP w r w' :
  ip_literal_requires_processing v fuel domain netIP w = Some (r, w') → snd r = None.
Proof.
  unfold ip_literal_requires_processing.
  destruct (IsLocalIP _ _).
  - unfold bind, log_Print, ret. now intros [= <- _].
  - intros ([isWhite err] & w1 & Hwl & H)%bind_Some.
    apply IpIsWhite_nil_error in Hwl. cbn in Hwl. subst err.
    apply bind_Some in H as (? & ? & _ & H). now injection H as <- _.
Qed.

Lemma DomainRequiresProcessing_nil_error (v : Validator) fuel domain w r w' :
  DomainRequiresProcessing v fuel domain w = Some (r, w') → snd r = None.
Proof.
  unfold DomainRequiresProcessing.
  destruct (DomainIsIP _ _).
  - destruct (GetNetIP _ _).
    + apply ip_literal_nil_error.
    + unfold bind, log_Print, ret. now intros [= <- _].
  - intros ([isWhite err] & w1 & Hwl & H)%bind_Some.
    apply DomainIsWhite_nil_error in Hwl. cbn in Hwl. subst err.
    destruct isWhite.
    + unfold bind, log_Print, ret in H. now injection H as <- _.
    + apply bind_Some in H as ([ip [err|]] & w2 & _ & H).
      * unfold bind, log_Print, ret in H. now injection H as <- _.
      * now injection H as <- _.
Qed.

Lemma DomainRequiresProcessing_returns (v : Validator) fuel domain w :
  maxTries (v_Whitelister v) < Int64.MaxInt64 →
  (Z.to_nat (maxTries (v_Whitelister v)) ≤ fuel)%nat →
  ∃ b w', DomainRequiresProcessing v fuel domain w = Some ((b, None), w').
Proof.
  intros Hmax Hfuel.
  enough (∃ r w', DomainRequiresProcessing v fuel domain w = Some (r, w'))
    as ([b err] & w' & E).
  { pose proof (DomainRequiresProcessing_nil_error _ _ _ _ _ _ E) as Hnil.
    cbn in Hnil. subst err. eauto. }
  unfold DomainRequiresProcessing, ip_literal_requires_processing.
  destruct (DomainIsIP _ _) eqn:Hip.
  - destruct (GetNetIP _ _); [|unfold bind, log_Print, ret; eauto].
    destruct (IsLocalIP _ _); [unfold bind, log_Print, ret; eauto|].
    destruct (IpIsWhite_returns (v_Whitelister v) fuel domain w Hmax Hfuel)
      as ([isWhite err] & w1 & E).
    rewrite (bind_run _ _ _ _ _ E).
    destruct err; [unfold ret; eauto|].
    destruct isWhite; unfold bind, log_Print, ret; eauto.
  - destruct (DomainIsWhite_returns (v_Whitelister v) fuel domain w Hmax Hfuel)
      as ([isWhite err] & w1 & E).
    rewrite (bind_run _ _ _ _ _ E).
    destruct err; [unfold ret; eauto|].
    destruct isWhite; [unfold bind, log_Print, ret; eauto|].
    destruct (GetDomainIP_name (v_IpChecker v) domain w1 Hip) as (ip & err & w2 & E2 & _).
    rewrite (bind_run _ _ _ _ _ E2).
    destruct err; unfold bind, log_Print, ret; eauto.
Qed.

Lemma DomainRequiresProcessing_appends (v : Validator) fuel domain :
  appends not_the_nil_branch (DomainRequiresProcessing v fuel domain).
Proof.
  assert (Hrep : ∀ k e, reputation_event k e → not_the_nil_branch e).
  { intros k e He d' ->. discriminate He. }
  unfold DomainRequiresProcessing.
  destruct (DomainIsIP _ _) eqn:Hip.
  - apply DomainIsIP_true in Hip as [ip Hip]. unfold GetNetIP. rewrite Hip.
    unfold ip_literal_requires_processing. destruct (IsLocalIP _ _).
    + apply appends_bind; [apply appends_log; intros d; discriminate|].
      intros; apply appends_ret.
    + apply appends_bind.
      * eapply appends_weaken; [apply Hrep | apply IpIsWhite_appends].
      * intros [isWhite [err|]]; [apply appends_ret|].
        apply appends_bind; [|intros; apply appends_ret].
        destruct isWhite; [apply appends_log; intros d; discriminate | apply appends_ret].
  - apply appends_bind.
    + eapply appends_weaken; [apply Hrep | apply DomainIsWhite_appends].
    + intros [isWhite [err|]]; [apply appends_ret|].
      destruct isWhite.
      * apply appends_bind; [apply appends_log; intros d; discriminate|].
        intros; apply appends_ret.
      * apply appends_bind.
        -- apply GetDomainIP_appends; [intros l Hl d' [= ->] | intros d']; discriminate.
        -- intros [ip [err|]]; [|apply appends_ret].
           apply appends_bind; [apply appends_log; intros d; discriminate|].
           intros; apply appends_ret.
Qed.

(** C10: when DomainIsIP holds of a domain, GetNetIP gives a non-nil IP for
    it, so DomainRequiresProcessing goes on with that IP; the line logged by
    the branch for a nil IP is never written. *)
Theorem nil_ip_branch_unreachable (v : Validator) (fuel : nat) (domain : string) :
  DomainIsIP (v_IpChecker v) domain = true →
  ∃ netIP,
    GetNetIP (v_IpChecker v) domain = Some netIP
    ∧ DomainRequiresProcessing v fuel domain
      = ip_literal_requires_processing v fuel domain netIP
    ∧ appends not_the_nil_branch (DomainRequiresProcessing v fuel domain).
Proof.
  intros Hip. unfold DomainRequiresProcessing at 1. rewrite Hip.
  unfold DomainIsIP in Hip. destruct (GetNetIP _ _) as [netIP|]; [|discriminate].
  exists netIP. repeat split. apply DomainRequiresProcessing_appends.
Qed.

(** C5: an IP literal that is loopback, link-local unicast, link-local
    multicast or inside a configured local network is decided (false, nil)
    with one log line and nothing else: no request to the reputation
    service, whatever that service or its cache would have said. *)
Theorem local_ip_is_never_processed (v : Validator) (fuel : nat)
    (domain : string) (ip : IP) (w : World) :
  net_ParseIP domain = Some ip →
  IP_IsLoopback ip = true ∨ IP_IsLinkLocalUnicast ip = true
  ∨ IP_IsLinkLocalMulticast ip = true
  ∨ (∃ n, In n (LocalIPNets (v_IpChecker v)) ∧ IPNet_Contains n ip = true) →
  DomainRequiresProcessing v fuel domain w
  = Some ((false, None), emit (EvLog (Log_local_ip domain)) w).
Proof.
  intros Hip Hlocal%IsLocalIP_true.
  unfold DomainRequiresProcessing, ip_literal_requires_processing, DomainIsIP, GetNetIP.
  now rewrite Hip, Hlocal.
Qed.

(** C3: a URL matched by one of the configured patterns is answered
    (false, nil) at once; the call leaves one log line and nothing else, so
    the domain is not parsed and no cache, reputation service or resolver is
    touched. *)
Theorem blacklisted_url_short_circuits (v : Validator) (fuel : nat)
    (url : string) (re : Regexp) (w : World) :
  In re (Regexps (v_UrlBlacklister v)) →
  Regexp_MatchString re url = true →
  UrlRequiresProcessing v fuel url w
  = Some ((false, None), emit (EvLog (Log_url_blacklisted url)) w).
Proof.
  intros Hin Hmatch. unfold UrlRequiresProcessing, UrlIsBlack.
  now rewrite (proj2 (match_any_true _ _) (ex_intro _ re (conj Hin Hmatch))).
Qed.

(** C2: for a domain that is not an IP literal, once the reputation lookup
    has answered: allow-listed gives (false, nil) with one more log line and
    no DNS lookup during the whole call; not allow-listed gives (false, nil)
    when the resolver has no address for the name (an error or an empty
    list) and (true, nil) when it has one. *)
Theorem name_decision_follows_reputation_then_dns (v : Validator) (fuel : nat)
    (domain : string) (w w1 : World) (isWhite : bool) :
  DomainIsIP (v_IpChecker v) domain = false →
  DomainIsWhite (v_Whitelister v) fuel domain w = Some ((isWhite, None), w1) →
  (isWhite = true →
     DomainRequiresProcessing v fuel domain w
     = Some ((false, None), emit (EvLog (Log_domain_whitelisted domain)) w1)
     ∧ ∃ new, trace (emit (EvLog (Log_domain_whitelisted domain)) w1) = trace w ++ new
              ∧ Forall no_lookup new)
  ∧ (isWhite = false → has_a_record domain w1 = false →
     ∃ w', DomainRequiresProcessing v fuel domain w = Some ((false, None), w'))
  ∧ (isWhite = false → has_a_record domain w1 = true →
     ∃ w', DomainRequiresProcessing v fuel domain w = Some ((true, None), w')).
Proof.
  intros Hname Hwl.
  assert (Hrun : DomainRequiresProcessing v fuel domain w
                 = (if isWhite then
                      log_Print (Log_domain_whitelisted domain) ;;
                      ret (negb isWhite, None)
                    else
                      a <- GetDomainIP (v_IpChecker v) domain ;;
                      match a with
                      | (_, Some _) =>
                          log_Print (Log_no_a_record domain) ;; ret (false, None)
                      | (_, None) => ret (true, None)
                      end) w1).
  { unfold DomainRequiresProcessing. rewrite Hname. now rewrite (bind_run _ _ _ _ _ Hwl). }
  rewrite Hrun. split; [intros ->; split | split; intros -> Hdns].
  - reflexivity.
  - destruct (DomainIsWhite_appends _ _ _ _ _ _ Hwl) as (new & Htr & Hall).
    exists (new ++ [EvLog (Log_domain_whitelisted domain)]). split.
    + cbn. now rewrite Htr, app_assoc.
    + apply Forall_app. split; [|now repeat constructor].
      eapply Forall_impl; [exact Hall|]. now intros [].
  - destruct (GetDomainIP_name (v_IpChecker v) domain w1 Hname) as (ip & err & w2 & E & Herr).
    rewrite (bind_run _ _ _ _ _ E). destruct err.
    + unfold bind, log_Print, ret. eauto.
    + rewrite (proj1 Herr eq_refl) in Hdns. discriminate.
  - destruct (GetDomainIP_name (v_IpChecker v) domain w1 Hname) as (ip & err & w2 & E & Herr).
    rewrite (bind_run _ _ _ _ _ E). apply Herr in Hdns. subst err.
    unfold ret. eauto.
Qed.

(** ** The decision cache *)

Lemma UrlRequiresProcessing_hit (v : Validator) fuel url full domain w it :
  UrlIsBlack (v_UrlBlacklister v) url = false →
  ParseDomain v url = (full, domain, None) →
  items (v_DomainCache w) !! domain = Some it →
  cache.Expired (clock w) it = false →
  UrlRequiresProcessing v fuel url w
  = Some ((Object it, None), emit (EvCacheGet ValidatorDomainCache domain) w).
Proof.
  intros Hbl Hparse Hit Hexp.
  unfold UrlRequiresProcessing. rewrite Hbl, Hparse.
  unfold bind, getDomainCache, cache_Get, cache.Get. cbn [cache_of].
  now rewrite Hit, Hexp.
Qed.

Lemma UrlRequiresProcessing_miss (v : Validator) fuel url full domain w :
  UrlIsBlack (v_UrlBlacklister v) url = false →
  ParseDomain v url = (full, domain, None) →
  cache.Get (v_DomainCache w) (clock w) domain = None →
  UrlRequiresProcessing v fuel url w
  = (r <- DomainRequiresProcessing v fuel domain ;;
     match r with
     | (_, Some err) =>
         log_Print (Log_domain_check_fail domain url err) ;; ret (false, Some err)
     | (result, None) => setDomainCache v domain result ;; ret (result, None)
     end) (emit (EvCacheGet ValidatorDomainCache domain) w).
Proof.
  intros Hbl Hparse Hmiss.
  unfold UrlRequiresProcessing. rewrite Hbl, Hparse.
  unfold bind at 1, getDomainCache, cache_Get. cbn [cache_of].
  now rewrite Hmiss.
Qed.

Lemma decided_lookup (domain : string) (b : bool) (w : World) :
  items (v_DomainCache (decided domain b w)) !! domain
  = Some {| Object := b;
            Expiration := if 0 <? defaultExpiration (v_DomainCache w)
                          then clock w + defaultExpiration (v_DomainCache w)
                          else 0 |}.
Proof. cbn. now rewrite lookup_insert_eq. Qed.

Lemma UrlRequiresProcessing_computed (v : Validator) fuel url full domain w r w1 :
  UrlIsBlack (v_UrlBlacklister v) url = false →
  ParseDomain v url = (full, domain, None) →
  cache.Get (v_DomainCache w) (clock w) domain = None →
  DomainRequiresProcessing v fuel domain (emit (EvCacheGet ValidatorDomainCache domain) w)
  = Some (r, w1) →
  UrlRequiresProcessing v fuel url w = Some ((fst r, None), decided domain (fst r) w1).
Proof.
  intros Hbl Hparse Hmiss Hrun.
  rewrite (UrlRequiresProcessing_miss _ _ _ _ _ _ Hbl Hparse Hmiss).
  rewrite (bind_run _ _ _ _ _ Hrun).
  pose proof (DomainRequiresProcessing_nil_error _ _ _ _ _ _ Hrun) as Hnil.
  destruct r as [b err]. cbn in Hnil. now subst err.
Qed.

(** C4: for a URL that is not blacklisted and whose domain parses: with an
    unexpired entry for the domain in the decision cache, the call returns
    the cached boolean and a nil error and leaves nothing but the cache read
    behind; on a miss it runs DomainRequiresProcessing, which with enough
    fuel returns, stores that decision under the domain with the default
    expiry of the cache, and returns it with a nil error. *)
Theorem decision_cache_hit_and_miss (v : Validator) (fuel : nat)
    (url full domain : string) (w : World) :
  UrlIsBlack (v_UrlBlacklister v) url = false →
  ParseDomain v url = (full, domain, None) →
  (∀ it, items (v_DomainCache w) !! domain = Some it →
         cache.Expired (clock w) it = false →
         UrlRequiresProcessing v fuel url w
         = Some ((Object it, None), emit (EvCacheGet ValidatorDomainCache domain) w))
  ∧ (cache.Get (v_DomainCache w) (clock w) domain = None →
     (∀ r w1,
        DomainRequiresProcessing v fuel domain
          (emit (EvCacheGet ValidatorDomainCache domain) w) = Some (r, w1) →
        UrlRequiresProcessing v fuel url w
        = Some ((fst r, None), decided domain (fst r) w1)
        ∧ cache.Get (v_DomainCache (decided domain (fst r) w1))
            (clock (decided domain (fst r) w1)) domain = Some (fst r))
     ∧ (maxTries (v_Whitelister v) < Int64.MaxInt64 →
        (Z.to_nat (maxTries (v_Whitelister v)) ≤ fuel)%nat →
        ∃ b w1,
          DomainRequiresProcessing v fuel domain
            (emit (EvCacheGet ValidatorDomainCache domain) w) = Some ((b, None), w1))).
Proof.
  intros Hbl Hparse. split; [|intros Hmiss; split].
  - intros it Hit Hexp. eapply UrlRequiresProcessing_hit; eauto.
  - intros r w1 Hrun. split.
    + eapply UrlRequiresProcessing_computed; eauto.
    + unfold cache.Get. rewrite decided_lookup. unfold cache.Expired. cbn.
      destruct (Z.ltb_spec 0 (defaultExpiration (v_DomainCache w1))); cbn; [|reflexivity].
      destruct (Z.ltb_spec (clock w1 + defaultExpiration (v_DomainCache w1)) (clock w1));
        [lia|]. now rewrite andb_false_r.
  - intros Hmax Hfuel. now apply DomainRequiresProcessing_returns.
Qed.

Lemma UrlRequiresProcessing_leaves_entry (v : Validator) fuel url full domain w b w1 :
  UrlIsBlack (v_UrlBlacklister v) url = false →
  ParseDomain v url = (full, domain, None) →
  UrlRequiresProcessing v fuel url w = Some ((b, None), w1) →
  ∃ it,
    items (v_DomainCache w1) !! domain = Some it
    ∧ Object it = b
    ∧ cache.Expired (clock w1) it = false
    ∧ (cache.Get (v_DomainCache w) (clock w) domain = None →
       0 < defaultExpiration (v_DomainCache w1) →
       Expiration it = clock w1 + defaultExpiration (v_DomainCache w1)).
Proof.
  intros Hbl Hparse Hrun.
  destruct (cache.Get (v_DomainCache w) (clock w) domain) as [b'|] eqn:Hget.
  - unfold cache.Get in Hget.
    destruct (items (v_DomainCache w) !! domain) as [it|] eqn:Hit; [|discriminate].
    destruct (cache.Expired (clock w) it) eqn:Hexp; [discriminate|].
    rewrite (UrlRequiresProcessing_hit _ _ _ _ _ _ _ Hbl Hparse Hit Hexp) in Hrun.
    injection Hrun as <- <-. exists it. repeat split; try assumption. discriminate.
  - rewrite (UrlRequiresProcessing_miss _ _ _ _ _ _ Hbl Hparse Hget) in Hrun.
    apply bind_Some in Hrun as ([b0 err] & w0 & Hdrp & Hset).
    pose proof (DomainRequiresProcessing_nil_error _ _ _ _ _ _ Hdrp) as Hnil.
    cbn in Hnil. subst err.
    unfold bind, setDomainCache, cache_Set, ret in Hset. injection Hset as <- <-.
    eexists. split; [apply decided_lookup|].
    cbn. split; [reflexivity|]. split.
    + unfold cache.Expired. cbn.
      destruct (Z.ltb_spec 0 (defaultExpiration (v_DomainCache w0))); cbn; [|reflexivity].
      destruct (Z.ltb_spec (clock w0 + defaultExpiration (v_DomainCache w0)) (clock w0));
        [lia|]. now rewrite andb_false_r.
    + intros _ Hpos. now destruct (Z.ltb_spec 0 (defaultExpiration (v_DomainCache w0))); [|lia].
Qed.

(** C7: two URLs that are not blacklisted and parse to the same hostname.
    Once UrlRequiresProcessing has decided the first one, the decision cache
    holds that boolean under the hostname; a later call with the second URL,
    made while that entry is unexpired (in particular within the default
    expiry of the cache after a decision that was computed), returns the
    same boolean and leaves nothing but the cache read behind. *)
Theorem same_hostname_same_cached_decision (v : Validator) (fuel : nat)
    (url1 url2 full1 full2 domain : string) (w w1 : World) (b : bool) :
  UrlIsBlack (v_UrlBlacklister v) url1 = false →
  UrlIsBlack (v_UrlBlacklister v) url2 = false →
  ParseDomain v url1 = (full1, domain, None) →
  ParseDomain v url2 = (full2, domain, None) →
  UrlRequiresProcessing v fuel url1 w = Some ((b, None), w1) →
  ∃ it,
    items (v_DomainCache w1) !! domain = Some it
    ∧ Object it = b
    ∧ (∀ fuel2 w2,
         keeps_decision domain w1 w2 →
         cache.Expired (clock w2) it = false →
         UrlRequiresProcessing v fuel2 url2 w2
         = Some ((b, None), emit (EvCacheGet ValidatorDomainCache domain) w2))
    ∧ (cache.Get (v_DomainCache w) (clock w) domain = None →
       0 < defaultExpiration (v_DomainCache w1) →
       ∀ fuel2 w2,
         keeps_decision domain w1 w2 →
         clock w2 <= clock w1 + defaultExpiration (v_DomainCache w1) →
         UrlRequiresProcessing v fuel2 url2 w2
         = Some ((b, None), emit (EvCacheGet ValidatorDomainCache domain) w2)).
Proof.
  intros Hbl1 Hbl2 Hp1 Hp2 Hrun.
  destruct (UrlRequiresProcessing_leaves_entry _ _ _ _ _ _ _ _ Hbl1 Hp1 Hrun)
    as (it & Hit & Hobj & _ & Httl).
  assert (Hhit : ∀ fuel2 w2,
             keeps_decision domain w1 w2 →
             cache.Expired (clock w2) it = false →
             UrlRequiresProcessing v fuel2 url2 w2
             = Some ((b, None), emit (EvCacheGet ValidatorDomainCache domain) w2)).
  { intros fuel2 w2 Hkeep Hexp. unfold keeps_decision in Hkeep. rewrite Hit in Hkeep.
    rewrite <- Hobj. eapply UrlRequiresProcessing_hit; eauto. }
  exists it. repeat split; try assumption.
  intros Hmiss Hpos fuel2 w2 Hkeep Hclock. apply Hhit; [exact Hkeep|].
  unfold cache.Expired. rewrite (Httl Hmiss Hpos).
  destruct (Z.ltb_spec (clock w1 + defaultExpiration (v_DomainCache w1)) (clock w2)); [lia|].
  apply andb_false_r.
Qed.

(** ** Errors *)

Lemma UrlRequiresProcessing_error (v : Validator) fuel url w r w' :
  UrlRequiresProcessing v fuel url w = Some (r, w') →
  snd r ≠ None ↔
    UrlIsBlack (v_UrlBlacklister v) url = false ∧ snd (ParseDomain v url) ≠ None.
Proof.
  unfold UrlRequiresProcessing.
  destruct (UrlIsBlack _ _).
  - unfold bind, log_Print, ret. intros [= <- _]. cbn. split; [congruence | intros []; congruence].
  - destruct (ParseDomain v url) as [[full domain] [err|]]; cbn [snd].
    + unfold bind, log_Print, ret. intros [= <- _]. cbn. split; [now split | congruence].
    + intros (cached & w1 & _ & H)%bind_Some.
      assert (snd r = None) as ->; [|split; [congruence | intros []; congruence]].
      destruct cached as [b|].
      * now injection H as <- _.
      * apply bind_Some in H as ([b err] & w2 & Hdrp & H).
        pose proof (DomainRequiresProcessing_nil_error _ _ _ _ _ _ Hdrp) as Hnil.
        cbn in Hnil. subst err.
        unfold bind, setDomainCache, cache_Set, ret in H. now injection H as <- _.
Qed.

Lemma UrlRequiresProcessing_returns (v : Validator) fuel url w :
  maxTries (v_Whitelister v) < Int64.MaxInt64 →
  (Z.to_nat (maxTries (v_Whitelister v)) ≤ fuel)%nat →
  ∃ r w', UrlRequiresProcessing v fuel url w = Some (r, w').
Proof.
  intros Hmax Hfuel. unfold UrlRequiresProcessing.
  destruct (UrlIsBlack _ _); [unfold bind, log_Print, ret; eauto|].
  destruct (ParseDomain v url) as [[full domain] [err|]];
    [unfold bind, log_Print, ret; eauto|].
  unfold bind at 1, getDomainCache, cache_Get.
  destruct (cache.Get _ _ _); [unfold ret; eauto|].
  destruct (DomainRequiresProcessing_returns v fuel domain
              (emit (EvCacheGet ValidatorDomainCache domain) w) Hmax Hfuel)
    as (b & w1 & E).
  rewrite (bind_run _ _ _ _ _ E). unfold bind, setDomainCache, cache_Set, ret. eauto.
Qed.

(** C9: DomainIsWhite and IpIsWhite hand back a nil error whenever they
    return, and so does DomainRequiresProcessing, whose error returns behind
    the two lookups are therefore dead; UrlRequiresProcessing returns a
    non-nil error exactly when the URL is not blacklisted and its domain does
    not parse.  With a retry count below the largest int and fuel for that
    many tries, all four calls do return. *)
Theorem only_parse_failures_surface (v : Validator) (fuel : nat)
    (key url : string) (w : World) :
  (∀ r w', DomainIsWhite (v_Whitelister v) fuel key w = Some (r, w') → snd r = None)
  ∧ (∀ r w', IpIsWhite (v_Whitelister v) fuel key w = Some (r, w') → snd r = None)
  ∧ (∀ r w', DomainRequiresProcessing v fuel key w = Some (r, w') → snd r = None)
  ∧ (∀ r w', UrlRequiresProcessing v fuel url w = Some (r, w') →
       snd r ≠ None ↔
         UrlIsBlack (v_UrlBlacklister v) url = false ∧ snd (ParseDomain v url) ≠ None)
  ∧ (maxTries (v_Whitelister v) < Int64.MaxInt64 →
     (Z.to_nat (maxTries (v_Whitelister v)) ≤ fuel)%nat →
     (∃ r w', DomainIsWhite (v_Whitelister v) fuel key w = Some (r, w'))
     ∧ (∃ r w', IpIsWhite (v_Whitelister v) fuel key w = Some (r, w'))
     ∧ (∃ r w', DomainRequiresProcessing v fuel key w = Some (r, w'))
     ∧ (∃ r w', UrlRequiresProcessing v fuel url w = Some (r, w'))).
Proof.
  split; [|split; [|split; [|split]]].
  - intros r w'. apply DomainIsWhite_nil_error.
  - intros r w'. apply IpIsWhite_nil_error.
  - intros r w'. apply DomainRequiresProcessing_nil_error.
  - intros r w'. apply UrlRequiresProcessing_error.
  - intros Hmax Hfuel. repeat split.
    + now apply DomainIsWhite_returns.
    + now apply IpIsWhite_returns.
    + destruct (DomainRequiresProcessing_returns v fuel key w Hmax Hfuel) as (b & w' & E).
      eauto.
    + now apply UrlRequiresProcessing_returns.
Qed.

End Properties.

(** ** Start-up checks *)

Section Startup.

Context {L : GoLib}.

Lemma no_empty_item_eq (valid : bool) (l : list string) :
  no_empty_item valid l = valid && negb (existsb (fun rx => String.eqb rx "") l).
Proof.
  unfold no_empty_item. revert valid.
  induction l as [|rx l IH]; intros valid; cbn.
  - now rewrite andb_true_r.
  - rewrite IH. destruct (String.eqb rx ""), valid; reflexivity.
Qed.

Lemma has_empty_item (l : list string) :
  existsb (fun rx => String.eqb rx "") l = true ↔ In "" l.
Proof.
  rewrite existsb_exists. split.
  - intros (rx & Hin & ->%String.eqb_eq). exact Hin.
  - intros Hin. exists "". split; [exact Hin | reflexivity].
Qed.

(** What [ValidatorConfig.IsValid] accepts. *)
Lemma ValidatorConfig_IsValid_true (cfg : ValidatorConfig) :
  ValidatorConfig_IsValid cfg = true ↔
    UrlBlackListRegexps cfg ≠ [] ∧ ¬ In "" (UrlBlackListRegexps cfg)
    ∧ LocalIPNetsCfg cfg ≠ [] ∧ ¬ In "" (LocalIPNetsCfg cfg)
    ∧ IsValidUrl (CheckDomainApiUrl (WhitelisterApiCfg cfg)) = true
    ∧ IsValidUrl (CheckIpApiUrl (WhitelisterApiCfg cfg)) = true
    ∧ 0 < MaxTries (WhitelisterApiCfg cfg)
    ∧ time.Millisecond <= SleepTime (WhitelisterApiCfg cfg).
Proof.
  unfold ValidatorConfig_IsValid. rewrite !no_empty_item_eq.
  rewrite <- !has_empty_item.
  destruct (existsb _ (UrlBlackListRegexps cfg));
    destruct (existsb _ (LocalIPNetsCfg cfg));
    destruct (UrlBlackListRegexps cfg) as [|rx rxs];
    destruct (LocalIPNetsCfg cfg) as [|n ns];
    destruct (IsValidUrl (CheckDomainApiUrl _));
    destruct (IsValidUrl (CheckIpApiUrl _));
    destruct (Z.leb_spec (MaxTries (WhitelisterApiCfg cfg)) 0);
    destruct (Z.ltb_spec (SleepTime (WhitelisterApiCfg cfg)) time.Millisecond);
    cbn;
    (split;
     [ try discriminate; intros _; repeat split; try lia; intuition congruence
     | intros (H1 & H2 & H3 & H4 & H5 & H6 & H7 & H8);
       try reflexivity; try lia; intuition congruence ]).
Qed.

(** Every defect that [ValidatorConfig.IsValid] looks for makes
    [NewValidator] return its error. *)
Lemma NewValidator_refuses (cfg : ValidatorConfig) (w : World) :
  UrlBlackListRegexps cfg = [] ∨ In "" (UrlBlackListRegexps cfg)
  ∨ LocalIPNetsCfg cfg = [] ∨ In "" (LocalIPNetsCfg cfg)
  ∨ IsValidUrl (CheckDomainApiUrl (WhitelisterApiCfg cfg)) = false
  ∨ IsValidUrl (CheckIpApiUrl (WhitelisterApiCfg cfg)) = false
  ∨ MaxTries (WhitelisterApiCfg cfg) <= 0
  ∨ SleepTime (WhitelisterApiCfg cfg) < time.Millisecond →
  NewValidator cfg w = Refused "validator cfg is invalid".
Proof.
  intros Hbad. unfold NewValidator.
  destruct (ValidatorConfig_IsValid cfg) eqn:Hvalid; [|reflexivity].
  apply ValidatorConfig_IsValid_true in Hvalid
    as (H1 & H2 & H3 & H4 & H5 & H6 & H7 & H8).
  destruct Hbad as [H|[H|[H|[H|[H|[H|[H|H]]]]]]]; try contradiction; try congruence; lia.
Qed.

Lemma NewServer_refuses_empty_listen (cfg : HttpConfig) (validator : Validator) :
  Listen cfg = "" → NewServer cfg validator = Refused "http config is invalid".
Proof.
  intros Hl. unfold NewServer, HttpConfig_IsValid, HttpConfig_IsValid_logged.
  now rewrite Hl.
Qed.

(** [valid] depends on the listen address alone. *)
Lemma HttpConfig_IsValid_listen (cfg : HttpConfig) :
  HttpConfig_IsValid cfg = negb (String.eqb (Listen cfg) "").
Proof.
  unfold HttpConfig_IsValid, HttpConfig_IsValid_logged.
  now destruct (String.eqb (Listen cfg) "").
Qed.

(** C8, at the input on which it fails: with a listen address and an empty
    map of auth tokens, HttpConfig.IsValid logs that the configuration is
    invalid and still answers true, and NewServer builds the server. *)
Theorem empty_auth_tokens_start_the_server (validator : Validator) :
  let cfg := {| Listen := "8080"; AuthTokens := ∅ |} in
  HttpConfig_IsValid_logged cfg
  = (true, Some "config is invalid; errors: http empty val: 'auth_tokens'")
  ∧ NewServer cfg validator
    = Started {| Srv_Addr := ":8080"; srv_AuthTokens := ∅; srv_Validator := validator |}.
Proof. split; reflexivity. Qed.

End Startup.

(** * Further properties of the code *)

(** ** utils.go *)

Lemma append_cons (c : ascii) (s t : string) :
  String.append (String c s) t = String c (String.append s t).
Proof. reflexivity. Qed.


Lemma length_append (s1 s2 : string) :
  String.length (String.append s1 s2) = (String.length s1 + String.length s2)%nat.
Proof.
  induction s1 as [|c s1 IH]; [reflexivity|].
  rewrite append_cons. simpl. now f_equal.
Qed.






(** ** The constructors *)

Section Constructors.

Context {L : GoLib}.

Lemma compile_all_inl (rawRegexps : list string) :
  ∀ acc compiled,
    compile_all rawRegexps acc = inl compiled →
    ∃ res, compiled = acc ++ res
           ∧ Forall2 (fun exp re => regexp_Compile exp = Some re) rawRegexps res.
Proof.
  induction rawRegexps as [|exp rest IH]; intros acc compiled H; cbn in H.
  - injection H as <-. exists []. split; [now rewrite app_nil_r | constructor].
  - destruct (regexp_Compile exp) as [re|] eqn:E; [|discriminate].
    destruct (IH _ _ H) as (res & -> & Hall).
    exists (re :: res). split; [now rewrite <- app_assoc | now constructor].
Qed.

Lemma compile_all_inr (rawRegexps : list string) :
  ∀ acc bad,
    compile_all rawRegexps acc = inr bad →
    In bad rawRegexps ∧ regexp_Compile bad = None.
Proof.
  induction rawRegexps as [|exp rest IH]; intros acc bad H; cbn in H; [discriminate|].
  destruct (regexp_Compile exp) as [re|] eqn:E.
  - destruct (IH _ _ H). split; [now right | assumption].
  - injection H as <-. split; [now left | assumption].
Qed.

Lemma parse_local_nets_inl (localNets : list string) :
  ∀ acc nets,
    parse_local_nets localNets acc = inl nets →
    ∃ res, nets = acc ++ res
           ∧ Forall2 (fun s n => net_ParseCIDR s = Some n) localNets res.
Proof.
  induction localNets as [|s rest IH]; intros acc nets H; cbn in H.
  - injection H as <-. exists []. split; [now rewrite app_nil_r | constructor].
  - destruct (net_ParseCIDR s) as [n|] eqn:E; [|discriminate].
    destruct (IH _ _ H) as (res & -> & Hall).
    exists (n :: res). split; [now rewrite <- app_assoc | now constructor].
Qed.

Lemma parse_local_nets_inr (localNets : list string) :
  ∀ acc bad,
    parse_local_nets localNets acc = inr bad →
    In bad localNets ∧ net_ParseCIDR bad = None.
Proof.
  induction localNets as [|s rest IH]; intros acc bad H; cbn in H; [discriminate|].
  destruct (net_ParseCIDR s) as [n|] eqn:E.
  - destruct (IH _ _ H). split; [now right | assumption].
  - injection H as <-. split; [now left | assumption].
Qed.

(** X2: NewValidator returns its error exactly for the configurations with
    one of eight defects: no blacklist pattern, an empty pattern, no local
    network, an empty local network, a domain or IP endpoint that is not an
    http(s) URL, a retry count of zero or less, a sleep time under one
    millisecond. *)
Theorem NewValidator_refuses_exactly (cfg : ValidatorConfig) (w : World) :
  NewValidator cfg w = Refused "validator cfg is invalid" ↔
    UrlBlackListRegexps cfg = [] ∨ In "" (UrlBlackListRegexps cfg)
    ∨ LocalIPNetsCfg cfg = [] ∨ In "" (LocalIPNetsCfg cfg)
    ∨ IsValidUrl (CheckDomainApiUrl (WhitelisterApiCfg cfg)) = false
    ∨ IsValidUrl (CheckIpApiUrl (WhitelisterApiCfg cfg)) = false
    ∨ MaxTries (WhitelisterApiCfg cfg) <= 0
    ∨ SleepTime (WhitelisterApiCfg cfg) < time.Millisecond.
Proof.
  split; [|apply NewValidator_refuses].
  unfold NewValidator.
  destruct (ValidatorConfig_IsValid cfg) eqn:Hvalid; cbn.
  - destruct (NewBlacklister _); [|discriminate].
    destruct (NewIpChecker _); [|discriminate].
    cbn. discriminate.
  - intros _.
    assert (Hnot : ¬ (UrlBlackListRegexps cfg ≠ [] ∧ ¬ In "" (UrlBlackListRegexps cfg)
                     ∧ LocalIPNetsCfg cfg ≠ [] ∧ ¬ In "" (LocalIPNetsCfg cfg)
                     ∧ IsValidUrl (CheckDomainApiUrl (WhitelisterApiCfg cfg)) = true
                     ∧ IsValidUrl (CheckIpApiUrl (WhitelisterApiCfg cfg)) = true
                     ∧ 0 < MaxTries (WhitelisterApiCfg cfg)
                     ∧ time.Millisecond <= SleepTime (WhitelisterApiCfg cfg))).
    { intros H%ValidatorConfig_IsValid_true. congruence. }
    destruct (UrlBlackListRegexps cfg) as [|rx rxs] eqn:E1; [now left|].
    destruct (in_dec string_dec "" (rx :: rxs)); [now right; left|].
    destruct (LocalIPNetsCfg cfg) as [|ln lns] eqn:E2; [now right; right; left|].
    destruct (in_dec string_dec "" (ln :: lns)); [now right; right; right; left|].
    destruct (IsValidUrl (CheckDomainApiUrl _)) eqn:E3; [|now do 4 right; left].
    destruct (IsValidUrl (CheckIpApiUrl _)) eqn:E4; [|now do 5 right; left].
    destruct (Z_le_gt_dec (MaxTries (WhitelisterApiCfg cfg)) 0); [now do 6 right; left|].
    destruct (Z_lt_ge_dec (SleepTime (WhitelisterApiCfg cfg)) time.Millisecond);
      [now do 7 right|].
    exfalso. apply Hnot. repeat split; try assumption; try discriminate; lia.
Qed.

(** X3: what a started validator is made of.  Its patterns are the compiled
    configured patterns, one for one and in order, and likewise its local
    networks; its retry count is positive and its base sleep at least one
    millisecond; both caches start empty, the decision cache with a default
    expiry of 30 minutes and the reputation cache with one hour; the rest of
    the world is untouched. *)
Theorem NewValidator_started (cfg : ValidatorConfig) (w w' : World) (v : Validator) :
  NewValidator cfg w = Started (v, w') →
  Forall2 (fun exp re => regexp_Compile exp = Some re)
    (UrlBlackListRegexps cfg) (Regexps (v_UrlBlacklister v))
  ∧ Forall2 (fun s n => net_ParseCIDR s = Some n)
      (LocalIPNetsCfg cfg) (LocalIPNets (v_IpChecker v))
  ∧ Regexps (v_UrlBlacklister v) ≠ [] ∧ LocalIPNets (v_IpChecker v) ≠ []
  ∧ 0 < maxTries (v_Whitelister v)
  ∧ time.Millisecond <= sleepTime (v_Whitelister v)
  ∧ v_DomainCache w' = {| defaultExpiration := 30 * time.Minute; items := ∅ |}
  ∧ wl_memcache w' = {| defaultExpiration := time.Hour; items := ∅ |}
  ∧ net w' = net w ∧ net_calls w' = net_calls w ∧ clock w' = clock w
  ∧ trace w' = trace w.
Proof.
  unfold NewValidator.
  destruct (ValidatorConfig_IsValid cfg) eqn:Hvalid; cbn; [|discriminate].
  apply ValidatorConfig_IsValid_true in Hvalid
    as (H1 & H2 & H3 & H4 & H5 & H6 & H7 & H8).
  unfold NewBlacklister, NewIpChecker.
  destruct (compile_all _ _) as [compiled|bad] eqn:Ec; [|discriminate].
  destruct (parse_local_nets _ _) as [nets|bad] eqn:En; [|discriminate].
  cbn. intros [= <- <-]. cbn.
  apply compile_all_inl in Ec as (res & -> & Hc).
  apply parse_local_nets_inl in En as (res' & -> & Hn). cbn.
  repeat split; try assumption.
  - intros ->. inversion Hc. congruence.
  - intros ->. inversion Hn. congruence.
Qed.

(** X4: NewValidator ends the process only over a configured pattern that
    does not compile or a configured local network that does not parse. *)
Theorem NewValidator_aborts_on (cfg : ValidatorConfig) (w : World) (what : string) :
  NewValidator cfg w = Aborted what →
  (In what (UrlBlackListRegexps cfg) ∧ regexp_Compile what = None)
  ∨ (In what (LocalIPNetsCfg cfg) ∧ net_ParseCIDR what = None).
Proof.
  unfold NewValidator.
  destruct (ValidatorConfig_IsValid cfg); cbn; [|discriminate].
  unfold NewBlacklister, NewIpChecker.
  destruct (compile_all _ _) as [compiled|bad] eqn:Ec.
  - destruct (parse_local_nets _ _) as [nets|bad] eqn:En; [discriminate|].
    cbn. intros [= <-]. right. eapply parse_local_nets_inr, En.
  - intros [= <-]. left. eapply compile_all_inr, Ec.
Qed.

(** X5: for a started validator, a URL is blacklisted exactly when one of
    the configured patterns, compiled, matches it, and an address is local
    exactly when it is loopback, link-local unicast, link-local multicast,
    or inside one of the configured networks, parsed. *)
Theorem started_validator_checks_the_configured_lists
    (cfg : ValidatorConfig) (w w' : World) (v : Validator) (url : string) (ip : IP) :
  NewValidator cfg w = Started (v, w') →
  (UrlIsBlack (v_UrlBlacklister v) url = true ↔
     ∃ exp re, In exp (UrlBlackListRegexps cfg) ∧ regexp_Compile exp = Some re
               ∧ Regexp_MatchString re url = true)
  ∧ (IsLocalIP (v_IpChecker v) ip = true ↔
       IP_IsLoopback ip = true ∨ IP_IsLinkLocalUnicast ip = true
       ∨ IP_IsLinkLocalMulticast ip = true
       ∨ ∃ s n, In s (LocalIPNetsCfg cfg) ∧ net_ParseCIDR s = Some n
                ∧ IPNet_Contains n ip = true).
Proof.
  intros (Hc & Hn & _)%NewValidator_started.
  assert (Hin : ∀ (A B : Type) (P : A → B → Prop) (l : list A) (l' : list B),
             Forall2 P l l' →
             (∀ y, In y l' → ∃ x, In x l ∧ P x y)
             ∧ (∀ x, In x l → ∃ y, In y l' ∧ P x y)).
  { intros A B P l l' H. induction H as [|x y l l' HP _ [IH1 IH2]].
    - split; intros ? [].
    - split.
      + intros y' [<-|Hy]; [exists x; split; [now left | assumption]|].
        destruct (IH1 _ Hy) as (x' & ? & ?). exists x'. split; [now right | assumption].
      + intros x' [<-|Hx]; [exists y; split; [now left | assumption]|].
        destruct (IH2 _ Hx) as (y' & ? & ?). exists y'. split; [now right | assumption]. }
  destruct (Hin _ _ _ _ _ Hc) as [Hc1 Hc2]. destruct (Hin _ _ _ _ _ Hn) as [Hn1 Hn2].
  split.
  - unfold UrlIsBlack. rewrite match_any_true. split.
    + intros (re & Hre & Hm). destruct (Hc1 _ Hre) as (exp & ? & ?). eauto.
    + intros (exp & re & Hexp & Hcomp & Hm). destruct (Hc2 _ Hexp) as (re' & ? & ?).
      exists re'. split; [assumption | congruence].
  - rewrite IsLocalIP_true. split.
    + intros [?|[?|[?|(n & Hin' & Hcont)]]]; auto.
      destruct (Hn1 _ Hin') as (s & ? & ?). right; right; right. eauto.
    + intros [?|[?|[?|(s & n & Hs & Hp & Hcont)]]]; auto.
      destruct (Hn2 _ Hs) as (n' & ? & ?). right; right; right.
      exists n'. split; [assumption | congruence].
Qed.

End Constructors.

(** ** Frames *)

Lemma touches_only_refl (key : string) (w : World) : touches_only key w w.
Proof. unfold touches_only. repeat split; try reflexivity; lia. Qed.

Lemma touches_only_trans (key : string) (w1 w2 w3 : World) :
  touches_only key w1 w2 → touches_only key w2 w3 → touches_only key w1 w3.
Proof.
  intros (N1 & C1 & K1 & E1 & D1 & M1 & V1) (N2 & C2 & K2 & E2 & D2 & M2 & V2).
  unfold touches_only. repeat split; try congruence; try lia.
  - intros k Hk. now rewrite M2, M1.
  - intros k Hk. now rewrite V2, V1.
Qed.

Lemma touches_reputation_only_trans (key : string) (w1 w2 w3 : World) :
  touches_reputation_only key w1 w2 → touches_reputation_only key w2 w3 →
  touches_reputation_only key w1 w3.
Proof.
  intros [T1 D1] [T2 D2]. split; [eapply touches_only_trans; eauto | congruence].
Qed.

Lemma frame_ret {A} (R : World → World → Prop) (a : A) :
  (∀ w, R w w) → frame R (ret a).
Proof. intros Hrefl w a' w' [= <- <-]. apply Hrefl. Qed.

Lemma frame_bind {A B} (R : World → World → Prop) (m : M A) (k : A → M B) :
  (∀ w1 w2 w3, R w1 w2 → R w2 w3 → R w1 w3) →
  frame R m → (∀ a, frame R (k a)) → frame R (bind m k).
Proof.
  intros Htrans Hm Hk w b w2 (a & w1 & Ha & Hb)%bind_Some.
  eapply Htrans; [eapply Hm, Ha | eapply Hk, Hb].
Qed.

Lemma frame_out_of_fuel {A} (R : World → World → Prop) : frame R (@out_of_fuel A).
Proof. intros w a w' [=]. Qed.

Lemma frame_weaken {A} (R R' : World → World → Prop) (m : M A) :
  (∀ w w', R w w' → R' w w') → frame R m → frame R' m.
Proof. intros HR Hm w a w' Hrun. eapply HR, Hm, Hrun. Qed.

(** The three relations the pipeline is followed with. *)
Lemma reputation_frame_respected (key : string) :
  lookup_steps_respect (touches_reputation_only key) key.
Proof.
  split; [intros w; split; [apply touches_only_refl | reflexivity]|].
  split; [apply touches_reputation_only_trans|].
  repeat split; intros; injection H as <- <-; cbn; try reflexivity; try lia;
    intros; now apply lookup_insert_ne.
Qed.

Lemma touches_only_respected (key : string) :
  lookup_steps_respect (touches_only key) key.
Proof.
  destruct (reputation_frame_respected key)
    as (_ & _ & Hlog & Hsleep & Hget & Hdns & Hcget & Hcset).
  split; [apply touches_only_refl|]. split; [apply touches_only_trans|].
  split; [intros l | split; [intros d | split; [intros url | split;
    [intros domain | split; [intros c k | intros x]]]]];
    (apply (frame_weaken (touches_reputation_only key));
     [intros ? ? [Ht _]; exact Ht|]); auto.
Qed.

Lemma expires_within_later (c : Cache) (now now' : Z) :
  now <= now' → expires_within c now → expires_within c now'.
Proof. intros Hle H k it Hit. specialize (H k it Hit). lia. Qed.

Lemma caches_in_order_elapse (d : Duration) (w : World) :
  caches_in_order w → caches_in_order (elapse d w).
Proof.
  intros (Hc & Hd & Hm & Hed & Hem). unfold caches_in_order. cbn.
  split; [lia|]. split; [assumption|]. split; [assumption|].
  split; apply (expires_within_later _ (clock w)); try assumption; lia.
Qed.

Lemma expires_within_Set' (c : Cache) (now : Z) (k : string) (x : bool) :
  0 <= now → 0 < defaultExpiration c →
  expires_within c now →
  expires_within (cache.Set' c now k x cache.DefaultExpiration) now.
Proof.
  intros Hnow Hpos H k' entry. unfold cache.Set'. cbn.
  destruct (Z.ltb_spec 0 (defaultExpiration c)); [|lia].
  destruct (decide (k = k')) as [->|Hne].
  - rewrite lookup_insert_eq. intros [= <-]. cbn. lia.
  - rewrite lookup_insert_ne by assumption. apply H.
Qed.

Lemma caches_in_order_Set (c : CacheRef) (k : string) (x : bool) (e : Event) (w : World) :
  caches_in_order w →
  caches_in_order
    (with_cache c (cache.Set' (cache_of c w) (clock w) k x cache.DefaultExpiration)
       (emit e w)).
Proof.
  intros (Hc & Hd & Hm & Hed & Hem). unfold caches_in_order.
  destruct c; cbn [with_cache cache_of clock emit v_DomainCache wl_memcache].
  - split; [assumption|]. split; [assumption|]. split; [exact Hm|].
    split; [assumption|]. apply expires_within_Set'; try assumption.
    rewrite Hm. reflexivity.
  - split; [assumption|]. split; [exact Hd|]. split; [assumption|].
    split; [|assumption]. apply expires_within_Set'; try assumption.
    rewrite Hd. reflexivity.
Qed.

Lemma caches_in_order_later (w w' : World) :
  clock w <= clock w' →
  v_DomainCache w' = v_DomainCache w → wl_memcache w' = wl_memcache w →
  caches_in_order w → caches_in_order w'.
Proof.
  intros Hle Hd Hm (Hc & Hdd & Hdm & Hed & Hem). unfold caches_in_order.
  rewrite Hd, Hm. split; [lia|]. split; [assumption|]. split; [assumption|].
  split; apply (expires_within_later _ (clock w)); assumption.
Qed.

Lemma caches_in_order_respected (key : string) :
  lookup_steps_respect keeps_caches_in_order key.
Proof.
  unfold keeps_caches_in_order.
  split; [auto|]. split; [auto|].
  split; [intros l | split; [intros d | split; [intros url | split;
    [intros domain | split; [intros c k | intros x]]]]];
    intros w a w' [= <- <-] Hw.
  1-5: apply (caches_in_order_later w); [cbn; lia | reflexivity | reflexivity | exact Hw].
  exact (caches_in_order_Set WhitelisterMemcache key x
           (EvCacheSet WhitelisterMemcache key x) w Hw).
Qed.

Section Lookups.

Context {L : GoLib}.

Section Respect.

Variables (R : World → World → Prop) (key : string).
Hypothesis HR : lookup_steps_respect R key.

Let R_refl := proj1 HR.
Let R_trans := proj1 (proj2 HR).
Let R_log := proj1 (proj2 (proj2 HR)).
Let R_sleep := proj1 (proj2 (proj2 (proj2 HR))).
Let R_http := proj1 (proj2 (proj2 (proj2 (proj2 HR)))).
Let R_dns := proj1 (proj2 (proj2 (proj2 (proj2 (proj2 HR))))).
Let R_cget := proj1 (proj2 (proj2 (proj2 (proj2 (proj2 (proj2 HR)))))).
Let R_cset := proj2 (proj2 (proj2 (proj2 (proj2 (proj2 (proj2 HR)))))).

Lemma frame_logged {A} (l : LogLine) (a : A) : frame R (log_Print l ;; ret a).
Proof.
  apply frame_bind; [exact R_trans | apply R_log | intros _; now apply frame_ret].
Qed.

Lemma frame_one_try (checker : Whitelister) fnc decode url try :
  frame R (one_try checker fnc decode url key try).
Proof.
  unfold one_try. apply frame_bind; [exact R_trans | |intros _].
  - destruct (1 <? try); [destruct (0 <? _)|]; try (now apply frame_ret).
    apply frame_bind; [exact R_trans | apply R_log | intros _; apply R_sleep].
  - apply frame_bind; [exact R_trans | apply R_http |].
    intros [resp|err]; [|apply frame_logged].
    destruct (Body resp) as [body|err]; [|apply frame_logged].
    destruct (negb _); [apply frame_logged|].
    destruct (decode body); [|apply frame_logged].
    apply frame_bind; [exact R_trans | apply R_cset | intros _; now apply frame_ret].
Qed.

Lemma frame_tries (checker : Whitelister) fnc decode url :
  ∀ fuel try msg, frame R (tries checker fnc decode url key fuel try msg).
Proof.
  induction fuel as [|fuel IH]; intros try msg; rewrite tries_unfold;
    destruct (try <=? maxTries checker);
    try (now apply frame_ret); try apply frame_out_of_fuel.
  apply frame_bind; [exact R_trans | apply frame_one_try |].
  intros [isWhite|f]; [now apply frame_ret | apply IH].
Qed.

Lemma frame_after_tries (fnc : string) (mt : Z)
    (r : option bool * option TryFailure) :
  frame R
    match r with
    | (Some isWhite, _) => ret (isWhite, None : option error)
    | (None, msg) => log_Print (Log_wl_no_result fnc mt msg) ;; ret (false, None)
    end.
Proof. destruct r as [[isWhite|] msg]; [now apply frame_ret | apply frame_logged]. Qed.

Lemma frame_DomainIsWhite (checker : Whitelister) (fuel : nat) :
  frame R (DomainIsWhite checker fuel key).
Proof.
  unfold DomainIsWhite. destruct (net_ParseIP key); [now apply frame_ret|].
  apply frame_bind; [exact R_trans | apply R_cget |].
  intros [isWhite|]; [now apply frame_ret|].
  apply frame_bind; [exact R_trans | apply frame_tries | apply frame_after_tries].
Qed.

Lemma frame_IpIsWhite (checker : Whitelister) (fuel : nat) :
  frame R (IpIsWhite checker fuel key).
Proof.
  unfold IpIsWhite.
  apply frame_bind; [exact R_trans | apply R_cget |].
  intros [isWhite|]; [now apply frame_ret|].
  apply frame_bind; [exact R_trans | apply frame_tries | apply frame_after_tries].
Qed.

Lemma frame_GetDomainIP (checker : IpChecker) :
  frame R (GetDomainIP checker key).
Proof.
  unfold GetDomainIP. destruct (DomainIsIP checker key); [now apply frame_ret|].
  apply frame_bind; [exact R_trans | apply R_dns |].
  intros [[|ip ips]|err]; apply frame_logged.
Qed.

Lemma frame_DomainRequiresProcessing (v : Validator) (fuel : nat) :
  frame R (DomainRequiresProcessing v fuel key).
Proof.
  unfold DomainRequiresProcessing, ip_literal_requires_processing.
  destruct (DomainIsIP _ _).
  - destruct (GetNetIP _ _); [|apply frame_logged].
    destruct (IsLocalIP _ _); [apply frame_logged|].
    apply frame_bind; [exact R_trans | apply frame_IpIsWhite |].
    intros [isWhite [err|]]; [now apply frame_ret|].
    apply frame_bind; [exact R_trans | | intros _; now apply frame_ret].
    destruct isWhite; [apply R_log | now apply frame_ret].
  - apply frame_bind; [exact R_trans | apply frame_DomainIsWhite |].
    intros [isWhite [err|]]; [now apply frame_ret|].
    destruct isWhite; [apply frame_logged|].
    apply frame_bind; [exact R_trans | apply frame_GetDomainIP |].
    intros [ip [err|]]; [apply frame_logged | now apply frame_ret].
Qed.

End Respect.

(** X6: a reputation lookup leaves the decision cache, the oracles and the
    expiry settings as they are, changes no entry of the reputation cache
    except, possibly, the one of the key it looks up, and never moves the
    clock or the count of network interactions back. *)
Theorem lookup_touches_only_its_key (checker : Whitelister) (fuel : nat)
    (key : string) (w w' : World) (r : bool * option error) :
  DomainIsWhite checker fuel key w = Some (r, w')
  ∨ IpIsWhite checker fuel key w = Some (r, w') →
  touches_reputation_only key w w'.
Proof.
  intros [H|H];
    [ eapply (frame_DomainIsWhite _ _ (reputation_frame_respected key)), H
    | eapply (frame_IpIsWhite _ _ (reputation_frame_respected key)), H ].
Qed.

(** *** A try that gets its answer *)

Section Won.

Variables (checker : Whitelister) (fnc : string) (decode : string → option bool).
Variables (url key : string).

Lemma one_try_won (try : Z) (w : World) (b : bool) :
  try_succeeds decode (http_reply (net w) (net_calls w) url) b →
  ∃ w' new,
    one_try checker fnc decode url key try w = Some (inl b, w')
    ∧ trace w' = trace w ++ new
    ∧ retry_events new = pause checker try ++ [EvHttpGet url]
    ∧ items (wl_memcache w') !! key
      = Some {| Object := b;
                Expiration := if 0 <? defaultExpiration (wl_memcache w)
                              then clock w' + defaultExpiration (wl_memcache w)
                              else 0 |}
    ∧ defaultExpiration (wl_memcache w') = defaultExpiration (wl_memcache w).
Proof.
  intros (resp & body & Hr & Hb & Hs & Hd).
  unfold one_try, pause, bind, http_Get, log_Print, time_Sleep, cache_Set, ret.
  destruct (1 <? try); [destruct (0 <? _)|]; cbn [net net_calls emit elapse answered];
    rewrite Hr, Hb, Hs, Hd; cbn;
    eexists _, _; (split; [reflexivity|]); cbn;
    rewrite <- ?app_assoc; (repeat split; try reflexivity);
    apply lookup_insert_eq.
Qed.

Lemma tries_won (b : bool) (j : nat) :
  maxTries checker <= Int64.MaxInt64 →
  ∀ fuel try msg w,
    1 <= try →
    try + Z.of_nat j <= maxTries checker →
    (j < fuel)%nat →
    all_tries_fail decode url j w →
    try_succeeds decode (http_reply (net w) (net_calls w + j) url) b →
    ∃ msg' w' new,
      tries checker fnc decode url key fuel try msg w = Some ((Some b, msg'), w')
      ∧ trace w' = trace w ++ new
      ∧ retry_events new = retry_schedule checker url try (S j)
      ∧ items (wl_memcache w') !! key
        = Some {| Object := b;
                  Expiration := if 0 <? defaultExpiration (wl_memcache w)
                                then clock w' + defaultExpiration (wl_memcache w)
                                else 0 |}
      ∧ defaultExpiration (wl_memcache w') = defaultExpiration (wl_memcache w).
Proof.
  intros Hmax.
  induction j as [|j IH]; intros fuel try msg w Hlo Hj Hfuel Hfail Hwin;
    rewrite tries_unfold;
    (destruct (Z.leb_spec try (maxTries checker)); [|lia]);
    (destruct fuel as [|fuel]; [lia|]).
  - rewrite Nat.add_0_r in Hwin.
    destruct (one_try_won try w b Hwin) as (w' & new & E & Htr & Hev & Hit & Hde).
    rewrite (bind_run _ _ _ _ _ E). exists msg, w', new.
    split; [reflexivity|]. repeat split; assumption.
  - destruct (one_try_lost checker fnc decode url key try w)
      as (f & w1 & new1 & E & Htr & Hev & Hnet & Hcalls & Hm & Hd).
    { specialize (Hfail 0%nat). rewrite Nat.add_0_r in Hfail. apply Hfail. lia. }
    rewrite (bind_run _ _ _ _ _ E), succ_in_range by (unfold Int64.MinInt64; lia).
    destruct (IH fuel (try + 1) (Some f) w1)
      as (msg' & w' & new & E' & Htr' & Hev' & Hit & Hde); [lia | lia | lia | | |].
    { intros i Hi. rewrite Hnet, Hcalls.
      replace (S (net_calls w) + i)%nat with (net_calls w + S i)%nat by lia.
      apply Hfail. lia. }
    { rewrite Hnet, Hcalls.
      now replace (S (net_calls w) + j)%nat with (net_calls w + S j)%nat by lia. }
    exists msg', w', (new1 ++ new). split; [exact E'|].
    split; [now rewrite Htr', Htr, app_assoc|].
    split; [|rewrite Hm in *; now split].
    unfold retry_events in *. rewrite List.filter_app, Hev, Hev'.
    cbn [retry_schedule]. now rewrite <- app_assoc.
Qed.

End Won.

Lemma Get_miss_later (c : Cache) (now now' : Z) (k : string) :
  cache.Get c now k = None → now <= now' → cache.Get c now' k = None.
Proof.
  unfold cache.Get, cache.Expired. destruct (items c !! k) as [it|]; [|reflexivity].
  destruct (Z.ltb_spec 0 (Expiration it)); cbn; [|discriminate].
  destruct (Z.ltb_spec (Expiration it) now); [|discriminate].
  intros _ Hle. destruct (Z.ltb_spec (Expiration it) now'); [reflexivity | lia].
Qed.

Lemma Get_fresh (c : Cache) (now : Z) (k : string) (b : bool) (it : Item) :
  items c !! k = Some it → Object it = b →
  Expiration it = (if 0 <? defaultExpiration c then now + defaultExpiration c else 0) →
  ∀ later, now <= later →
    later <= now + defaultExpiration c ∨ defaultExpiration c <= 0 →
    cache.Get c later k = Some b.
Proof.
  intros Hit <- Hexp later Hle Hin. unfold cache.Get, cache.Expired.
  rewrite Hit, Hexp.
  destruct (Z.ltb_spec 0 (defaultExpiration c)); [|reflexivity].
  destruct (Z.ltb_spec (now + defaultExpiration c) later); [lia|].
  now rewrite andb_false_r.
Qed.

(** A hit in the reputation cache. *)
Lemma DomainIsWhite_hit (checker : Whitelister) fuel host w b :
  net_ParseIP host = None →
  cache.Get (wl_memcache w) (clock w) host = Some b →
  DomainIsWhite checker fuel host w
  = Some ((b, None), emit (EvCacheGet WhitelisterMemcache host) w).
Proof.
  intros Hname Hget. unfold DomainIsWhite. rewrite Hname.
  unfold bind, cache_Get. cbn [cache_of]. now rewrite Hget.
Qed.

Lemma IpIsWhite_hit (checker : Whitelister) fuel host w b :
  cache.Get (wl_memcache w) (clock w) host = Some b →
  IpIsWhite checker fuel host w
  = Some ((b, None), emit (EvCacheGet WhitelisterMemcache host) w).
Proof.
  intros Hget. unfold IpIsWhite.
  unfold bind, cache_Get. cbn [cache_of]. now rewrite Hget.
Qed.

(** After a miss, [j] lost tries and one that is answered [b]. *)
Lemma lookup_won (checker : Whitelister) (fnc : string)
    (decode : string → option bool) (url key : string) (fuel j : nat)
    (b : bool) (w : World) :
  maxTries checker <= Int64.MaxInt64 →
  Z.of_nat j < maxTries checker →
  (j < fuel)%nat →
  all_tries_fail decode url j w →
  try_succeeds decode (http_reply (net w) (net_calls w + j) url) b →
  ∃ w' new,
    (r <- tries checker fnc decode url key fuel 1 None ;;
     match r with
     | (Some isWhite, _) => ret (isWhite, None)
     | (None, msg) =>
         log_Print (Log_wl_no_result fnc (maxTries checker) msg) ;;
         ret (false, None : option error)
     end) w = Some ((b, None), w')
    ∧ trace w' = trace w ++ new
    ∧ requests new = S j
    ∧ ∀ later, clock w' <= later →
        later <= clock w' + defaultExpiration (wl_memcache w)
        ∨ defaultExpiration (wl_memcache w) <= 0 →
        cache.Get (wl_memcache w') later key = Some b.
Proof.
  intros Hmax Hj Hfuel Hfail Hwin.
  destruct (tries_won checker fnc decode url key b j Hmax fuel 1 None w)
    as (msg' & w' & new & E & Htr & Hev & Hit & Hde); try assumption; try lia.
  rewrite (bind_run _ _ _ _ _ E). exists w', new.
  split; [reflexivity|]. split; [exact Htr|]. split.
  - rewrite <- requests_retry_events, Hev. apply requests_retry_schedule.
  - intros later Hle Hin. eapply Get_fresh; eauto; rewrite Hde; [reflexivity | exact Hin].
Qed.

Lemma Get_same_entry (c c' : Cache) (now : Z) (k : string) :
  items c' !! k = items c !! k → cache.Get c' now k = cache.Get c now k.
Proof. unfold cache.Get. now intros ->. Qed.

(** X7: a lookup that misses the reputation cache, loses its first [j]
    tries and gets the answer [b] on the next one (with [j] below the retry
    count) returns (b, nil) after exactly [j + 1] requests and stores the
    answer.  A later lookup for the same key, made while the cache still
    holds that entry and the default expiry of the cache has not run out,
    returns (b, nil) with nothing but the cache read behind it: no request,
    whatever the state of the service. *)
Theorem lookup_answer_is_cached (checker : Whitelister) (fuel j : nat)
    (host : string) (b : bool) (w : World) :
  maxTries checker <= Int64.MaxInt64 →
  Z.of_nat j < maxTries checker →
  (j < fuel)%nat →
  cache.Get (wl_memcache w) (clock w) host = None →
  (net_ParseIP host = None →
   all_tries_fail decode_domain (fmt_Sprintf1 (checkDomainApiUrl checker) host) j w →
   try_succeeds decode_domain
     (http_reply (net w) (net_calls w + j)
        (fmt_Sprintf1 (checkDomainApiUrl checker) host)) b →
   ∃ w' new,
     DomainIsWhite checker fuel host w = Some ((b, None), w')
     ∧ trace w' = trace w ++ new
     ∧ requests new = S j
     ∧ ∀ fuel2 w2,
         items (wl_memcache w2) !! host = items (wl_memcache w') !! host →
         clock w' <= clock w2 →
         clock w2 <= clock w' + defaultExpiration (wl_memcache w)
         ∨ defaultExpiration (wl_memcache w) <= 0 →
         DomainIsWhite checker fuel2 host w2
         = Some ((b, None), emit (EvCacheGet WhitelisterMemcache host) w2))
  ∧ (all_tries_fail decode_ip (fmt_Sprintf1 (checkIpApiUrl checker) host) j w →
     try_succeeds decode_ip
       (http_reply (net w) (net_calls w + j)
          (fmt_Sprintf1 (checkIpApiUrl checker) host)) b →
     ∃ w' new,
       IpIsWhite checker fuel host w = Some ((b, None), w')
       ∧ trace w' = trace w ++ new
       ∧ requests new = S j
       ∧ ∀ fuel2 w2,
           items (wl_memcache w2) !! host = items (wl_memcache w') !! host →
           clock w' <= clock w2 →
           clock w2 <= clock w' + defaultExpiration (wl_memcache w)
           ∨ defaultExpiration (wl_memcache w) <= 0 →
           IpIsWhite checker fuel2 host w2
           = Some ((b, None), emit (EvCacheGet WhitelisterMemcache host) w2)).
Proof.
  intros Hmax Hj Hfuel Hmiss. split.
  - intros Hname Hfail Hwin.
    destruct (lookup_won checker "wl check domain" decode_domain
                (fmt_Sprintf1 (checkDomainApiUrl checker) host) host fuel j b
                (emit (EvCacheGet WhitelisterMemcache host) w))
      as (w' & new & E & Htr & Hreq & Hget); try assumption.
    exists w', (EvCacheGet WhitelisterMemcache host :: new).
    split; [|split; [|split; [exact Hreq|]]].
    + unfold DomainIsWhite. rewrite Hname. unfold bind at 1, cache_Get.
      cbn [cache_of]. rewrite Hmiss. exact E.
    + rewrite Htr. cbn. now rewrite <- app_assoc.
    + intros fuel2 w2 Hsame Hle Hin. apply DomainIsWhite_hit; [exact Hname|].
      rewrite (Get_same_entry _ _ _ _ Hsame). now apply Hget.
  - intros Hfail Hwin.
    destruct (lookup_won checker "wl check ip" decode_ip
                (fmt_Sprintf1 (checkIpApiUrl checker) host) host fuel j b
                (emit (EvCacheGet WhitelisterMemcache host) w))
      as (w' & new & E & Htr & Hreq & Hget); try assumption.
    exists w', (EvCacheGet WhitelisterMemcache host :: new).
    split; [|split; [|split; [exact Hreq|]]].
    + unfold IpIsWhite. unfold bind at 1, cache_Get.
      cbn [cache_of]. rewrite Hmiss. exact E.
    + rewrite Htr. cbn. now rewrite <- app_assoc.
    + intros fuel2 w2 Hsame Hle Hin. apply IpIsWhite_hit.
      rewrite (Get_same_entry _ _ _ _ Hsame). now apply Hget.
Qed.

(** X8: a lookup that gives up stores nothing: both caches are what they
    were, and the key still misses the reputation cache when the lookup
    returns, so the next lookup for it goes to the service again. *)
Theorem lost_lookup_is_not_cached (checker : Whitelister) (fuel : nat)
    (host : string) (w : World) :
  0 <= maxTries checker < Int64.MaxInt64 →
  (Z.to_nat (maxTries checker) ≤ fuel)%nat →
  cache.Get (wl_memcache w) (clock w) host = None →
  (net_ParseIP host = None →
   all_tries_fail decode_domain (fmt_Sprintf1 (checkDomainApiUrl checker) host)
     (Z.to_nat (maxTries checker)) w →
   ∃ w', DomainIsWhite checker fuel host w = Some ((false, None), w')
         ∧ wl_memcache w' = wl_memcache w
         ∧ v_DomainCache w' = v_DomainCache w
         ∧ cache.Get (wl_memcache w') (clock w') host = None)
  ∧ (all_tries_fail decode_ip (fmt_Sprintf1 (checkIpApiUrl checker) host)
       (Z.to_nat (maxTries checker)) w →
     ∃ w', IpIsWhite checker fuel host w = Some ((false, None), w')
           ∧ wl_memcache w' = wl_memcache w
           ∧ v_DomainCache w' = v_DomainCache w
           ∧ cache.Get (wl_memcache w') (clock w') host = None).
Proof.
  intros Hm Hfuel Hmiss.
  assert (Hgen : ∀ fnc decode url,
             all_tries_fail decode url (Z.to_nat (maxTries checker)) w →
             ∃ w',
               (r <- tries checker fnc decode url host fuel 1 None ;;
                match r with
                | (Some isWhite, _) => ret (isWhite, None)
                | (None, msg) =>
                    log_Print (Log_wl_no_result fnc (maxTries checker) msg) ;;
                    ret (false, None : option error)
                end) (emit (EvCacheGet WhitelisterMemcache host) w)
               = Some ((false, None), w')
               ∧ wl_memcache w' = wl_memcache w
               ∧ v_DomainCache w' = v_DomainCache w
               ∧ clock w <= clock w').
  { intros fnc decode url Hfail.
    destruct (tries_exhausted checker fnc decode url host (Z.to_nat (maxTries checker)))
      with (fuel := fuel) (try := 1) (msg := @None TryFailure)
           (w := emit (EvCacheGet WhitelisterMemcache host) w)
      as (msg' & w1 & new & E & Htr & Hev & Hmem & Hdom); try lia; try assumption.
    pose proof (frame_tries _ _ (reputation_frame_respected host)
                  checker fnc decode url fuel 1 None _ _ _ E)
      as [(_ & Hclock & _) _].
    rewrite (bind_run _ _ _ _ _ E). unfold bind, log_Print, ret.
    eexists. split; [reflexivity|]. cbn. repeat split; assumption. }
  split.
  - intros Hname Hfail. destruct (Hgen "wl check domain" _ _ Hfail)
      as (w' & E & Hmem & Hdom & Hclock).
    exists w'. split; [|split; [exact Hmem | split; [exact Hdom|]]].
    + unfold DomainIsWhite. rewrite Hname. unfold bind at 1, cache_Get.
      cbn [cache_of]. rewrite Hmiss. exact E.
    + rewrite Hmem. eapply Get_miss_later; eauto.
  - intros Hfail. destruct (Hgen "wl check ip" _ _ Hfail)
      as (w' & E & Hmem & Hdom & Hclock).
    exists w'. split; [|split; [exact Hmem | split; [exact Hdom|]]].
    + unfold IpIsWhite. unfold bind at 1, cache_Get.
      cbn [cache_of]. rewrite Hmiss. exact E.
    + rewrite Hmem. eapply Get_miss_later; eauto.
Qed.

(** ** The resolver *)

(** X9: GetDomainIP hands an IP literal back as it is, with no lookup; for a
    name it makes one DNS lookup and returns the first address of the
    answer, or an error when the lookup fails or the answer is empty.
    DomainHasARecord is true for a literal without any lookup and for a name
    exactly when that one lookup yields an address. *)
Theorem resolver_answers (v : Validator) (domain : string) (w : World) :
  (∀ ip, net_ParseIP domain = Some ip →
     GetDomainIP (v_IpChecker v) domain w = Some ((domain, None), w)
     ∧ DomainHasARecord v domain w = Some (true, w))
  ∧ (net_ParseIP domain = None →
     ∃ w' l,
       trace w' = trace w ++ [EvLookupHost domain; EvLog l]
       ∧ net_calls w' = S (net_calls w)
       ∧ GetDomainIP (v_IpChecker v) domain w
         = Some (match dns_reply (net w) (net_calls w) domain with
                 | inl (first :: _) => (first, None)
                 | inl [] => ("", Some "empty list of a-records received")
                 | inr err => ("", Some err)
                 end, w')
       ∧ ∃ w'', DomainHasARecord v domain w = Some (has_a_record domain w, w'')
                ∧ net_calls w'' = S (net_calls w)).
Proof.
  split.
  - intros ip Hip. unfold DomainHasARecord, GetDomainIP, DomainIsIP, GetNetIP, bind, ret.
    now rewrite Hip.
  - intros Hname.
    unfold DomainHasARecord, GetDomainIP, DomainIsIP, GetNetIP, has_a_record,
      bind, net_LookupHost, log_Print, ret.
    rewrite Hname.
    destruct (dns_reply (net w) (net_calls w) domain) as [[|first rest]|err];
      eexists _, _;
      ((split; [|split; [|split; [reflexivity|]]]);
       [cbn; rewrite <- app_assoc; reflexivity | reflexivity
       | eexists; split; reflexivity]).
Qed.

(** ** The orchestrator, further *)

(** X10: DomainIsWhiteListed asks the IP endpoint for an IP literal and the
    domain endpoint for anything else, and hands that answer back as it is;
    its own error returns are dead. *)
Theorem DomainIsWhiteListed_dispatches (v : Validator) (fuel : nat)
    (domain : string) (w : World) :
  DomainIsWhiteListed v fuel domain w
  = (if DomainIsIP (v_IpChecker v) domain
     then IpIsWhite (v_Whitelister v) fuel domain
     else DomainIsWhite (v_Whitelister v) fuel domain) w
  ∧ ∀ r w', DomainIsWhiteListed v fuel domain w = Some (r, w') → snd r = None.
Proof.
  assert (E : DomainIsWhiteListed v fuel domain w
              = (if DomainIsIP (v_IpChecker v) domain
                 then IpIsWhite (v_Whitelister v) fuel domain
                 else DomainIsWhite (v_Whitelister v) fuel domain) w).
  { unfold DomainIsWhiteListed. destruct (DomainIsIP _ _); unfold bind.
    - destruct (IpIsWhite _ _ _ _) as [[[b err] w']|] eqn:E; [|reflexivity].
      apply IpIsWhite_nil_error in E. cbn in E. now subst err.
    - destruct (DomainIsWhite _ _ _ _) as [[[b err] w']|] eqn:E; [|reflexivity].
      apply DomainIsWhite_nil_error in E. cbn in E. now subst err. }
  split; [exact E|]. rewrite E. intros r w'.
  destruct (DomainIsIP _ _); [apply IpIsWhite_nil_error | apply DomainIsWhite_nil_error].
Qed.

(** X11: ParseDomain succeeds exactly for a URL that is not empty, parses,
    and has a hostname that is not empty; the domain is then that hostname
    and the full domain is scheme://hostname, for a literal address as for a
    name.  It fails exactly otherwise. *)
Theorem ParseDomain_succeeds_exactly (v : Validator) (url full domain : string) :
  (ParseDomain v url = (full, domain, None) ↔
     url ≠ "" ∧ domain ≠ ""
     ∧ ∃ u, url_Parse url = inl u ∧ URL_Hostname u = domain
            ∧ full = String.append (URL_Scheme u) (String.append "://" domain))
  ∧ (snd (ParseDomain v url) ≠ None ↔
       url = "" ∨ (∃ err, url_Parse url = inr err)
       ∨ (∃ u, url_Parse url = inl u ∧ URL_Hostname u = "")).
Proof.
  unfold ParseDomain, getFullDomain.
  destruct (String.eqb_spec url "") as [->|Hurl].
  { split; split.
    - discriminate.
    - intros ([] & _). reflexivity.
    - now left.
    - discriminate. }
  destruct (url_Parse url) as [u|err] eqn:Hp.
  2:{ split; split.
      - discriminate.
      - intros (_ & _ & u & [=] & _).
      - right; left; eauto.
      - discriminate. }
  destruct (String.eqb_spec (URL_Hostname u) "") as [Hh|Hh].
  { split; split.
    - discriminate.
    - intros (_ & Hd & u' & [= <-] & Hu & _). congruence.
    - right; right; eauto.
    - discriminate. }
  split; split.
  - destruct (DomainIsIP _ _); intros [= <- <-]; repeat split; eauto.
  - intros (_ & _ & u' & [= <-] & <- & ->). now destruct (DomainIsIP _ _).
  - destruct (DomainIsIP _ _); cbn; congruence.
  - intros [?|[(err & [=])|(u' & [= <-] & ?)]]; congruence.
Qed.

(** X12: a URL that is not blacklisted and whose domain does not parse (an
    empty URL, a parse error, an empty hostname) is answered (false, err)
    with one log line and nothing else: no cache is read or written and no
    network interaction takes place. *)
Theorem unparsable_url_is_an_error (v : Validator) (fuel : nat) (url : string)
    (w : World) :
  UrlIsBlack (v_UrlBlacklister v) url = false →
  url = "" ∨ (∃ err, url_Parse url = inr err)
  ∨ (∃ u, url_Parse url = inl u ∧ URL_Hostname u = "") →
  ∃ err, UrlRequiresProcessing v fuel url w
         = Some ((false, Some err), emit (EvLog (Log_parse_domain_fail url err)) w).
Proof.
  intros Hbl Hbad. unfold UrlRequiresProcessing. rewrite Hbl.
  assert (Herr : snd (ParseDomain v url) ≠ None).
  { unfold ParseDomain.
    destruct Hbad as [->|[(err & Hp)|(u & Hp & Hh)]]; [cbn; discriminate| |].
    - destruct (String.eqb url ""); [discriminate|]. rewrite Hp. discriminate.
    - destruct (String.eqb url ""); [discriminate|]. rewrite Hp, Hh. discriminate. }
  destruct (ParseDomain v url) as [[full domain] [err|]]; [|now cbn in Herr].
  exists err. reflexivity.
Qed.

(** X13: for an IP literal that is not local, the decision is the negation
    of the answer of IpIsWhite, with a nil error; no DNS lookup is made
    during the call. *)
Theorem ip_literal_decision_follows_reputation (v : Validator) (fuel : nat)
    (domain : string) (ip : IP) (w w1 : World) (isWhite : bool) :
  net_ParseIP domain = Some ip →
  IsLocalIP (v_IpChecker v) ip = false →
  IpIsWhite (v_Whitelister v) fuel domain w = Some ((isWhite, None), w1) →
  ∃ w' new,
    DomainRequiresProcessing v fuel domain w = Some ((negb isWhite, None), w')
    ∧ trace w' = trace w ++ new
    ∧ Forall no_lookup new.
Proof.
  intros Hip Hlocal Hwl.
  destruct (IpIsWhite_appends _ _ _ _ _ _ Hwl) as (new & Htr & Hall).
  assert (Hall' : Forall no_lookup new).
  { eapply Forall_impl; [exact Hall|]. now intros []. }
  unfold DomainRequiresProcessing, ip_literal_requires_processing, DomainIsIP, GetNetIP.
  rewrite Hip, Hlocal, (bind_run _ _ _ _ _ Hwl).
  destruct isWhite; unfold bind, log_Print, ret.
  - eexists _, (new ++ [_]). split; [reflexivity|]. split.
    + cbn. now rewrite Htr, app_assoc.
    + apply Forall_app. split; [assumption | now repeat constructor].
  - eexists _, new. split; [reflexivity|]. now split.
Qed.

(** X14: a domain is found to require processing only after every check:
    either it is an IP literal that is not local and that IpIsWhite has just
    answered false for, or it is a name that DomainIsWhite has just answered
    false for and that the resolver then had an address for. *)
Theorem admitted_domain_passed_every_check (v : Validator) (fuel : nat)
    (domain : string) (w w' : World) :
  DomainRequiresProcessing v fuel domain w = Some ((true, None), w') →
  (∃ ip w1, net_ParseIP domain = Some ip
            ∧ IsLocalIP (v_IpChecker v) ip = false
            ∧ IpIsWhite (v_Whitelister v) fuel domain w = Some ((false, None), w1))
  ∨ (net_ParseIP domain = None
     ∧ ∃ w1, DomainIsWhite (v_Whitelister v) fuel domain w = Some ((false, None), w1)
             ∧ has_a_record domain w1 = true).
Proof.
  unfold DomainRequiresProcessing, ip_literal_requires_processing.
  destruct (DomainIsIP (v_IpChecker v) domain) eqn:Hip.
  - unfold DomainIsIP, GetNetIP in *. destruct (net_ParseIP domain) as [ip|]; [|discriminate].
    destruct (IsLocalIP _ _) eqn:Hlocal.
    + unfold bind, log_Print, ret. discriminate.
    + intros ([isWhite err] & w1 & Hwl & H)%bind_Some.
      pose proof (IpIsWhite_nil_error _ _ _ _ _ _ Hwl) as Hnil. cbn in Hnil. subst err.
      apply bind_Some in H as (? & w2 & _ & H). injection H as Hb _.
      destruct isWhite; [discriminate|]. left. eauto.
  - intros ([isWhite err] & w1 & Hwl & H)%bind_Some.
    pose proof (DomainIsWhite_nil_error _ _ _ _ _ _ Hwl) as Hnil. cbn in Hnil. subst err.
    destruct isWhite; [unfold bind, log_Print, ret in H; discriminate|].
    right. split; [unfold DomainIsIP, GetNetIP in Hip; now destruct (net_ParseIP domain)|].
    exists w1. split; [exact Hwl|].
    destruct (GetDomainIP_name (v_IpChecker v) domain w1 Hip) as (a & err & w2 & E & Herr).
    rewrite (bind_run _ _ _ _ _ E) in H. destruct err.
    + unfold bind, log_Print, ret in H. discriminate.
    + now apply Herr.
Qed.

(** X15: DomainRequiresProcessing never writes a decision: the decision
    cache is the same before and after, and of the reputation cache only the
    entry of the domain can have changed. *)
Theorem DomainRequiresProcessing_leaves_decisions (v : Validator) (fuel : nat)
    (domain : string) (w w' : World) (r : bool * option error) :
  DomainRequiresProcessing v fuel domain w = Some (r, w') →
  touches_reputation_only domain w w'.
Proof.
  apply (frame_DomainRequiresProcessing _ _ (reputation_frame_respected domain)).
Qed.

Lemma frame_DomainCache_Set (key : string) (x : bool) :
  frame (touches_only key) (cache_Set ValidatorDomainCache key x cache.DefaultExpiration).
Proof.
  intros w a w' [= <- <-]. unfold touches_only, cache.Set'. cbn.
  split; [reflexivity|]. split; [lia|]. split; [lia|].
  split; [reflexivity|]. split; [reflexivity|]. split; [reflexivity|].
  intros k Hk. now rewrite lookup_insert_ne by congruence.
Qed.

Lemma frame_UrlRequiresProcessing (R : World → World → Prop) (v : Validator)
    (fuel : nat) (url : string) :
  lookup_steps_respect R (snd (fst (ParseDomain v url))) →
  (∀ x, frame R (cache_Set ValidatorDomainCache (snd (fst (ParseDomain v url))) x
                   cache.DefaultExpiration)) →
  frame R (UrlRequiresProcessing v fuel url).
Proof.
  intros HR Hset.
  pose proof HR as (Hrefl & Htrans & Hlog & _ & _ & _ & Hcget & _).
  unfold UrlRequiresProcessing.
  destruct (UrlIsBlack _ _); [now apply (frame_logged _ _ HR)|].
  destruct (ParseDomain v url) as [[full domain] [err|]]; cbn [fst snd] in *;
    [now apply (frame_logged _ _ HR)|].
  apply frame_bind; [exact Htrans | apply Hcget |].
  intros [b|]; [now apply frame_ret|].
  apply frame_bind; [exact Htrans | now apply frame_DomainRequiresProcessing |].
  intros [b [err|]]; [now apply (frame_logged _ _ HR)|].
  apply frame_bind; [exact Htrans | apply Hset | intros _; now apply frame_ret].
Qed.

Lemma UrlRequiresProcessing_frame (v : Validator) (fuel : nat) (url : string) :
  frame (touches_only (snd (fst (ParseDomain v url)))) (UrlRequiresProcessing v fuel url).
Proof.
  apply frame_UrlRequiresProcessing; [apply touches_only_respected|].
  intros x. apply frame_DomainCache_Set.
Qed.

(** X16: UrlRequiresProcessing changes no cache entry other than the ones
    of the URL's own domain, in either cache; it leaves the oracles and the
    expiry settings alone and never moves the clock back.  For a blacklisted
    URL or one whose domain does not parse, both caches stay as they were
    and no network interaction takes place. *)
Theorem UrlRequiresProcessing_touches_only_its_domain (v : Validator) (fuel : nat)
    (url : string) (w w' : World) (r : bool * option error) :
  UrlRequiresProcessing v fuel url w = Some (r, w') →
  touches_only (snd (fst (ParseDomain v url))) w w'
  ∧ (UrlIsBlack (v_UrlBlacklister v) url = true ∨ snd (ParseDomain v url) ≠ None →
     wl_memcache w' = wl_memcache w ∧ v_DomainCache w' = v_DomainCache w
     ∧ net_calls w' = net_calls w ∧ clock w' = clock w).
Proof.
  intros Hrun. split.
  - exact (UrlRequiresProcessing_frame v fuel url _ _ _ Hrun).
  - revert Hrun. unfold UrlRequiresProcessing.
    destruct (UrlIsBlack _ _).
    { unfold bind, log_Print, ret. intros [= _ <-] _. now cbn. }
    destruct (ParseDomain v url) as [[full domain] [err|]]; cbn [snd].
    { unfold bind, log_Print, ret. intros [= _ <-] _. now cbn. }
    intros _ [?|?]; congruence.
Qed.

(** X17: asking again is free.  Whatever UrlRequiresProcessing answered for
    a URL, a second call with the same URL in the world the first one left
    returns the same answer without any request to the reputation service
    and without any DNS lookup. *)
Theorem repeated_call_stays_off_the_network (v : Validator) (fuel fuel' : nat)
    (url : string) (w w1 : World) (r : bool * option error) :
  UrlRequiresProcessing v fuel url w = Some (r, w1) →
  ∃ w2 new,
    UrlRequiresProcessing v fuel' url w1 = Some (r, w2)
    ∧ trace w2 = trace w1 ++ new
    ∧ Forall off_the_network new
    ∧ net_calls w2 = net_calls w1.
Proof.
  intros Hrun.
  destruct (UrlIsBlack (v_UrlBlacklister v) url) eqn:Hbl.
  { revert Hrun. unfold UrlRequiresProcessing. rewrite Hbl.
    unfold bind, log_Print, ret. intros [= <- <-].
    eexists _, [_]. split; [reflexivity|]. now repeat constructor. }
  destruct (ParseDomain v url) as [[full domain] [err|]] eqn:Hp.
  { revert Hrun. unfold UrlRequiresProcessing. rewrite Hbl, Hp.
    unfold bind, log_Print, ret. intros [= <- <-].
    eexists _, [_]. split; [reflexivity|]. now repeat constructor. }
  pose proof (proj1 (UrlRequiresProcessing_error _ _ _ _ _ _ Hrun)) as Herr.
  destruct r as [b [err|]].
  { exfalso. destruct Herr as [_ Herr]; [discriminate|]. rewrite Hp in Herr. now apply Herr. }
  destruct (UrlRequiresProcessing_leaves_entry _ _ _ _ _ _ _ _ Hbl Hp Hrun)
    as (it & Hit & <- & Hexp & _).
  rewrite (UrlRequiresProcessing_hit _ fuel' _ _ _ _ _ Hbl Hp Hit Hexp).
  eexists _, [_]. split; [reflexivity|]. now repeat constructor.
Qed.

Lemma reachable_caches_in_order (v : Validator) (w0 w : World) :
  caches_in_order w0 → reachable v w0 w → caches_in_order w ∧ clock w0 <= clock w.
Proof.
  intros H0 Hreach. induction Hreach as [|fuel url w w' r _ IH Hrun|d w _ IH].
  - split; [assumption | lia].
  - destruct IH as [IH Hclock]. split.
    + refine (frame_UrlRequiresProcessing keeps_caches_in_order v fuel url
                (caches_in_order_respected _) _ _ _ _ Hrun IH).
      intros x w1 a w2 [= <- <-] Hw.
      exact (caches_in_order_Set ValidatorDomainCache _ x
               (EvCacheSet ValidatorDomainCache _ x) w1 Hw).
    + pose proof (UrlRequiresProcessing_frame v fuel url _ _ _ Hrun) as (_ & Hc & _).
      lia.
  - destruct IH as [IH Hclock]. split; [now apply caches_in_order_elapse|].
    cbn. lia.
Qed.

Lemma NewValidator_caches_in_order (cfg : ValidatorConfig) (v : Validator)
    (w w' : World) :
  0 <= clock w → NewValidator cfg w = Started (v, w') → caches_in_order w'.
Proof.
  intros Hclock. unfold NewValidator.
  destruct (negb _); [discriminate|].
  destruct (NewBlacklister _) as [bl|bad]; [|discriminate].
  destruct (NewIpChecker _) as [ip|bad]; [|discriminate].
  cbn. intros [= _ <-]. unfold caches_in_order. cbn.
  split; [assumption|]. split; [reflexivity|]. split; [reflexivity|].
  split; intros k it; cbn; rewrite lookup_empty; discriminate.
Qed.

Lemma Get_after_expiry (c : Cache) (now later : Z) (k : string) :
  expires_within c now → now + defaultExpiration c < later →
  cache.Get c later k = None.
Proof.
  intros H Hlater. unfold cache.Get, cache.Expired.
  destruct (items c !! k) as [it|] eqn:Hit; [|reflexivity].
  specialize (H k it Hit).
  destruct (Z.ltb_spec 0 (Expiration it)); [|lia].
  destruct (Z.ltb_spec (Expiration it) later); [reflexivity | lia].
Qed.

(** X18: answers do not outlive their time.  In every world that a validator
    started by NewValidator can reach through calls of UrlRequiresProcessing
    and the passing of time, every cached decision carries an expiry at most
    30 minutes ahead and every cached reputation one at most an hour ahead:
    once that long has passed without a call, every read of the caches is a
    miss. *)
Theorem cached_answers_expire (cfg : ValidatorConfig) (v : Validator)
    (w0 w1 w : World) :
  0 <= clock w0 →
  NewValidator cfg w0 = Started (v, w1) →
  reachable v w1 w →
  (∀ k it, items (v_DomainCache w) !! k = Some it →
     0 < Expiration it <= clock w + 30 * time.Minute)
  ∧ (∀ k it, items (wl_memcache w) !! k = Some it →
       0 < Expiration it <= clock w + time.Hour)
  ∧ ∀ k later,
      (clock w + 30 * time.Minute < later → cache.Get (v_DomainCache w) later k = None)
      ∧ (clock w + time.Hour < later → cache.Get (wl_memcache w) later k = None).
Proof.
  intros Hclock Hnew Hreach.
  pose proof (NewValidator_caches_in_order _ _ _ _ Hclock Hnew) as H1.
  destruct (reachable_caches_in_order _ _ _ H1 Hreach) as ((_ & Hd & Hm & Hed & Hem) & _).
  split; [|split].
  - intros k it Hit. specialize (Hed k it Hit). now rewrite Hd in Hed.
  - intros k it Hit. specialize (Hem k it Hit). now rewrite Hm in Hem.
  - intros k later. split; intros Hlater.
    + apply (Get_after_expiry _ (clock w)); [assumption | now rewrite Hd].
    + apply (Get_after_expiry _ (clock w)); [assumption | now rewrite Hm].
Qed.

End Lookups.

(** ** The sinks and the front door *)

Lemma exchanges_checked_true (entries : list (string * string)) (valid : bool) :
  exchanges_checked entries valid = true ↔
    valid = true ∧ Forall (fun e => fst e ≠ "" ∧ snd e ≠ "") entries.
Proof.
  induction entries as [|[key val] rest IH]; cbn.
  - split; [intros ->; now split | now intros []].
  - destruct (String.eqb_spec key "") as [->|Hk]; cbn.
    { split; [discriminate|]. intros [_ H]. inversion H as [|? ? [Hk _]]. now cbn in Hk. }
    destruct (String.eqb_spec val "") as [->|Hv].
    { split; [discriminate|]. intros [_ H]. inversion H as [|? ? [_ Hv]]. now cbn in Hv. }
    rewrite IH. split; intros [Hvalid Hall]; (split; [assumption|]).
    + constructor; [now split | assumption].
    + now inversion Hall.
Qed.

Lemma RabbitConfig_IsValid_true (cfg : RabbitConfig) :
  RabbitConfig_IsValid cfg = true ↔
    Dsn cfg ≠ "" ∧ Exchange cfg ≠ "" ∧ Exchanges cfg ≠ ∅
    ∧ ∀ source exch, Exchanges cfg !! source = Some exch → source ≠ "" ∧ exch ≠ "".
Proof.
  unfold RabbitConfig_IsValid. rewrite exchanges_checked_true, Forall_forall.
  destruct (Nat.eqb_spec (size (Exchanges cfg)) 0) as [Hs|Hs].
  { split; [now intros [[=] _] |]. intros (_ & _ & Hne & _).
    now apply map_size_empty_iff in Hs. }
  destruct (String.eqb_spec (Exchange cfg) "") as [He|He].
  { split; [now intros [[=] _] | now intros (_ & ? & _)]. }
  destruct (String.eqb_spec (Dsn cfg) "") as [Hd|Hd].
  { split; [now intros [[=] _] | now intros [? _]]. }
  split.
  - intros [_ Hall]. split; [assumption|]. split; [assumption|]. split.
    + intros Hempty. apply Hs. now apply map_size_empty_iff.
    + intros source exch Hin. apply (Hall (source, exch)).
      now apply elem_of_map_to_list.
  - intros (_ & _ & _ & Hall). split; [reflexivity|].
    intros [source exch] Hin. apply Hall. now apply elem_of_map_to_list in Hin.
Qed.

(** X19: RabbitConfig.IsValid accepts a configuration exactly when the dsn
    and the default exchange are not empty, the map of exchanges has an
    entry, and no entry of the map has an empty source or an empty exchange;
    the order in which the map is walked plays no part. *)
Theorem RabbitConfig_accepted_exactly (cfg : RabbitConfig) :
  (RabbitConfig_IsValid cfg = true ↔
     Dsn cfg ≠ "" ∧ Exchange cfg ≠ "" ∧ Exchanges cfg ≠ ∅
     ∧ ∀ source exch, Exchanges cfg !! source = Some exch → source ≠ "" ∧ exch ≠ "")
  ∧ ∀ entries valid,
      lists_bindings entries (Exchanges cfg) →
      exchanges_checked entries valid
      = exchanges_checked (map_to_list (Exchanges cfg)) valid.
Proof.
  split; [apply RabbitConfig_IsValid_true|].
  intros entries valid Hlist. apply Bool.eq_iff_eq_true.
  rewrite !exchanges_checked_true, !Forall_forall.
  split; intros [Hv Hall]; (split; [assumption|]); intros [k v] Hin; apply Hall.
  - apply list_elem_of_In, Hlist. now apply elem_of_map_to_list in Hin.
  - apply elem_of_map_to_list. now apply Hlist, list_elem_of_In.
Qed.

(** X20: a handler started by NewRabbitHandler never publishes to an empty
    exchange.  A task goes to the exchange configured for its source, and to
    the default exchange when the source has none; the message is handed
    over unchanged, persistent and as application/json, under the routing
    key given; a refusal by the broker ends the process. *)
Theorem started_handler_routes_by_source (b : Broker) (cfg : RabbitConfig)
    (h : RabbitHandler) (taskSource routingKey message : string) :
  NewRabbitHandler b cfg = Started h →
  let out := RabbitHandler_Publish b h taskSource routingKey message in
  pub_exchange (fst out) = default (Exchange cfg) (Exchanges cfg !! taskSource)
  ∧ pub_exchange (fst out) ≠ ""
  ∧ pub_Body (fst out) = message
  ∧ pub_routingKey (fst out) = routingKey
  ∧ pub_persistent (fst out) = true
  ∧ pub_ContentType (fst out) = "application/json"
  ∧ (snd out = None ↔ amqp_Publish b (fst out) = None).
Proof.
  unfold NewRabbitHandler.
  destruct (RabbitConfig_IsValid cfg) eqn:Hvalid; cbn [negb]; [|discriminate].
  apply RabbitConfig_IsValid_true in Hvalid as (_ & He & _ & Hall).
  destruct (newChannel b (Dsn cfg)) as [prodCh|fatal]; [|discriminate].
  intros [= <-]. unfold RabbitHandler_Publish, RabbitChannel_Publish. cbn.
  assert (Hne : default (Exchange cfg) (Exchanges cfg !! taskSource) ≠ "").
  { destruct (Exchanges cfg !! taskSource) as [exch|] eqn:Hsrc; cbn; [|assumption].
    apply (Hall _ _ Hsrc). }
  assert (Hfst : ∀ q err,
            fst (match amqp_Publish b q with
                 | Some e => (q, Some (String.append err e))
                 | None => (q, None)
                 end) = q) by (intros q err; now destruct (amqp_Publish b q)).
  assert (Hsnd : ∀ q err,
            snd (match amqp_Publish b q with
                 | Some e => (q, Some (String.append err e))
                 | None => (q, None)
                 end) = None ↔ amqp_Publish b q = None)
    by (intros q err; now destruct (amqp_Publish b q)).
  rewrite Hfst, Hsnd. cbn.
  assert (Hex : match Exchanges cfg !! taskSource with
                | Some exch => exch
                | None => Exchange cfg
                end = default (Exchange cfg) (Exchanges cfg !! taskSource))
    by now destruct (Exchanges cfg !! taskSource).
  rewrite Hex. split; [reflexivity|]. split; [assumption|]. now repeat split.
Qed.

Section Door.

Context {L : GoLib} {T : GoText}.

Lemma hosts_checked (hosts : list string) (valid : bool) :
  fold_left (fun valid host => if negb (IsValidUrl host) then false else valid)
    hosts valid = true
  ↔ valid = true ∧ Forall (fun host => IsValidUrl host = true) hosts.
Proof.
  revert valid. induction hosts as [|host rest IH]; intros valid; cbn.
  - split; [intros ->; now split | now intros []].
  - rewrite IH. destruct (IsValidUrl host) eqn:Hh; cbn.
    + split; intros [Hv Hall]; (split; [assumption|]).
      * now constructor.
      * now inversion Hall.
    + split; [now intros [[=] _]|]. intros [_ Hall]. inversion Hall. congruence.
Qed.

(** X21: ElasticConfig.IsValid accepts a configuration exactly when the
    index and the who are not empty, there is a host and every host is a
    URL that IsValidUrl accepts, the retry count is at least 2, and the
    sleep time and the flush interval are at least one millisecond. *)
Theorem ElasticConfig_IsValid_exactly (cfg : ElasticConfig) :
  ElasticConfig_IsValid cfg = true ↔
    es_Index cfg ≠ "" ∧ es_Hosts cfg ≠ []
    ∧ Forall (fun host => IsValidUrl host = true) (es_Hosts cfg)
    ∧ 2 <= es_MaxRetries cfg
    ∧ time.Millisecond <= es_SleepTime cfg
    ∧ time.Millisecond <= es_FlushInterval cfg
    ∧ es_Who cfg ≠ "".
Proof.
  unfold ElasticConfig_IsValid.
  destruct (String.eqb_spec (es_Who cfg) "") as [Hw|Hw].
  { split; [discriminate | now intros (_ & _ & _ & _ & _ & _ & ?)]. }
  destruct (Z.ltb_spec (es_FlushInterval cfg) time.Millisecond) as [Hf|Hf].
  { split; [discriminate | intros (_ & _ & _ & _ & _ & ? & _); lia]. }
  destruct (Z.ltb_spec (es_SleepTime cfg) time.Millisecond) as [Hs|Hs].
  { split; [discriminate | intros (_ & _ & _ & _ & ? & _); lia]. }
  destruct (Z.leb_spec (es_MaxRetries cfg) 1) as [Hm|Hm].
  { split; [discriminate | intros (_ & _ & _ & ? & _); lia]. }
  rewrite hosts_checked.
  destruct (es_Hosts cfg) as [|host rest] eqn:Hhosts; cbn [length Nat.eqb].
  { split; [now intros [[=] _] | now intros (_ & ? & _)]. }
  destruct (String.eqb_spec (es_Index cfg) "") as [Hi|Hi].
  { split; [now intros [[=] _] | now intros (? & _)]. }
  split.
  - intros [_ Hall]. repeat split; try assumption; try discriminate; lia.
  - intros (_ & _ & Hall & _). now split.
Qed.

Lemma length_pos_ne (s : string) : (0 < String.length s)%nat → s ≠ "".
Proof. intros H ->. cbn in H. lia. Qed.

Lemma AddUrlTask_Validate_true (t : AddUrlTask) :
  fst (AddUrlTask_Validate t) = true ↔
    task_Source t ≠ "" ∧ task_URL t ≠ "" ∧ IsValidUrl (task_URL t) = true.
Proof.
  unfold AddUrlTask_Validate, IsValidUrl.
  destruct (String.eqb_spec (task_Source t) "") as [Hs|Hs];
    destruct (String.eqb_spec (task_URL t) "") as [Hu|Hu];
    try destruct (url_Parse (task_URL t)) as [parsed|err];
    try destruct (negb (String.eqb (URL_Scheme parsed) "http")
                  && negb (String.eqb (URL_Scheme parsed) "https"));
    cbn; split; try discriminate; try (now intros (? & ? & ?)); now repeat split.
Qed.

(** X22: AddUrlTask.Validate accepts a task exactly when its source is not
    empty and its URL is not empty and is one that IsValidUrl accepts.  The
    error it returns is never nil, and its message is empty exactly when the
    task is accepted. *)
Theorem AddUrlTask_Validate_exactly (t : AddUrlTask) :
  (fst (AddUrlTask_Validate t) = true ↔
     task_Source t ≠ "" ∧ task_URL t ≠ "" ∧ IsValidUrl (task_URL t) = true)
  ∧ (snd (AddUrlTask_Validate t) = "" ↔ fst (AddUrlTask_Validate t) = true).
Proof.
  split; [apply AddUrlTask_Validate_true|].
  unfold AddUrlTask_Validate.
  destruct (String.eqb (task_Source t) "");
    destruct (String.eqb (task_URL t) "");
    try destruct (url_Parse (task_URL t)) as [parsed|err];
    try destruct (negb (String.eqb (URL_Scheme parsed) "http")
                  && negb (String.eqb (URL_Scheme parsed) "https"));
    cbn [fst snd app strings_Join errors_New];
    (split; [|try discriminate; reflexivity]);
    try reflexivity;
    intros H; exfalso; revert H; apply length_pos_ne;
    rewrite ?length_append; cbn [String.length]; lia.
Qed.

Lemma token_among_true (entries : list (string * string)) (token : string) :
  token_among entries token = true ↔
    ∃ e, e ∈ entries ∧ strings_ToLower (strings_TrimSpace (snd e)) = token.
Proof.
  induction entries as [|[k val] rest IH]; cbn.
  - split; [discriminate|]. intros (e & Hin & _). now apply elem_of_nil in Hin.
  - destruct (String.eqb_spec (strings_ToLower (strings_TrimSpace val)) token) as [Heq|Hne].
    + split; [|reflexivity]. intros _. exists (k, val). split; [left | exact Heq].
    + rewrite IH. split; intros (e & Hin & He).
      * exists e. split; [now right | assumption].
      * apply elem_of_cons in Hin as [->|Hin]; [now cbn in He|]. eauto.
Qed.

Lemma isValidAuthToken_true (s : Server) (token : string) :
  isValidAuthToken s token = true ↔
    ∃ k val, srv_AuthTokens s !! k = Some val
             ∧ strings_ToLower (strings_TrimSpace val)
               = strings_ToLower (strings_TrimSpace token).
Proof.
  unfold isValidAuthToken. rewrite token_among_true. split.
  - intros ([k val] & Hin%elem_of_map_to_list & He). eauto.
  - intros (k & val & Hin & He). exists (k, val). split; [|exact He].
    now apply elem_of_map_to_list.
Qed.

Lemma referrer_among_found (entries : list (string * string)) (header : string) :
  (∃ k, (k, header) ∈ entries) → (referrer_among entries header, header) ∈ entries.
Proof.
  induction entries as [|[k v] rest IH]; cbn.
  - intros (k & Hin). now apply elem_of_nil in Hin.
  - intros (k' & Hin). destruct (String.eqb_spec v header) as [->|Hne]; [left|].
    right. apply IH. apply elem_of_cons in Hin as [[= -> ->]|Hin]; [congruence | eauto].
Qed.

Lemma referrer_among_missing (entries : list (string * string)) (header : string) :
  (∀ k, (k, header) ∉ entries) → referrer_among entries header = "".
Proof.
  induction entries as [|[k v] rest IH]; cbn; [reflexivity|].
  intros Hno. destruct (String.eqb_spec v header) as [->|Hne].
  - exfalso. apply (Hno k). left.
  - apply IH. intros k' Hin. apply (Hno k'). now right.
Qed.

Lemma referrer_among_named (entries : list (string * string)) (header : string) :
  referrer_among entries header ≠ "" →
  (referrer_among entries header, header) ∈ entries.
Proof.
  induction entries as [|[k v] rest IH]; cbn; [congruence|].
  destruct (String.eqb_spec v header) as [->|Hne]; [left|].
  intros H. right. now apply IH.
Qed.

(** X23: the two readings of the Authorization header.  isValidAuthToken
    accepts a header exactly when some configured token equals it after
    trimming space and lowering case on both sides; parseRequestReferrer
    names a token only when the header equals it as it is.  So an admitted
    request may get no referrer, and with the same token configured under
    one name only, the referrer is that name exactly when header and token
    are equal. *)
Theorem header_is_read_two_ways (s : Server) (header : string) :
  (isValidAuthToken s header = true ↔
     ∃ k val, srv_AuthTokens s !! k = Some val
              ∧ strings_ToLower (strings_TrimSpace val)
                = strings_ToLower (strings_TrimSpace header))
  ∧ ((∃ k, srv_AuthTokens s !! k = Some header) →
       srv_AuthTokens s !! parseRequestReferrer s header = Some header)
  ∧ ((∀ k, srv_AuthTokens s !! k ≠ Some header) → parseRequestReferrer s header = "").
Proof.
  split; [apply isValidAuthToken_true|]. unfold parseRequestReferrer. split.
  - intros (k & Hk). apply elem_of_map_to_list. apply referrer_among_found.
    exists k. now apply elem_of_map_to_list.
  - intros Hno. apply referrer_among_missing. intros k Hin%elem_of_map_to_list.
    now apply (Hno k).
Qed.

Lemma middlewareHandler_refuses (s : Server) (header : string) :
  header = "" ∨ isValidAuthToken s header = false →
  ∃ r, middlewareHandler s header = Some r ∧ w_status r = 401 ∧ w_aborted r = true.
Proof.
  intros Hbad. unfold middlewareHandler, validateRequestAuthentication.
  destruct (String.eqb_spec header "") as [Hh|Hh]; [eexists; now split|].
  destruct Hbad as [?|Hbad]; [contradiction|]. rewrite Hbad. cbn.
  eexists; now split.
Qed.

Lemma middlewareHandler_admits (s : Server) (header : string) :
  header ≠ "" → isValidAuthToken s header = true → middlewareHandler s header = None.
Proof.
  intros Hh Hok. unfold middlewareHandler, validateRequestAuthentication.
  destruct (String.eqb_spec header "") as [?|_]; [contradiction|]. now rewrite Hok.
Qed.

Lemma serve_add_refused (s : Server) (h : RabbitHandler) (b : Broker) (fuel : nat)
    (header : string) (bound : AddUrlTask + error) (w : World) :
  header = "" ∨ isValidAuthToken s header = false →
  ∃ r, serve_add s h b fuel header bound w = Some ((Some r, None), w)
       ∧ w_status r = 401 ∧ w_aborted r = true.
Proof.
  intros Hbad. destruct (middlewareHandler_refuses s header Hbad) as (r & Hr & Hst & Hab).
  exists r. unfold serve_add. rewrite Hr, Hab. now split.
Qed.

(** X24: a request without an Authorization header, or with one that matches
    no configured token, stops at the middleware: it is answered 401 with
    the chain aborted, the handler does not run, and nothing changes, with
    no log line, no cache access, no network interaction and no
    publication. *)
Theorem unauthenticated_request_stops_at_the_door (s : Server) (h : RabbitHandler)
    (b : Broker) (fuel : nat) (header : string) (bound : AddUrlTask + error)
    (w : World) :
  header = "" ∨
  (∀ k val, srv_AuthTokens s !! k = Some val →
     strings_ToLower (strings_TrimSpace val)
     ≠ strings_ToLower (strings_TrimSpace header)) →
  ∃ r, serve_add s h b fuel header bound w = Some ((Some r, None), w)
       ∧ w_status r = 401 ∧ w_aborted r = true.
Proof.
  intros Hbad. apply serve_add_refused.
  destruct Hbad as [?|Hno]; [now left | right].
  destruct (isValidAuthToken s header) eqn:E; [|reflexivity].
  apply isValidAuthToken_true in E as (k & val & Hk & He). now destruct (Hno k val Hk).
Qed.

(** X25: a server started from a configuration without auth tokens, which
    HttpConfig.IsValid lets through, answers every request to add a URL
    with 401, whatever header it carries. *)
Theorem server_without_tokens_refuses_everything (cfg : HttpConfig)
    (validator : Validator) (s : Server) :
  AuthTokens cfg = ∅ →
  NewServer cfg validator = Started s →
  ∀ h b fuel header bound w,
    ∃ r, serve_add s h b fuel header bound w = Some ((Some r, None), w)
         ∧ w_status r = 401 ∧ w_aborted r = true.
Proof.
  intros Hempty Hnew h b fuel header bound w. apply serve_add_refused.
  right. unfold NewServer in Hnew. destruct (negb _); [discriminate|].
  injection Hnew as <-. unfold isValidAuthToken. cbn. rewrite Hempty.
  now rewrite map_to_list_empty.
Qed.

(** X26: one request, one response.  With fuel for the retries of the
    validator, a request to add a URL is always answered or ends the
    process; the handler runs exactly when the middleware admitted the
    request, so no request is answered twice. *)
Theorem every_add_request_ends (s : Server) (h : RabbitHandler) (b : Broker)
    (fuel : nat) (header : string) (bound : AddUrlTask + error) (w : World) :
  maxTries (v_Whitelister (srv_Validator s)) < Int64.MaxInt64 →
  (Z.to_nat (maxTries (v_Whitelister (srv_Validator s))) ≤ fuel)%nat →
  ∃ door out w',
    serve_add s h b fuel header bound w = Some ((door, out), w')
    ∧ (door = None ↔ header ≠ "" ∧ isValidAuthToken s header = true)
    ∧ (door = None ↔ out ≠ None)
    ∧ ∀ o, out = Some o → response_of o ≠ None ∨ ∃ p fatal, o = Crashed None (Some p) fatal.
Proof.
  intros Hmax Hfuel.
  assert (Hrun : ∃ o w', addUrl s h b fuel header bound w = Some (o, w')
                         ∧ (response_of o ≠ None ∨ ∃ p fatal, o = Crashed None (Some p) fatal)).
  { unfold addUrl. destruct bound as [task|err]; [|unfold ret; eexists _, _; split;
      [reflexivity | now left]].
    destruct (AddUrlTask_Validate task) as [[] err];
      [|unfold ret; eexists _, _; split; [reflexivity | now left]].
    destruct (UrlRequiresProcessing_returns (srv_Validator s) fuel (task_URL task) w
                Hmax Hfuel) as ([must err'] & w' & Hurp).
    rewrite (bind_run _ _ _ _ _ Hurp).
    destruct must, err' as [e|];
      try (unfold ret; eexists _, _; split; [reflexivity | now left]).
    destruct (json_Marshal task) as [bytes|e];
      [|unfold ret; eexists _, _; split; [reflexivity | now left]].
    destruct (RabbitHandler_Publish _ _ _ _ _) as [p [fatal|]].
    - unfold ret; eexists _, _; split; [reflexivity | right; eauto].
    - unfold bind, time_Now, ret. eexists _, _; split; [reflexivity | now left]. }
  destruct Hrun as (o & w' & Hrun & Ho).
  destruct (String.eqb_spec header "") as [Hh|Hh].
  { destruct (serve_add_refused s h b fuel header bound w (or_introl Hh))
      as (r & -> & _). eexists _, _, _. split; [reflexivity|].
    split; [split; [discriminate | now intros []]|].
    split; [split; [discriminate | congruence]|]. discriminate. }
  destruct (isValidAuthToken s header) eqn:Hok.
  - unfold serve_add. rewrite (middlewareHandler_admits s header Hh Hok).
    rewrite (bind_run _ _ _ _ _ Hrun). unfold ret. eexists _, _, _.
    split; [reflexivity|]. split; [now split|]. split; [split; congruence|].
    now intros ? [= <-].
  - destruct (serve_add_refused s h b fuel header bound w (or_intror Hok))
      as (r & -> & _). eexists _, _, _. split; [reflexivity|].
    split; [split; [discriminate | now intros [_ [=]]]|].
    split; [split; [discriminate | congruence]|]. discriminate.
Qed.

(** X27: a request body that does not bind, or a task that AddUrlTask.Validate
    rejects (no source, no URL, a URL that IsValidUrl rejects), is answered
    400 before the validator is asked: nothing is looked up, cached or
    published. *)
Theorem malformed_task_is_refused_untouched (s : Server) (h : RabbitHandler)
    (b : Broker) (fuel : nat) (header : string) (bound : AddUrlTask + error)
    (w : World) :
  (∀ task, bound = inl task →
     task_Source task = "" ∨ task_URL task = "" ∨ IsValidUrl (task_URL task) = false) →
  ∃ r logged,
    addUrl s h b fuel header bound w = Some (Served r None None logged, w)
    ∧ w_status r = 400 ∧ w_aborted r = true.
Proof.
  intros Hbad. unfold addUrl. destruct bound as [task|err].
  - destruct (AddUrlTask_Validate task) as [valid err] eqn:Hv.
    destruct valid.
    + exfalso. assert (Hfst : fst (AddUrlTask_Validate task) = true) by now rewrite Hv.
      apply AddUrlTask_Validate_true in Hfst as (Hs & Hu & Hi).
      destruct (Hbad task eq_refl) as [?|[?|?]]; congruence.
    + eexists _, _. now split.
  - eexists _, _. now split.
Qed.

(** X28: nothing reaches the broker unchecked.  Whenever the add-url handler
    hands a message to the broker, the request carried a task that Validate
    accepts, UrlRequiresProcessing has just answered (true, nil) for its URL,
    so the URL is not blacklisted, and the message is the marshalled task,
    sent with an empty routing key to the exchange of the task's source, or
    to the default exchange when the source has none. *)
Theorem only_checked_tasks_reach_the_broker (s : Server) (h : RabbitHandler)
    (b : Broker) (fuel : nat) (header : string) (bound : AddUrlTask + error)
    (w w' : World) (out : Handled) (p : Publishing) :
  addUrl s h b fuel header bound w = Some (out, w') →
  handed_to_broker out = Some p →
  ∃ task bytes,
    bound = inl task
    ∧ task_Source task ≠ "" ∧ IsValidUrl (task_URL task) = true
    ∧ UrlRequiresProcessing (srv_Validator s) fuel (task_URL task) w
      = Some ((true, None), w')
    ∧ UrlIsBlack (v_UrlBlacklister (srv_Validator s)) (task_URL task) = false
    ∧ json_Marshal task = inl bytes
    ∧ pub_Body p = bytes ∧ pub_routingKey p = ""
    ∧ pub_exchange p
      = default (MainExchange h) (ExtraExchanges h !! task_Source task).
Proof.
  unfold addUrl. destruct bound as [task|err]; [|intros [= <- _]; discriminate].
  destruct (AddUrlTask_Validate task) as [valid err] eqn:Hv.
  destruct valid; [|intros [= <- _]; discriminate].
  assert (Hfst : fst (AddUrlTask_Validate task) = true) by now rewrite Hv.
  apply AddUrlTask_Validate_true in Hfst as (Hs & Hu & Hi).
  intros ([must err'] & w1 & Hurp & H)%bind_Some.
  destruct must, err' as [e|]; try (injection H as <- _; discriminate).
  assert (Hbl : UrlIsBlack (v_UrlBlacklister (srv_Validator s)) (task_URL task) = false).
  { revert Hurp. unfold UrlRequiresProcessing. destruct (UrlIsBlack _ _); [|reflexivity].
    unfold bind, log_Print, ret. discriminate. }
  destruct (json_Marshal task) as [bytes|e] eqn:Hm; [|injection H as <- _; discriminate].
  assert (Hp : ∀ q, fst (RabbitHandler_Publish b h (task_Source task) "" bytes) = q →
               pub_Body q = bytes ∧ pub_routingKey q = ""
               ∧ pub_exchange q
                 = default (MainExchange h) (ExtraExchanges h !! task_Source task)).
  { intros q <-. unfold RabbitHandler_Publish, RabbitChannel_Publish.
    destruct (ExtraExchanges h !! task_Source task); cbn;
      match goal with |- context [amqp_Publish b ?p] => destruct (amqp_Publish b p) end;
      now cbn. }
  destruct (RabbitHandler_Publish _ _ _ _ _) as [q [fatal|]].
  - injection H as <- <-. intros [= <-]. exists task, bytes.
    destruct (Hp q eq_refl) as (? & ? & ?). repeat split; assumption.
  - unfold bind, time_Now, ret in H. injection H as <- <-. intros [= <-].
    exists task, bytes.
    destruct (Hp q eq_refl) as (? & ? & ?). repeat split; assumption.
Qed.

(** X29: the audit record of a published task.  It is stamped with the time
    of the publication, marked a success, and carries the URL, source and
    store flag of the task; its domain is the hostname of the URL, never
    empty; its referrer, when not empty, is a configured name whose token
    equals the header as it is. *)
Theorem audit_record_describes_the_task (s : Server) (h : RabbitHandler)
    (b : Broker) (fuel : nat) (header : string) (task : AddUrlTask)
    (w w' : World) (r : Written) (published : option Publishing) (log : LogTask)
    (logged : list string) :
  addUrl s h b fuel header (inl task) w
  = Some (Served r published (Some log) logged, w') →
  published ≠ None
  ∧ w_status r = 200 ∧ w_aborted r = false
  ∧ lt_StartTime log = clock w' ∧ lt_Success log = true
  ∧ lt_URL log = task_URL task ∧ lt_Source log = task_Source task
  ∧ lt_Store log = task_Store task
  ∧ lt_Domain log ≠ ""
  ∧ (∃ u, url_Parse (task_URL task) = inl u ∧ URL_Hostname u = lt_Domain log)
  ∧ (lt_Referrer log ≠ "" → srv_AuthTokens s !! lt_Referrer log = Some header).
Proof.
  unfold addUrl.
  destruct (AddUrlTask_Validate task) as [[] err]; [|intros [=]].
  intros ([must err'] & w1 & Hurp & H)%bind_Some.
  destruct must, err' as [e|]; try discriminate H.
  destruct (json_Marshal task) as [bytes|e]; [|discriminate H].
  destruct (RabbitHandler_Publish _ _ _ _ _) as [q [fatal|]]; [discriminate H|].
  unfold bind, time_Now, ret in H. injection H as <- <- <- _ <-. cbn.
  assert (Hparse : ∃ full domain,
             ParseDomain (srv_Validator s) (task_URL task) = (full, domain, None)).
  { pose proof (proj1 (UrlRequiresProcessing_error _ _ _ _ _ _ Hurp)) as Herr.
    cbn in Herr.
    assert (Hbl : UrlIsBlack (v_UrlBlacklister (srv_Validator s)) (task_URL task) = false).
    { revert Hurp. unfold UrlRequiresProcessing. destruct (UrlIsBlack _ _); [|reflexivity].
      unfold bind, log_Print, ret. discriminate. }
    revert Hurp. unfold UrlRequiresProcessing. rewrite Hbl.
    destruct (ParseDomain _ _) as [[full domain] [e|]]; [|eauto].
    unfold bind, log_Print, ret. discriminate. }
  destruct Hparse as (full & domain & Hparse).
  unfold getDomain. rewrite Hparse.
  split; [discriminate|]. split; [reflexivity|]. split; [reflexivity|].
  split; [reflexivity|]. split; [reflexivity|]. split; [reflexivity|].
  split; [reflexivity|]. split; [reflexivity|].
  revert Hparse. unfold ParseDomain.
  destruct (String.eqb (task_URL task) ""); [discriminate|].
  destruct (url_Parse (task_URL task)) as [u|e]; [|discriminate].
  destruct (String.eqb_spec (URL_Hostname u) "") as [?|Hh]; [discriminate|].
  intros Hd. assert (domain = URL_Hostname u) as ->
    by (destruct (DomainIsIP _ _); congruence).
  split; [assumption|]. split; [eauto|].
  intros Hne. unfold parseRequestReferrer in *.
  apply elem_of_map_to_list. now apply referrer_among_named.
Qed.

(** X30: after Validate has accepted a task, the handler answers 500 in one
    case only: the URL is not blacklisted and has no hostname.  Failures of
    the reputation service and of DNS never show as a 500. *)
Theorem valid_task_fails_only_without_hostname (s : Server) (h : RabbitHandler)
    (b : Broker) (fuel : nat) (header : string) (task : AddUrlTask)
    (w w' : World) (out : Handled) :
  fst (AddUrlTask_Validate task) = true →
  addUrl s h b fuel header (inl task) w = Some (out, w') →
  (∃ r logged, out = Served r None None logged ∧ w_status r = 500)
  ↔ UrlIsBlack (v_UrlBlacklister (srv_Validator s)) (task_URL task) = false
    ∧ ∃ u, url_Parse (task_URL task) = inl u ∧ URL_Hostname u = "".
Proof.
  intros Hvalid. pose proof Hvalid as (Hs & Hu & Hi)%AddUrlTask_Validate_true.
  unfold addUrl. destruct (AddUrlTask_Validate task) as [valid err].
  cbn in Hvalid. subst valid.
  intros ([must err'] & w1 & Hurp & H)%bind_Some.
  pose proof (UrlRequiresProcessing_error _ _ _ _ _ _ Hurp) as Herr. cbn in Herr.
  assert (Hparse : snd (ParseDomain (srv_Validator s) (task_URL task)) ≠ None
                   ↔ ∃ u, url_Parse (task_URL task) = inl u ∧ URL_Hostname u = "").
  { unfold ParseDomain. destruct (String.eqb_spec (task_URL task) ""); [contradiction|].
    unfold IsValidUrl in Hi. destruct (url_Parse (task_URL task)) as [u|e]; [|discriminate].
    destruct (String.eqb_spec (URL_Hostname u) "") as [Hh|Hh].
    - split; [eauto | discriminate].
    - split; [destruct (DomainIsIP _ _); now cbn|]. intros (u' & [= <-] & ?). contradiction. }
  rewrite <- Hparse, <- Herr.
  destruct must, err' as [e|].
  - injection H as <- _. split; [discriminate | intros _; eexists _, _; now split].
  - split; [|congruence]. intros (r & logged & -> & Hst).
    destruct (json_Marshal task); [|discriminate H].
    destruct (RabbitHandler_Publish _ _ _ _ _) as [q [fatal|]]; [discriminate H|].
    unfold bind, time_Now, ret in H. discriminate H.
  - injection H as <- _. split; [discriminate | intros _; eexists _, _; now split].
  - split; [|congruence]. intros (r & logged & -> & Hst).
    injection H as <- _. cbn in Hst. discriminate.
Qed.

End Door.

(** * Concrete runs *)

#[local] Existing Instance Fixture.lib.

(** The validator of the stand-in is the one [NewValidator] builds from its
    configuration, and the caches of its world are the ones it installs. *)
Lemma fixture_is_built_by_NewValidator (http : nat → string → Response + error)
    (dns : nat → string → list string + error) :
  NewValidator Fixture.config (Fixture.world http dns)
  = Started (Fixture.validator, Fixture.world http dns).
Proof. reflexivity. Qed.

(** The end-to-end scenarios of the specification. *)
Example scenario_allow_listed :
  option_map fst
    (UrlRequiresProcessing Fixture.validator 3 "http://good.example"
       (Fixture.world (Fixture.service_says true) Fixture.resolves))
  = Some (false, None).
Proof. vm_compute. reflexivity. Qed.

Example scenario_blacklisted :
  option_map (fun rw => (fst rw, net_calls (snd rw)))
    (UrlRequiresProcessing Fixture.validator 3 "http://evil.example/login"
       (Fixture.world (Fixture.service_says false) Fixture.resolves))
  = Some ((false, None), 0%nat).
Proof. vm_compute. reflexivity. Qed.

Example scenario_local_address :
  option_map fst
    (UrlRequiresProcessing Fixture.validator 3 "http://10.0.0.5"
       (Fixture.world (Fixture.service_says false) Fixture.resolves))
  = Some (false, None).
Proof. vm_compute. reflexivity. Qed.

Example scenario_no_a_record :
  option_map fst
    (UrlRequiresProcessing Fixture.validator 3 "http://nxdomain.invalid"
       (Fixture.world (Fixture.service_says false) Fixture.no_such_host))
  = Some (false, None).
Proof. vm_compute. reflexivity. Qed.

Example scenario_new_site :
  option_map fst
    (UrlRequiresProcessing Fixture.validator 3 "http://newsite.example"
       (Fixture.world (Fixture.service_says false) Fixture.resolves))
  = Some (true, None).
Proof. vm_compute. reflexivity. Qed.

Example scenario_empty_url :
  UrlRequiresProcessing Fixture.validator 3 ""
    (Fixture.world (Fixture.service_says false) Fixture.resolves)
  = Some ((false, Some "received empty url to be parsed"),
          emit (EvLog (Log_parse_domain_fail "" "received empty url to be parsed"))
            (Fixture.world (Fixture.service_says false) Fixture.resolves)).
Proof. reflexivity. Qed.

(** C1 as worded fails where the backoff leaves the range of [int64].  The
    configuration (two tries, a base sleep of 2^62 ns) passes
    the start-up check; both tries are lost; the product for the second try,
    2^63, wraps to a negative duration, the guard [sleepDuration > 0] skips
    the sleep, and the two requests follow each other directly. *)
Lemma retry_bound_fails_on_overflow :
  let checker := Fixture.whitelister 2 (2 ^ 62) in
  let w := Fixture.world Fixture.service_down Fixture.resolves in
  let url := "http://wl.local/domain/a.example" in
  ValidatorConfig_IsValid (L := Fixture.lib)
    {| UrlBlackListRegexps := ["evil"];
       LocalIPNetsCfg := ["10.0.0.0/8"];
       WhitelisterApiCfg := Fixture.api 2 (2 ^ 62) |} = true
  ∧ cache.Get (wl_memcache w) (clock w) "a.example" = None
  ∧ net_ParseIP (GoLib := Fixture.lib) "a.example" = None
  ∧ fmt_Sprintf1 (GoLib := Fixture.lib) (checkDomainApiUrl checker) "a.example" = url
  ∧ all_tries_fail (decode_domain (L := Fixture.lib)) url 2 w
  ∧ (∃ w', DomainIsWhite (L := Fixture.lib) checker 2 "a.example" w
           = Some ((false, None), w')
           ∧ retry_events (trace w') = [EvHttpGet url; EvHttpGet url])
  ∧ ¬ exhausts_retries checker url
        (DomainIsWhite (L := Fixture.lib) checker 2 "a.example") w.
Proof.
  cbv zeta.
  assert (Hrun : option_map (fun rw => (fst rw, trace (snd rw)))
                   (DomainIsWhite (L := Fixture.lib) (Fixture.whitelister 2 (2 ^ 62)) 2
                      "a.example" (Fixture.world Fixture.service_down Fixture.resolves))
                 = Some ((false, None),
                         [EvCacheGet WhitelisterMemcache "a.example";
                          EvHttpGet "http://wl.local/domain/a.example";
                          EvLog (Log_wl_try_failed "wl check domain" "a.example"
                                   (CantExecuteRequest 1 "connection refused"));
                          EvHttpGet "http://wl.local/domain/a.example";
                          EvLog (Log_wl_try_failed "wl check domain" "a.example"
                                   (CantExecuteRequest 2 "connection refused"));
                          EvLog (Log_wl_no_result "wl check domain" 2
                                   (Some (CantExecuteRequest 2 "connection refused")))]))
    by (vm_compute; reflexivity).
  split; [|split; [|split; [|split; [|split; [|split]]]]];
    try (vm_compute; reflexivity).
  - destruct (DomainIsWhite _ _ _ _) as [[r w']|]; [|discriminate].
    cbn in Hrun. injection Hrun as -> Htr. exists w'. now rewrite Htr.
  - intros (w' & new & E & Htr & Hev & _). rewrite E in Hrun. cbn in Hrun.
    injection Hrun as Htr'. rewrite Htr in Htr'. cbn in Htr'. subst new.
    vm_compute in Hev. discriminate Hev.
Qed.

(** C1 at three tries, one second apart, against a service that is down. *)
Lemma retry_bound_witness :
  let checker := Fixture.whitelister 3 time.Second in
  let w := Fixture.world Fixture.service_down Fixture.resolves in
  exhausts_retries checker "http://wl.local/domain/a.example"
    (DomainIsWhite checker 3 "a.example") w
  ∧ exhausts_retries checker "http://wl.local/ip/8.8.8.8"
      (IpIsWhite checker 3 "8.8.8.8") w.
Proof.
  cbv zeta. split.
  - destruct (reputation_lookup_retry_bound
                (Fixture.whitelister 3 time.Second) 3 "a.example"
                (Fixture.world Fixture.service_down Fixture.resolves))
      as [Hdomain _].
    + split; [discriminate | reflexivity].
    + apply le_n.
    + reflexivity.
    + destruct Hdomain as [_ Hexact]; [reflexivity | intros i _; reflexivity |].
      apply Hexact; [reflexivity | discriminate].
  - destruct (reputation_lookup_retry_bound
                (Fixture.whitelister 3 time.Second) 3 "8.8.8.8"
                (Fixture.world Fixture.service_down Fixture.resolves))
      as [_ Hip].
    + split; [discriminate | reflexivity].
    + apply le_n.
    + reflexivity.
    + destruct Hip as [_ Hexact]; [intros i _; reflexivity |].
      apply Hexact; [reflexivity | discriminate].
Defined.

(** C6 at the literal 8.8.8.8. *)
Lemma ip_literal_on_domain_path_witness :
  DomainIsWhite (L := Fixture.lib) (Fixture.whitelister 3 time.Second) 3 "8.8.8.8"
    (Fixture.world (Fixture.service_says true) Fixture.resolves)
  = Some ((false, None), Fixture.world (Fixture.service_says true) Fixture.resolves).
Proof.
  apply (DomainIsWhite_ip_literal (L := Fixture.lib) _ _ "8.8.8.8" [8; 8; 8; 8]).
  reflexivity.
Defined.

(** C3 at a URL matched by the pattern evil. *)
Lemma blacklisted_url_witness :
  UrlRequiresProcessing Fixture.validator 3 "http://evil.example/login"
    (Fixture.world (Fixture.service_says false) Fixture.resolves)
  = Some ((false, None),
          emit (EvLog (Log_url_blacklisted "http://evil.example/login"))
            (Fixture.world (Fixture.service_says false) Fixture.resolves)).
Proof.
  apply (blacklisted_url_short_circuits (L := Fixture.lib) Fixture.validator 3
           "http://evil.example/login" "evil").
  - left. reflexivity.
  - reflexivity.
Defined.

(** C5 at 10.0.0.5 with 10.0.0.0/8 configured as local. *)
Lemma local_ip_witness :
  DomainRequiresProcessing Fixture.validator 3 "10.0.0.5"
    (Fixture.world (Fixture.service_says false) Fixture.resolves)
  = Some ((false, None),
          emit (EvLog (Log_local_ip "10.0.0.5"))
            (Fixture.world (Fixture.service_says false) Fixture.resolves)).
Proof.
  apply (local_ip_is_never_processed (L := Fixture.lib) Fixture.validator 3
           "10.0.0.5" [10; 0; 0; 5]).
  - reflexivity.
  - right. right. right. exists ([10; 0; 0; 0], 8). split; [left|]; reflexivity.
Defined.

(** C10 at the literal 8.8.8.8. *)
Lemma nil_ip_branch_witness :
  ∃ netIP,
    GetNetIP (L := Fixture.lib) (v_IpChecker Fixture.validator) "8.8.8.8" = Some netIP
    ∧ DomainRequiresProcessing Fixture.validator 3 "8.8.8.8"
      = ip_literal_requires_processing Fixture.validator 3 "8.8.8.8" netIP
    ∧ appends not_the_nil_branch (DomainRequiresProcessing Fixture.validator 3 "8.8.8.8").
Proof.
  apply (nil_ip_branch_unreachable (L := Fixture.lib) Fixture.validator 3 "8.8.8.8").
  reflexivity.
Defined.

(** C2 at an allow-listed name, at a name without address and at a name that
    resolves. *)
Lemma name_decision_witness :
  (let w := Fixture.world (Fixture.service_says true) Fixture.resolves in
   ∃ w1,
     DomainIsWhite (v_Whitelister Fixture.validator) 3 "good.example" w
     = Some ((true, None), w1)
     ∧ DomainRequiresProcessing Fixture.validator 3 "good.example" w
       = Some ((false, None), emit (EvLog (Log_domain_whitelisted "good.example")) w1))
  ∧ (let w := Fixture.world (Fixture.service_says false) Fixture.no_such_host in
     ∃ w', DomainRequiresProcessing Fixture.validator 3 "nxdomain.invalid" w
           = Some ((false, None), w'))
  ∧ (let w := Fixture.world (Fixture.service_says false) Fixture.resolves in
     ∃ w', DomainRequiresProcessing Fixture.validator 3 "newsite.example" w
           = Some ((true, None), w')).
Proof.
  cbv zeta. split; [|split].
  - destruct (DomainIsWhite (v_Whitelister Fixture.validator) 3 "good.example"
                (Fixture.world (Fixture.service_says true) Fixture.resolves))
      as [[r w1]|] eqn:E.
    + assert (H : option_map fst
                    (DomainIsWhite (v_Whitelister Fixture.validator) 3 "good.example"
                       (Fixture.world (Fixture.service_says true) Fixture.resolves))
                  = Some (true, None)) by (vm_compute; reflexivity).
      rewrite E in H. cbn in H. injection H as ->.
      exists w1. split; [reflexivity|].
      apply (name_decision_follows_reputation_then_dns (L := Fixture.lib)
               Fixture.validator 3 "good.example" _ w1 true eq_refl E).
      reflexivity.
    + exfalso. vm_compute in E. discriminate E.
  - destruct (DomainIsWhite (v_Whitelister Fixture.validator) 3 "nxdomain.invalid"
                (Fixture.world (Fixture.service_says false) Fixture.no_such_host))
      as [[r w1]|] eqn:E.
    + assert (H : option_map (fun rw => (fst rw, has_a_record "nxdomain.invalid" (snd rw)))
                    (DomainIsWhite (v_Whitelister Fixture.validator) 3 "nxdomain.invalid"
                       (Fixture.world (Fixture.service_says false) Fixture.no_such_host))
                  = Some ((false, None), false)) by (vm_compute; reflexivity).
      rewrite E in H. cbn in H. injection H as -> Hdns.
      apply (name_decision_follows_reputation_then_dns (L := Fixture.lib)
               Fixture.validator 3 "nxdomain.invalid" _ w1 false eq_refl E);
        [reflexivity | exact Hdns].
    + exfalso. vm_compute in E. discriminate E.
  - destruct (DomainIsWhite (v_Whitelister Fixture.validator) 3 "newsite.example"
                (Fixture.world (Fixture.service_says false) Fixture.resolves))
      as [[r w1]|] eqn:E.
    + assert (H : option_map (fun rw => (fst rw, has_a_record "newsite.example" (snd rw)))
                    (DomainIsWhite (v_Whitelister Fixture.validator) 3 "newsite.example"
                       (Fixture.world (Fixture.service_says false) Fixture.resolves))
                  = Some ((false, None), true)) by (vm_compute; reflexivity).
      rewrite E in H. cbn in H. injection H as -> Hdns.
      apply (name_decision_follows_reputation_then_dns (L := Fixture.lib)
               Fixture.validator 3 "newsite.example" _ w1 false eq_refl E);
        [reflexivity | exact Hdns].
    + exfalso. vm_compute in E. discriminate E.
Defined.

(** C4 at a first request for a name that is not allow-listed and resolves. *)
Lemma decision_cache_witness :
  let w := Fixture.world (Fixture.service_says false) Fixture.resolves in
  ∃ w', UrlRequiresProcessing Fixture.validator 3 "http://newsite.example/a" w
        = Some ((true, None), w')
        ∧ cache.Get (v_DomainCache w') (clock w') "newsite.example" = Some true.
Proof.
  cbv zeta.
  destruct (decision_cache_hit_and_miss (L := Fixture.lib) Fixture.validator 3
              "http://newsite.example/a" "http://newsite.example" "newsite.example"
              (Fixture.world (Fixture.service_says false) Fixture.resolves)
              eq_refl eq_refl) as [_ Hmiss].
  destruct (Hmiss eq_refl) as [Hcomputed _].
  destruct (DomainRequiresProcessing Fixture.validator 3 "newsite.example"
              (emit (EvCacheGet ValidatorDomainCache "newsite.example")
                 (Fixture.world (Fixture.service_says false) Fixture.resolves)))
    as [[r w1]|] eqn:E.
  - assert (H : option_map (fun rw => fst (fst rw))
                  (DomainRequiresProcessing Fixture.validator 3 "newsite.example"
                     (emit (EvCacheGet ValidatorDomainCache "newsite.example")
                        (Fixture.world (Fixture.service_says false) Fixture.resolves)))
                = Some true) by (vm_compute; reflexivity).
    rewrite E in H. cbn in H. injection H as Hr.
    destruct (Hcomputed r w1 eq_refl) as [Hrun Hget]. rewrite Hr in Hrun, Hget.
    exists (decided "newsite.example" true w1). split; [exact Hrun | exact Hget].
  - exfalso. vm_compute in E. discriminate E.
Defined.

(** C7 at two paths on one host, ten minutes apart. *)
Lemma same_hostname_witness :
  let w := Fixture.world (Fixture.service_says false) Fixture.resolves in
  ∃ w1,
    UrlRequiresProcessing Fixture.validator 3 "http://newsite.example/a" w
    = Some ((true, None), w1)
    ∧ UrlRequiresProcessing Fixture.validator 0 "http://newsite.example/b"
        (elapse (10 * time.Minute) w1)
      = Some ((true, None),
              emit (EvCacheGet ValidatorDomainCache "newsite.example")
                (elapse (10 * time.Minute) w1)).
Proof.
  cbv zeta.
  destruct (UrlRequiresProcessing Fixture.validator 3 "http://newsite.example/a"
              (Fixture.world (Fixture.service_says false) Fixture.resolves))
    as [[r w1]|] eqn:E.
  - assert (H : option_map
                  (fun rw => (fst rw, defaultExpiration (v_DomainCache (snd rw))))
                  (UrlRequiresProcessing Fixture.validator 3 "http://newsite.example/a"
                     (Fixture.world (Fixture.service_says false) Fixture.resolves))
                = Some ((true, None), 30 * time.Minute)) by (vm_compute; reflexivity).
    rewrite E in H. cbn in H. injection H as -> Httl.
    exists w1. split; [reflexivity|].
    destruct (same_hostname_same_cached_decision (L := Fixture.lib) Fixture.validator 3
                "http://newsite.example/a" "http://newsite.example/b"
                "http://newsite.example" "http://newsite.example" "newsite.example"
                _ w1 true eq_refl eq_refl eq_refl eq_refl E)
      as (it & _ & _ & _ & Hwithin).
    apply Hwithin.
    + reflexivity.
    + rewrite Httl. reflexivity.
    + reflexivity.
    + rewrite Httl. cbn [clock elapse]. apply Z.add_le_mono_l. discriminate.
  - exfalso. vm_compute in E. discriminate E.
Defined.

(** C9 at a URL that does not parse. *)
Lemma only_parse_failures_witness :
  let w := Fixture.world (Fixture.service_says false) Fixture.resolves in
  ∃ r w', UrlRequiresProcessing Fixture.validator 3 "http://bad host/" w = Some (r, w')
          ∧ snd r ≠ None.
Proof.
  cbv zeta.
  destruct (only_parse_failures_surface (L := Fixture.lib) Fixture.validator 3
              "a.example" "http://bad host/"
              (Fixture.world (Fixture.service_says false) Fixture.resolves))
    as (_ & _ & _ & Hiff & Hret).
  destruct Hret as (_ & _ & _ & r & w' & E); [reflexivity | apply le_n |].
  exists r, w'. split; [exact E|].
  apply (Hiff r w' E). split; [reflexivity | discriminate].
Defined.

(** ** Concrete runs of the further properties *)

#[local] Existing Instance Desk.text.


(** X2 at a configuration without patterns. *)
Lemma refused_config_witness :
  NewValidator
    {| UrlBlackListRegexps := []; LocalIPNetsCfg := ["10.0.0.0/8"];
       WhitelisterApiCfg := Fixture.api 3 time.Second |}
    (Fixture.world Fixture.service_down Fixture.resolves)
  = Refused "validator cfg is invalid".
Proof.
  apply (proj2 (NewValidator_refuses_exactly _ _)). left. reflexivity.
Defined.

(** X3 at the configuration of the stand-in. *)
Lemma started_validator_witness :
  let w := Fixture.world Fixture.service_down Fixture.resolves in
  NewValidator Fixture.config w = Started (Fixture.validator, w)
  ∧ 0 < maxTries (v_Whitelister Fixture.validator)
  ∧ time.Millisecond <= sleepTime (v_Whitelister Fixture.validator).
Proof.
  cbv zeta. split; [reflexivity|].
  destruct (NewValidator_started Fixture.config
              (Fixture.world Fixture.service_down Fixture.resolves)
              (Fixture.world Fixture.service_down Fixture.resolves)
              Fixture.validator eq_refl)
    as (_ & _ & _ & _ & Htries & Hsleep & _).
  split; assumption.
Defined.

(** X4 at a local network that does not parse. *)
Lemma aborted_start_witness :
  let cfg := {| UrlBlackListRegexps := ["evil"]; LocalIPNetsCfg := ["ten"];
                WhitelisterApiCfg := Fixture.api 3 time.Second |} in
  let w := Fixture.world Fixture.service_down Fixture.resolves in
  NewValidator cfg w = Aborted "ten"
  ∧ ((In "ten" (UrlBlackListRegexps cfg) ∧ regexp_Compile "ten" = None)
     ∨ (In "ten" (LocalIPNetsCfg cfg) ∧ net_ParseCIDR "ten" = None)).
Proof.
  cbv zeta. split; [reflexivity|].
  apply (NewValidator_aborts_on _ (Fixture.world Fixture.service_down Fixture.resolves)).
  reflexivity.
Defined.

(** X5 at the configuration of the stand-in and an address of 10.0.0.0/8. *)
Lemma configured_lists_witness :
  let w := Fixture.world Fixture.service_down Fixture.resolves in
  NewValidator Fixture.config w = Started (Fixture.validator, w)
  ∧ ∃ s n, In s (LocalIPNetsCfg Fixture.config) ∧ net_ParseCIDR s = Some n
           ∧ IPNet_Contains n ([10; 0; 0; 5] : @IP Fixture.lib) = true.
Proof.
  cbv zeta. split; [reflexivity|].
  destruct (started_validator_checks_the_configured_lists Fixture.config
              (Fixture.world Fixture.service_down Fixture.resolves)
              (Fixture.world Fixture.service_down Fixture.resolves)
              Fixture.validator "http://evil.example" ([10; 0; 0; 5] : @IP Fixture.lib) eq_refl)
    as [_ Hlocal].
  destruct (proj1 Hlocal eq_refl) as [H|[H|[H|H]]];
    [discriminate H | discriminate H | discriminate H | exact H].
Defined.

(** X6 at a lookup against a service that is down. *)
Lemma lookup_frame_witness :
  let w := Fixture.world Fixture.service_down Fixture.resolves in
  ∃ r w', DomainIsWhite (Fixture.whitelister 3 time.Second) 3 "a.example" w
          = Some (r, w')
          ∧ touches_reputation_only "a.example" w w'.
Proof.
  cbv zeta.
  destruct (DomainIsWhite (Fixture.whitelister 3 time.Second) 3 "a.example"
              (Fixture.world Fixture.service_down Fixture.resolves))
    as [[r w']|] eqn:E.
  - exists r, w'. split; [reflexivity|].
    apply (lookup_touches_only_its_key (Fixture.whitelister 3 time.Second) 3
             "a.example" _ w' r).
    left. exact E.
  - exfalso. vm_compute in E. discriminate E.
Defined.

(** X7 at a service that drops the first request. *)
Lemma cached_answer_witness :
  let checker := Fixture.whitelister 3 time.Second in
  let w := Fixture.world (Desk.flaky true) Fixture.resolves in
  ∃ w', DomainIsWhite checker 3 "a.example" w = Some ((true, None), w')
        ∧ DomainIsWhite checker 0 "a.example" w'
          = Some ((true, None), emit (EvCacheGet WhitelisterMemcache "a.example") w').
Proof.
  cbv zeta.
  destruct (lookup_answer_is_cached (Fixture.whitelister 3 time.Second) 3 1
              "a.example" true (Fixture.world (Desk.flaky true) Fixture.resolves))
    as [Hdomain _].
  - vm_compute. discriminate.
  - reflexivity.
  - apply le_n_S, le_S, le_n.
  - reflexivity.
  - destruct Hdomain as (w' & new & Hrun & _ & _ & Hlater).
    + reflexivity.
    + intros i Hi. assert (i = 0%nat) as -> by lia. reflexivity.
    + eexists _, _. split; [reflexivity|]. split; [reflexivity|].
      split; reflexivity.
    + exists w'. split; [exact Hrun|]. apply Hlater.
      * reflexivity.
      * apply Z.le_refl.
      * left. change (clock w' <= clock w' + 3600000000000). lia.
Defined.

(** X8 at a service that is down. *)
Lemma lost_lookup_witness :
  let checker := Fixture.whitelister 3 time.Second in
  let w := Fixture.world Fixture.service_down Fixture.resolves in
  ∃ w', DomainIsWhite checker 3 "a.example" w = Some ((false, None), w')
        ∧ cache.Get (wl_memcache w') (clock w') "a.example" = None.
Proof.
  cbv zeta.
  destruct (lost_lookup_is_not_cached (Fixture.whitelister 3 time.Second) 3
              "a.example" (Fixture.world Fixture.service_down Fixture.resolves))
    as [Hdomain _].
  - split; [discriminate | reflexivity].
  - apply le_n.
  - reflexivity.
  - destruct Hdomain as (w' & Hrun & _ & _ & Hmiss).
    + reflexivity.
    + intros i _. reflexivity.
    + exists w'. split; assumption.
Defined.

(** X9 at a name the resolver knows. *)
Lemma resolver_witness :
  let w := Fixture.world Fixture.service_down Fixture.resolves in
  ∃ w', GetDomainIP (v_IpChecker Fixture.validator) "a.example" w
        = Some (("93.184.216.34", None), w')
        ∧ net_calls w' = 1%nat.
Proof.
  cbv zeta.
  destruct (proj2 (resolver_answers Fixture.validator "a.example"
                     (Fixture.world Fixture.service_down Fixture.resolves)) eq_refl)
    as (w' & l & _ & Hcalls & Hrun & _).
  exists w'. split; [exact Hrun | exact Hcalls].
Defined.

(** X10 at the literal 8.8.8.8. *)
Lemma dispatch_witness :
  let w := Fixture.world (Fixture.service_says true) Fixture.resolves in
  DomainIsWhiteListed Fixture.validator 3 "8.8.8.8" w
  = IpIsWhite (Fixture.whitelister 3 time.Second) 3 "8.8.8.8" w.
Proof.
  cbv zeta.
  exact (proj1 (DomainIsWhiteListed_dispatches Fixture.validator 3 "8.8.8.8"
                  (Fixture.world (Fixture.service_says true) Fixture.resolves))).
Defined.

(** X11 at a URL with a path. *)
Lemma parsed_domain_witness :
  ParseDomain Fixture.validator "http://newsite.example/a"
  = ("http://newsite.example", "newsite.example", None).
Proof.
  apply (proj2 (proj1 (ParseDomain_succeeds_exactly Fixture.validator
                         "http://newsite.example/a" "http://newsite.example"
                         "newsite.example"))).
  split; [discriminate|]. split; [discriminate|].
  exists ("http", "newsite.example"). split; [reflexivity|]. split; reflexivity.
Defined.

(** X12 at a URL without a hostname. *)
Lemma unparsable_url_witness :
  let w := Fixture.world (Fixture.service_says false) Fixture.resolves in
  ∃ err, UrlRequiresProcessing Fixture.validator 3 "http:///path" w
         = Some ((false, Some err),
                 emit (EvLog (Log_parse_domain_fail "http:///path" err)) w).
Proof.
  cbv zeta. apply unparsable_url_is_an_error; [reflexivity|].
  right; right. exists ("http", ""). split; reflexivity.
Defined.

(** X13 at the literal 8.8.8.8 and a service that allow-lists it. *)
Lemma ip_literal_decision_witness :
  let w := Fixture.world (Fixture.service_says true) Fixture.resolves in
  ∃ w', DomainRequiresProcessing Fixture.validator 3 "8.8.8.8" w
        = Some ((false, None), w').
Proof.
  cbv zeta.
  destruct (IpIsWhite (Fixture.whitelister 3 time.Second) 3 "8.8.8.8"
              (Fixture.world (Fixture.service_says true) Fixture.resolves))
    as [[r w1]|] eqn:E.
  - assert (H : option_map fst
                  (IpIsWhite (Fixture.whitelister 3 time.Second) 3 "8.8.8.8"
                     (Fixture.world (Fixture.service_says true) Fixture.resolves))
                = Some (true, None)) by (vm_compute; reflexivity).
    rewrite E in H. cbn in H. injection H as ->.
    destruct (ip_literal_decision_follows_reputation Fixture.validator 3 "8.8.8.8"
                ([8; 8; 8; 8] : @IP Fixture.lib) _ w1 true eq_refl eq_refl E)
      as (w' & new & Hrun & _).
    exists w'. exact Hrun.
  - exfalso. vm_compute in E. discriminate E.
Defined.

(** X14 at a name that is not allow-listed and resolves. *)
Lemma admitted_domain_witness :
  let w := Fixture.world (Fixture.service_says false) Fixture.resolves in
  ∃ w1, DomainIsWhite (Fixture.whitelister 3 time.Second) 3 "newsite.example" w
        = Some ((false, None), w1)
        ∧ has_a_record "newsite.example" w1 = true.
Proof.
  cbv zeta.
  destruct (DomainRequiresProcessing Fixture.validator 3 "newsite.example"
              (Fixture.world (Fixture.service_says false) Fixture.resolves))
    as [[r w']|] eqn:E.
  - assert (H : option_map fst
                  (DomainRequiresProcessing Fixture.validator 3 "newsite.example"
                     (Fixture.world (Fixture.service_says false) Fixture.resolves))
                = Some (true, None)) by (vm_compute; reflexivity).
    rewrite E in H. cbn in H. injection H as ->.
    destruct (admitted_domain_passed_every_check Fixture.validator 3
                "newsite.example" _ w' E)
      as [(ip & w1 & Hip & _)|(_ & w1 & Hrun & Hrec)].
    + exfalso. vm_compute in Hip. discriminate Hip.
    + exists w1. split; assumption.
  - exfalso. vm_compute in E. discriminate E.
Defined.

(** X15 at the same name. *)
Lemma decisions_left_witness :
  let w := Fixture.world (Fixture.service_says false) Fixture.resolves in
  ∃ r w', DomainRequiresProcessing Fixture.validator 3 "newsite.example" w
          = Some (r, w')
          ∧ v_DomainCache w' = v_DomainCache w.
Proof.
  cbv zeta.
  destruct (DomainRequiresProcessing Fixture.validator 3 "newsite.example"
              (Fixture.world (Fixture.service_says false) Fixture.resolves))
    as [[r w']|] eqn:E.
  - exists r, w'. split; [reflexivity|].
    exact (proj2 (DomainRequiresProcessing_leaves_decisions Fixture.validator 3
                    "newsite.example" _ w' r E)).
  - exfalso. vm_compute in E. discriminate E.
Defined.

(** X16 at a URL of that name. *)
Lemma own_domain_witness :
  let w := Fixture.world (Fixture.service_says false) Fixture.resolves in
  ∃ r w', UrlRequiresProcessing Fixture.validator 3 "http://newsite.example/a" w
          = Some (r, w')
          ∧ touches_only "newsite.example" w w'.
Proof.
  cbv zeta.
  destruct (UrlRequiresProcessing Fixture.validator 3 "http://newsite.example/a"
              (Fixture.world (Fixture.service_says false) Fixture.resolves))
    as [[r w']|] eqn:E.
  - exists r, w'. split; [reflexivity|].
    exact (proj1 (UrlRequiresProcessing_touches_only_its_domain Fixture.validator 3
                    "http://newsite.example/a" _ w' r E)).
  - exfalso. vm_compute in E. discriminate E.
Defined.

(** X17 at the same URL, asked twice. *)
Lemma repeated_call_witness :
  let w := Fixture.world (Fixture.service_says false) Fixture.resolves in
  ∃ r w1 w2,
    UrlRequiresProcessing Fixture.validator 3 "http://newsite.example/a" w
    = Some (r, w1)
    ∧ UrlRequiresProcessing Fixture.validator 0 "http://newsite.example/a" w1
      = Some (r, w2)
    ∧ net_calls w2 = net_calls w1.
Proof.
  cbv zeta.
  destruct (UrlRequiresProcessing Fixture.validator 3 "http://newsite.example/a"
              (Fixture.world (Fixture.service_says false) Fixture.resolves))
    as [[r w1]|] eqn:E.
  - destruct (repeated_call_stays_off_the_network Fixture.validator 3 0
                "http://newsite.example/a" _ w1 r E)
      as (w2 & new & Hrun & _ & _ & Hcalls).
    exists r, w1, w2. split; [reflexivity|]. split; assumption.
  - exfalso. vm_compute in E. discriminate E.
Defined.

(** X18 at the world after one call. *)
Lemma expiry_witness :
  let w := Fixture.world (Fixture.service_says false) Fixture.resolves in
  ∃ r w1,
    UrlRequiresProcessing Fixture.validator 3 "http://newsite.example/a" w
    = Some (r, w1)
    ∧ cache.Get (v_DomainCache w1) (clock w1 + 31 * time.Minute) "newsite.example"
      = None.
Proof.
  cbv zeta.
  destruct (UrlRequiresProcessing Fixture.validator 3 "http://newsite.example/a"
              (Fixture.world (Fixture.service_says false) Fixture.resolves))
    as [[r w1]|] eqn:E.
  - exists r, w1. split; [reflexivity|].
    destruct (cached_answers_expire Fixture.config Fixture.validator
                (Fixture.world (Fixture.service_says false) Fixture.resolves)
                (Fixture.world (Fixture.service_says false) Fixture.resolves) w1)
      as (_ & _ & Hlater).
    + discriminate.
    + reflexivity.
    + exact (reach_call _ _ 3 "http://newsite.example/a" _ w1 r (reach_start _ _) E).
    + apply (proj1 (Hlater "newsite.example" (clock w1 + 31 * time.Minute))).
      apply Z.add_lt_mono_l. reflexivity.
  - exfalso. vm_compute in E. discriminate E.
Defined.

(** X19 at the configuration of the stand-in. *)
Lemma rabbit_config_witness : RabbitConfig_IsValid Desk.rabbit_config = true.
Proof.
  apply (proj2 (proj1 (RabbitConfig_accepted_exactly Desk.rabbit_config))).
  split; [discriminate|]. split; [discriminate|]. split.
  - apply map_non_empty_singleton.
  - intros source exch H. change (Exchanges Desk.rabbit_config)
      with ({[ "mail" := "phish-mail" ]} : gmap string string) in H.
    apply lookup_singleton_Some in H as [<- <-]. split; discriminate.
Defined.

(** X20 at a task from the source mail. *)
Lemma routing_witness :
  NewRabbitHandler Desk.broker Desk.rabbit_config = Started Desk.handler
  ∧ pub_exchange (fst (RabbitHandler_Publish Desk.broker Desk.handler "mail" "" "{}"))
    ≠ "".
Proof.
  assert (H : NewRabbitHandler Desk.broker Desk.rabbit_config = Started Desk.handler)
    by (vm_compute; reflexivity).
  split; [exact H|].
  exact (proj1 (proj2 (started_handler_routes_by_source Desk.broker Desk.rabbit_config
                         Desk.handler "mail" "" "{}" H))).
Defined.

(** X21 at the configuration of the stand-in. *)
Lemma elastic_config_witness : ElasticConfig_IsValid Desk.elastic_config = true.
Proof.
  apply (proj2 (ElasticConfig_IsValid_exactly Desk.elastic_config)).
  split; [discriminate|]. split; [discriminate|].
  split; [repeat constructor|].
  split; [discriminate|]. split; [discriminate|]. split; discriminate.
Defined.

(** X22 at a task from mail. *)
Lemma valid_task_witness :
  fst (AddUrlTask_Validate (Desk.task "mail" "http://newsite.example/a")) = true.
Proof.
  apply (proj2 (proj1 (AddUrlTask_Validate_exactly
                         (Desk.task "mail" "http://newsite.example/a")))).
  split; [discriminate|]. split; [discriminate | reflexivity].
Defined.

(** X23 at a header that differs from the token in case and by blanks. *)
Lemma two_readings_witness :
  isValidAuthToken Desk.server " secret " = true
  ∧ parseRequestReferrer Desk.server " secret " = "".
Proof.
  destruct (header_is_read_two_ways Desk.server " secret ") as (Hvalid & _ & Hnone).
  split.
  - apply (proj2 Hvalid). exists "ops", "Secret". split; reflexivity.
  - apply Hnone. intros k H. change (srv_AuthTokens Desk.server)
      with ({[ "ops" := "Secret" ]} : gmap string string) in H.
    apply lookup_singleton_Some in H as [_ H]. discriminate H.
Defined.

(** X24 at a request without the header. *)
Lemma no_header_witness :
  let w := Fixture.world (Fixture.service_says false) Fixture.resolves in
  ∃ r, serve_add Desk.server Desk.handler Desk.broker 3 ""
         (inl (Desk.task "mail" "http://newsite.example/a")) w
       = Some ((Some r, None), w)
       ∧ w_status r = 401 ∧ w_aborted r = true.
Proof.
  cbv zeta. apply unauthenticated_request_stops_at_the_door. left. reflexivity.
Defined.

(** X25 at a configuration with a listen address and no tokens. *)
Lemma open_server_witness :
  let w := Fixture.world (Fixture.service_says false) Fixture.resolves in
  NewServer Desk.open_config Fixture.validator = Started Desk.open_server
  ∧ ∃ r, serve_add Desk.open_server Desk.handler Desk.broker 3 "Secret"
           (inl (Desk.task "mail" "http://newsite.example/a")) w
         = Some ((Some r, None), w)
         ∧ w_status r = 401 ∧ w_aborted r = true.
Proof.
  cbv zeta. split; [reflexivity|].
  apply (server_without_tokens_refuses_everything Desk.open_config Fixture.validator
           Desk.open_server eq_refl eq_refl).
Defined.

(** X26 at an authenticated request. *)
Lemma request_ends_witness :
  let w := Fixture.world (Fixture.service_says false) Fixture.resolves in
  ∃ door out w',
    serve_add Desk.server Desk.handler Desk.broker 3 "Secret"
      (inl (Desk.task "mail" "http://newsite.example/a")) w
    = Some ((door, out), w')
    ∧ (door = None ↔ out ≠ None).
Proof.
  cbv zeta.
  destruct (every_add_request_ends Desk.server Desk.handler Desk.broker 3 "Secret"
              (inl (Desk.task "mail" "http://newsite.example/a"))
              (Fixture.world (Fixture.service_says false) Fixture.resolves))
    as (door & out & w' & Hrun & _ & Hone & _).
  - reflexivity.
  - apply le_n.
  - exists door, out, w'. split; assumption.
Defined.

(** X27 at a task without a source. *)
Lemma malformed_task_witness :
  let w := Fixture.world (Fixture.service_says false) Fixture.resolves in
  ∃ r logged,
    addUrl Desk.server Desk.handler Desk.broker 3 "Secret"
      (inl (Desk.task "" "http://newsite.example/a")) w
    = Some (Served r None None logged, w)
    ∧ w_status r = 400 ∧ w_aborted r = true.
Proof.
  cbv zeta. apply malformed_task_is_refused_untouched.
  intros task [= <-]. left. reflexivity.
Defined.

(** X28 at a task that is published. *)
Lemma published_task_witness :
  let w := Fixture.world (Fixture.service_says false) Fixture.resolves in
  let task := Desk.task "mail" "http://newsite.example/a" in
  ∃ out w' p,
    addUrl Desk.server Desk.handler Desk.broker 3 "Secret" (inl task) w
    = Some (out, w')
    ∧ handed_to_broker out = Some p
    ∧ pub_exchange p = "phish-mail"
    ∧ UrlRequiresProcessing Fixture.validator 3 "http://newsite.example/a" w
      = Some ((true, None), w').
Proof.
  cbv zeta.
  destruct (addUrl Desk.server Desk.handler Desk.broker 3 "Secret"
              (inl (Desk.task "mail" "http://newsite.example/a"))
              (Fixture.world (Fixture.service_says false) Fixture.resolves))
    as [[out w']|] eqn:E.
  - assert (H : ∃ p, option_map (fun ow => handed_to_broker (fst ow))
                  (addUrl Desk.server Desk.handler Desk.broker 3 "Secret"
                     (inl (Desk.task "mail" "http://newsite.example/a"))
                     (Fixture.world (Fixture.service_says false) Fixture.resolves))
                = Some (Some p)) by (vm_compute; eexists; reflexivity).
    rewrite E in H. cbn in H. destruct H as (p & [= Hp]).
    destruct (only_checked_tasks_reach_the_broker Desk.server Desk.handler Desk.broker
                3 "Secret" _ _ w' out p E Hp)
      as (task & bytes & [= <-] & _ & _ & Hurp & _ & _ & _ & _ & Hex).
    exists out, w', p. split; [reflexivity|]. split; [exact Hp|].
    split; [exact Hex | exact Hurp].
  - exfalso. vm_compute in E. discriminate E.
Defined.

(** X29 at the same task. *)
Lemma audit_record_witness :
  let w := Fixture.world (Fixture.service_says false) Fixture.resolves in
  let task := Desk.task "mail" "http://newsite.example/a" in
  ∃ r published log logged w',
    addUrl Desk.server Desk.handler Desk.broker 3 "Secret" (inl task) w
    = Some (Served r published (Some log) logged, w')
    ∧ lt_Domain log ≠ "" ∧ lt_StartTime log = clock w'.
Proof.
  cbv zeta.
  destruct (addUrl Desk.server Desk.handler Desk.broker 3 "Secret"
              (inl (Desk.task "mail" "http://newsite.example/a"))
              (Fixture.world (Fixture.service_says false) Fixture.resolves))
    as [[out w']|] eqn:E.
  - assert (H : ∃ r published log logged,
                  option_map fst
                    (addUrl Desk.server Desk.handler Desk.broker 3 "Secret"
                       (inl (Desk.task "mail" "http://newsite.example/a"))
                       (Fixture.world (Fixture.service_says false) Fixture.resolves))
                  = Some (Served r published (Some log) logged))
      by (vm_compute; eexists _, _, _, _; reflexivity).
    rewrite E in H. cbn in H. destruct H as (r & published & log & logged & [= ->]).
    destruct (audit_record_describes_the_task Desk.server Desk.handler Desk.broker
                3 "Secret" _ _ w' r published log logged E)
      as (_ & _ & _ & Hstart & _ & _ & _ & _ & Hdomain & _).
    exists r, published, log, logged, w'. split; [reflexivity|]. split; assumption.
  - exfalso. vm_compute in E. discriminate E.
Defined.

(** X30 at a valid task whose URL has no hostname. *)
Lemma no_hostname_witness :
  let w := Fixture.world (Fixture.service_says false) Fixture.resolves in
  let task := Desk.task "mail" "http:///path" in
  fst (AddUrlTask_Validate task) = true
  ∧ ∃ out w',
      addUrl Desk.server Desk.handler Desk.broker 3 "Secret" (inl task) w
      = Some (out, w')
      ∧ ∃ r logged, out = Served r None None logged ∧ w_status r = 500.
Proof.
  cbv zeta. split; [reflexivity|].
  destruct (addUrl Desk.server Desk.handler Desk.broker 3 "Secret"
              (inl (Desk.task "mail" "http:///path"))
              (Fixture.world (Fixture.service_says false) Fixture.resolves))
    as [[out w']|] eqn:E.
  - exists out, w'. split; [reflexivity|].
    apply (proj2 (valid_task_fails_only_without_hostname Desk.server Desk.handler
                    Desk.broker 3 "Secret" (Desk.task "mail" "http:///path")
                    _ w' out eq_refl E)).
    split; [reflexivity|]. exists ("http", ""). split; reflexivity.
  - exfalso. vm_compute in E. discriminate E.
Defined.
